(** * DisCor (deep_control/discor.py): a shallow embedding and its properties

  The development follows [src/deep_control/discor.py]:
  - tensors are lists of real numbers (the floating-point arithmetic of
    torch is idealised by the field of reals); the components of an action
    on its way to the environment are a number or NaN;
  - every [torch.Tensor] / [nn.Parameter] object is a cell of a heap, so
    that the in-place writes of optimizers, of [temp.data = ...] and of the
    target synchronisation act on shared objects as they do in Python;
  - [learn_discor] and [discor] are programs in a state-and-exception
    monad over that heap, the checkpoint files and the collaborators'
    states. *)

From Stdlib Require Import Reals Lra Lia ZArith List Bool.
From stdpp Require Import base option list strings gmap.

Set Warnings "-clear-no-such-hyp".

Local Open Scope R_scope.

(** ** Tensor arithmetic on lists of reals *)

Module Tensor.

Definition t := list R.

(** [torch.sum] of a one-dimensional tensor. *)
Definition sum (xs : list R) : R := fold_right Rplus 0 xs.

(** [torch.mean]. *)
Definition mean (xs : list R) : R := sum xs / INR (length xs).

(** [torch.softmax(xs, dim=0)]. *)
Definition softmax (xs : list R) : list R :=
  map (fun x => exp x / sum (map exp xs)) xs.

(** [c * xs] with a Python scalar [c]. *)
Definition scale (c : R) (xs : list R) : list R := map (Rmult c) xs.

(** A component of an action tensor.  The actions go from the actor to the
    environment without passing through a loss, and there a float that is
    not a number stays visible: it is kept apart from the numbers. *)
Inductive float : Type :=
| Num (x : R)
| NaN.

(** [x.clamp(lo, hi)] on one component: [min(max(x, lo), hi)] on a number;
    [torch.clamp] returns NaN for NaN. *)
Definition clamp1 (lo hi : R) (v : float) : float :=
  match v with
  | Num x => Num (Rmin (Rmax x lo) hi)
  | NaN => NaN
  end.

(** [xs.clamp(lo, hi)]. *)
Definition clamp (lo hi : R) (xs : list float) : list float :=
  map (clamp1 lo hi) xs.

(** A component that is a number between [lo] and [hi]. *)
Definition within (lo hi : R) (v : float) : Prop :=
  match v with
  | Num x => lo <= x <= hi
  | NaN => False
  end.

(** What clamping makes of a component [raw]: a number in range out of a
    number, NaN out of NaN. *)
Definition clamped (lo hi : R) (raw v : float) : Prop :=
  match raw with
  | Num _ => within lo hi v
  | NaN => v = NaN
  end.

(** Elementwise operations; torch broadcasting of a Python scalar or of a
    one-element tensor against a batch is written as the [..s] variants. *)
Definition add (xs ys : list R) : list R := zip_with Rplus xs ys.
Definition sub (xs ys : list R) : list R := zip_with Rminus xs ys.
Definition mul (xs ys : list R) : list R := zip_with Rmult xs ys.
Definition min (xs ys : list R) : list R := zip_with Rmin xs ys.
Definition neg (xs : list R) : list R := map Ropp xs.
Definition abs (xs : list R) : list R := map Rabs xs.
Definition sq (xs : list R) : list R := map (fun x => x ^ 2) xs.
(** [c - xs] *)
Definition rsub (c : R) (xs : list R) : list R := map (fun x => c - x) xs.
(** [xs * c] *)
Definition muls (xs : list R) (c : R) : list R := map (fun x => x * c) xs.
(** [xs + c] *)
Definition adds (xs : list R) (c : R) : list R := map (fun x => x + c) xs.
(** [xs / c] *)
Definition divs (xs : list R) (c : R) : list R := map (fun x => x / c) xs.

(** The single entry of a one-element tensor such as [log_alpha] or
    [temp1] (shape [(1,)]), as it is broadcast against a batch. *)
Definition item (xs : list R) : R := hd 0 xs.

End Tensor.

(** ** Python control: exceptions, mutable state, loops *)

Module Py.

Inductive exn : Type :=
| AssertionError
| ZeroDivisionError
| UnboundLocalError
| ValueError.

Inductive outcome (A : Type) : Type :=
| Ok (a : A)
| Raise (e : exn).
Arguments Ok {A} a.
Arguments Raise {A} e.

(** A statement run in state [S]: it returns or raises, and in both cases
    leaves the state it has reached (mutations made before an exception
    stay). *)
Definition M (S A : Type) : Type := S -> outcome A * S.

Definition ret {S A} (a : A) : M S A := fun s => (Ok a, s).

Definition bind {S A B} (c : M S A) (k : A -> M S B) : M S B :=
  fun s =>
    match c s with
    | (Ok a, s') => k a s'
    | (Raise e, s') => (Raise e, s')
    end.

Definition raise {S A} (e : exn) : M S A := fun s => (Raise e, s).

Definition gets {S A} (f : S -> A) : M S A := fun s => (Ok (f s), s).

Definition modify {S} (f : S -> S) : M S unit := fun s => (Ok tt, f s).

(** [assert b] *)
Definition assert_ {S} (b : bool) : M S unit :=
  if b then ret tt else raise AssertionError.

(** [if b: body] *)
Definition when {S} (b : bool) (body : M S unit) : M S unit :=
  if b then body else ret tt.

(** [a % b] on Python ints: the sign follows the divisor, as [Z.modulo]
    does, and a zero divisor raises. *)
Definition mod_ {S} (a b : Z) : M S Z :=
  if (b =? 0)%Z then raise ZeroDivisionError else ret (a mod b)%Z.

(** Reading a local variable that may not have been assigned yet. *)
Definition local {S A} (v : option A) : M S A :=
  match v with Some a => ret a | None => raise UnboundLocalError end.

(** A call that returns or raises and leaves the state alone. *)
Definition call {S A} (o : outcome A) : M S A := fun s => (o, s).

(** [range(n)] *)
Definition range (n : Z) : list Z := map Z.of_nat (seq 0 (Z.to_nat n)).

(** [for x in xs: body] *)
Fixpoint for_ {S A} (xs : list A) (body : A -> M S unit) : M S unit :=
  match xs with
  | [] => ret tt
  | x :: rest => bind (body x) (fun _ => for_ rest body)
  end.

(** Truth value of an optional float ([None] and [0.0] are false). *)
Definition truthy (c : option R) : bool :=
  match c with
  | None => false
  | Some x => if Req_dec_T x 0 then false else true
  end.

End Py.

Import Py.

Declare Scope py_scope.
Delimit Scope py_scope with py.
Notation "x <- c ;; k" := (bind c (fun x => k))
  (at level 100, c at next level, right associativity) : py_scope.
Notation "c ;; k" := (bind c (fun _ => k))
  (at level 100, right associativity) : py_scope.

(** ** Objects *)

(** Identity of a tensor object ([torch.Tensor], [nn.Parameter] data). *)
Definition loc := positive.

(** The tensor store.  A network's [parameters()] are kept as one flattened
    tensor per network. *)
Abbreviation heap := (gmap positive (list R)).

(** An [nn.Module]: its parameter tensor and its train/eval flag. *)
Record NNModule : Type := {
  weights : loc;
  training : bool
}.

(** A transition as given to [buffer.push]. *)
Record Transition (Obs : Type) : Type := {
  p_state : Obs;
  p_action : list Tensor.float;
  p_reward : R;
  p_next_state : Obs;
  p_done : bool
}.
Arguments p_state {Obs}.
Arguments p_action {Obs}.
Arguments p_reward {Obs}.
Arguments p_next_state {Obs}.
Arguments p_done {Obs}.

(** One row of the five aligned arrays returned by [buffer.sample]; the
    done flag is a float there. *)
Record Row (Obs : Type) : Type := {
  state_batch : Obs;
  action_batch : list R;
  reward_batch : R;
  next_state_batch : Obs;
  done_batch : R
}.
Arguments state_batch {Obs}.
Arguments action_batch {Obs}.
Arguments reward_batch {Obs}.
Arguments next_state_batch {Obs}.
Arguments done_batch {Obs}.

(** ** The collaborators that live outside the file

    [nets], [replay], [run], the gym environment and the torch
    distributions, autograd and optimizers are used by [discor.py] through
    the operations below and nothing else.  Networks act row by row on a
    batch. *)
Record World : Type := {
  Obs : Type;
  Dist : Type;
  Rng : Type;
  Env : Type;
  Buffer : Type;
  OptState : Type;
  (** [actor_net(...)(state)], [critic_net(...)(state, action)] and
      [delta_net(...)(state, action)] on one row: train/eval flag, weights,
      inputs *)
  actor_net : bool -> list R -> Obs -> Dist;
  critic_net : bool -> list R -> Obs -> list R -> R;
  delta_net : bool -> list R -> Obs -> list R -> R;
  (** [dist.mean], [dist.sample()], [dist.rsample()], [dist.log_prob(a)]
      (one log-probability per action dimension); the mean and the sample
      are the actions handed to the environment and may hold NaN, the
      reparameterised sample enters the losses, whose arithmetic is
      idealised *)
  dist_mean : Dist -> list Tensor.float;
  dist_sample : Dist -> Rng -> list Tensor.float * Rng;
  dist_rsample : Dist -> Rng -> list R * Rng;
  dist_log_prob : Dist -> list R -> list R;
  (** [loss.backward()]: the gradient of a loss, given as a function of the
      tensor store, at the current store and with respect to one tensor *)
  backward : (heap -> R) -> heap -> loc -> list R;
  (** [torch.nn.utils.clip_grad_norm_(params, max_norm)] on the gradients
      of [params] *)
  clip_grad_norm : list (list R) -> R -> list (list R);
  (** [torch.optim.Adam(params, lr, weight_decay, betas)]: the fresh
      optimizer state, the new value of the i-th held tensor from its
      value and gradient, and the state after a step *)
  adam_init : R -> R -> R * R -> OptState;
  adam_update : OptState -> nat -> list R -> list R -> list R;
  adam_advance : OptState -> list (list R) -> OptState;
  (** [isinstance(buffer, replay.PrioritizedReplayBuffer)],
      [buffer.push(...)], [buffer.sample(batch_size)] *)
  is_prioritized : Buffer -> bool;
  buffer_push : Buffer -> Transition Obs -> Buffer;
  buffer_sample : Buffer -> Z -> Rng -> list (Row Obs) * Rng;
  (** [env.reset()], [env.step(action)] (the [info] dictionary is not
      used), [env.action_space.shape[0]] *)
  env_reset : Env -> Obs * Env;
  env_step : Env -> list Tensor.float -> (Obs * R * bool) * Env;
  action_space_shape0 : Env -> Z;
  (** [run.warmup_buffer(buffer, env, warmup_steps, max_episode_steps)] *)
  warmup_buffer : Buffer -> Env -> Z -> Z -> Rng -> Buffer * Env * Rng;
  (** [run.evaluate_agent(agent, env, eval_episodes, max_episode_steps,
      render)]: it reaches the agent through [agent.forward] only, which is
      passed as the policy *)
  evaluate_agent :
    (Obs -> list Tensor.float) -> Env -> Z -> Z -> bool -> R * Env;
  (** [utils.make_process_dirs(name)]: the directory of the run;
      [SummaryWriter(save_dir)] followed by
      [writer.add_hparams(locals(), {})]; [writer.add_scalar("return",
      mean_return, global_step)].  Each returns or raises; what the writer
      puts on the disk is not modelled. *)
  make_process_dirs : string -> outcome string;
  add_hparams : string -> outcome unit;
  add_scalar : R -> Z -> outcome unit
}.

Local Open Scope py_scope.

(** ** [class DisCorAgent] and the state of a training run *)

Module DisCor.

(** The five networks of an agent ([DisCorAgent.__init__]). *)
Record DisCorAgent : Type := {
  actor : NNModule;
  critic1 : NNModule;
  critic2 : NNModule;
  delta1 : NNModule;
  delta2 : NNModule
}.

(** A [torch.optim.Adam] object: the tensors it was built on, in order, and
    its internal state. *)
Record Optimizer (St : Type) : Type := {
  params : list loc;
  opt_state : St
}.
Arguments params {St}.
Arguments opt_state {St}.

(** *** [DisCorAgent.save] and [DisCorAgent.load] *)

(** The files of a checkpoint directory: path to saved [state_dict], kept
    as one flattened tensor like the parameters of a network.  Directories
    and write failures are not modelled. *)
Abbreviation disk := (gmap string (list R)).

Inductive io_error : Type :=
| FileNotFoundError
| RuntimeError.

Fixpoint ends_with_slash (p : string) : bool :=
  match p with
  | EmptyString => false
  | String c EmptyString => String.eqb (String c EmptyString) "/"
  | String _ rest => ends_with_slash rest
  end.

(** [os.path.join(path, name)] ([posixpath]) for a [name] that does not
    start with a slash, as the five file names below. *)
Definition join (path name : string) : string :=
  match path with
  | EmptyString => name
  | _ => if ends_with_slash path then path +:+ name
         else path +:+ "/" +:+ name
  end.

(** [torch.save(module.state_dict(), file)] *)
Definition torch_save (m : NNModule) (file : string) (h : heap) (d : disk)
  : disk :=
  <[file := h !!! weights m]> d.

Definition save (a : DisCorAgent) (path : string) (h : heap) (d : disk)
  : disk :=
  let actor_path := join path "actor.pt" in
  let critic1_path := join path "critic1.pt" in
  let critic2_path := join path "critic2.pt" in
  let delta1_path := join path "delta1.pt" in
  let delta2_path := join path "delta2.pt" in
  let d := torch_save (actor a) actor_path h d in
  let d := torch_save (critic1 a) critic1_path h d in
  let d := torch_save (critic2 a) critic2_path h d in
  let d := torch_save (delta1 a) delta1_path h d in
  torch_save (delta2 a) delta2_path h d.

(** [module.load_state_dict(torch.load(file))]: [torch.load] raises when
    the file is missing, [load_state_dict] raises on a size mismatch and
    otherwise copies into the parameters in place.  The result is the
    exception, if any, and the store as it is left. *)
Definition load_state_dict (m : NNModule) (file : string) (d : disk)
    (h : heap) : option io_error * heap :=
  match d !! file with
  | None => (Some FileNotFoundError, h)
  | Some v =>
      if Nat.eqb (length v) (length (h !!! weights m))
      then (None, <[weights m := v]> h)
      else (Some RuntimeError, h)
  end.

(** Sequencing of statements that may raise. *)
Definition and_then (r : option io_error * heap)
    (k : heap -> option io_error * heap) : option io_error * heap :=
  match r with
  | (None, h) => k h
  | (Some e, h) => (Some e, h)
  end.

Definition load (a : DisCorAgent) (path : string) (d : disk) (h : heap)
  : option io_error * heap :=
  let actor_path := join path "actor.pt" in
  let critic1_path := join path "critic1.pt" in
  let critic2_path := join path "critic2.pt" in
  let delta1_path := join path "delta1.pt" in
  let delta2_path := join path "delta2.pt" in
  and_then (load_state_dict (actor a) actor_path d h) (fun h =>
  and_then (load_state_dict (critic1 a) critic1_path d h) (fun h =>
  and_then (load_state_dict (critic2 a) critic2_path d h) (fun h =>
  and_then (load_state_dict (delta1 a) delta1_path d h) (fun h =>
  load_state_dict (delta2 a) delta2_path d h)))).

Section Model.

Context {W : World}.

(** Everything [discor] and [learn_discor] can mutate: the tensor store,
    the random generators, the two agents, the four optimizers, the buffer,
    the environments, the rollout variables of the outer loop ([state]
    and [steps_this_ep] are unbound until the first reset), the files of
    the checkpoints and the local variable [save_dir] (unbound unless
    [save_to_disk] or [log_to_disk] is set). *)
Record State : Type := {
  st_heap : heap;
  st_rng : Rng W;
  agent : DisCorAgent;
  target_agent : DisCorAgent;
  critic_optimizer : Optimizer (OptState W);
  actor_optimizer : Optimizer (OptState W);
  delta_optimizer : Optimizer (OptState W);
  log_alpha_optimizer : Optimizer (OptState W);
  buffer : Buffer W;
  train_env : Env W;
  test_env : Env W;
  done : bool;
  state : option (Obs W);
  steps_this_ep : option Z;
  files : disk;
  save_dir : option string
}.

Definition set_heap (f : heap -> heap) (s : State) : State :=
  {| st_heap := f (st_heap s); st_rng := st_rng s; agent := agent s;
     target_agent := target_agent s;
     critic_optimizer := critic_optimizer s;
     actor_optimizer := actor_optimizer s;
     delta_optimizer := delta_optimizer s;
     log_alpha_optimizer := log_alpha_optimizer s;
     buffer := buffer s; train_env := train_env s; test_env := test_env s;
     done := done s; state := state s; steps_this_ep := steps_this_ep s;
     files := files s; save_dir := save_dir s |}.

Definition set_rng (r : Rng W) (s : State) : State :=
  {| st_heap := st_heap s; st_rng := r; agent := agent s;
     target_agent := target_agent s;
     critic_optimizer := critic_optimizer s;
     actor_optimizer := actor_optimizer s;
     delta_optimizer := delta_optimizer s;
     log_alpha_optimizer := log_alpha_optimizer s;
     buffer := buffer s; train_env := train_env s; test_env := test_env s;
     done := done s; state := state s; steps_this_ep := steps_this_ep s;
     files := files s; save_dir := save_dir s |}.

Definition set_agent (f : DisCorAgent -> DisCorAgent) (s : State) : State :=
  {| st_heap := st_heap s; st_rng := st_rng s; agent := f (agent s);
     target_agent := target_agent s;
     critic_optimizer := critic_optimizer s;
     actor_optimizer := actor_optimizer s;
     delta_optimizer := delta_optimizer s;
     log_alpha_optimizer := log_alpha_optimizer s;
     buffer := buffer s; train_env := train_env s; test_env := test_env s;
     done := done s; state := state s; steps_this_ep := steps_this_ep s;
     files := files s; save_dir := save_dir s |}.

(** The four optimizers, by the name of the variable that holds them. *)
Inductive opt_name : Type := CriticOpt | ActorOpt | DeltaOpt | LogAlphaOpt.

Definition get_opt (o : opt_name) (s : State) : Optimizer (OptState W) :=
  match o with
  | CriticOpt => critic_optimizer s
  | ActorOpt => actor_optimizer s
  | DeltaOpt => delta_optimizer s
  | LogAlphaOpt => log_alpha_optimizer s
  end.

Definition set_opt (o : opt_name) (v : Optimizer (OptState W)) (s : State)
  : State :=
  {| st_heap := st_heap s; st_rng := st_rng s; agent := agent s;
     target_agent := target_agent s;
     critic_optimizer :=
       match o with CriticOpt => v | _ => critic_optimizer s end;
     actor_optimizer :=
       match o with ActorOpt => v | _ => actor_optimizer s end;
     delta_optimizer :=
       match o with DeltaOpt => v | _ => delta_optimizer s end;
     log_alpha_optimizer :=
       match o with LogAlphaOpt => v | _ => log_alpha_optimizer s end;
     buffer := buffer s; train_env := train_env s; test_env := test_env s;
     done := done s; state := state s; steps_this_ep := steps_this_ep s;
     files := files s; save_dir := save_dir s |}.

Definition set_buffer (b : Buffer W) (s : State) : State :=
  {| st_heap := st_heap s; st_rng := st_rng s; agent := agent s;
     target_agent := target_agent s;
     critic_optimizer := critic_optimizer s;
     actor_optimizer := actor_optimizer s;
     delta_optimizer := delta_optimizer s;
     log_alpha_optimizer := log_alpha_optimizer s;
     buffer := b; train_env := train_env s; test_env := test_env s;
     done := done s; state := state s; steps_this_ep := steps_this_ep s;
     files := files s; save_dir := save_dir s |}.

Definition set_train_env (e : Env W) (s : State) : State :=
  {| st_heap := st_heap s; st_rng := st_rng s; agent := agent s;
     target_agent := target_agent s;
     critic_optimizer := critic_optimizer s;
     actor_optimizer := actor_optimizer s;
     delta_optimizer := delta_optimizer s;
     log_alpha_optimizer := log_alpha_optimizer s;
     buffer := buffer s; train_env := e; test_env := test_env s;
     done := done s; state := state s; steps_this_ep := steps_this_ep s;
     files := files s; save_dir := save_dir s |}.

Definition set_test_env (e : Env W) (s : State) : State :=
  {| st_heap := st_heap s; st_rng := st_rng s; agent := agent s;
     target_agent := target_agent s;
     critic_optimizer := critic_optimizer s;
     actor_optimizer := actor_optimizer s;
     delta_optimizer := delta_optimizer s;
     log_alpha_optimizer := log_alpha_optimizer s;
     buffer := buffer s; train_env := train_env s; test_env := e;
     done := done s; state := state s; steps_this_ep := steps_this_ep s;
     files := files s; save_dir := save_dir s |}.

Definition set_rollout (d : bool) (o : option (Obs W)) (n : option Z)
    (s : State) : State :=
  {| st_heap := st_heap s; st_rng := st_rng s; agent := agent s;
     target_agent := target_agent s;
     critic_optimizer := critic_optimizer s;
     actor_optimizer := actor_optimizer s;
     delta_optimizer := delta_optimizer s;
     log_alpha_optimizer := log_alpha_optimizer s;
     buffer := buffer s; train_env := train_env s; test_env := test_env s;
     done := d; state := o; steps_this_ep := n;
     files := files s; save_dir := save_dir s |}.

Definition set_files (d : disk) (s : State) : State :=
  {| st_heap := st_heap s; st_rng := st_rng s; agent := agent s;
     target_agent := target_agent s;
     critic_optimizer := critic_optimizer s;
     actor_optimizer := actor_optimizer s;
     delta_optimizer := delta_optimizer s;
     log_alpha_optimizer := log_alpha_optimizer s;
     buffer := buffer s; train_env := train_env s; test_env := test_env s;
     done := done s; state := state s; steps_this_ep := steps_this_ep s;
     files := d; save_dir := save_dir s |}.

Definition set_save_dir (d : option string) (s : State) : State :=
  {| st_heap := st_heap s; st_rng := st_rng s; agent := agent s;
     target_agent := target_agent s;
     critic_optimizer := critic_optimizer s;
     actor_optimizer := actor_optimizer s;
     delta_optimizer := delta_optimizer s;
     log_alpha_optimizer := log_alpha_optimizer s;
     buffer := buffer s; train_env := train_env s; test_env := test_env s;
     done := done s; state := state s; steps_this_ep := steps_this_ep s;
     files := files s; save_dir := d |}.

(** *** Module operations *)

Definition set_training (b : bool) (m : NNModule) : NNModule :=
  {| weights := weights m; training := b |}.

Definition set_actor (m : NNModule) (a : DisCorAgent) : DisCorAgent :=
  {| actor := m; critic1 := critic1 a; critic2 := critic2 a;
     delta1 := delta1 a; delta2 := delta2 a |}.

(** [DisCorAgent.train] / [DisCorAgent.eval]: all five networks. *)
Definition set_mode (b : bool) (a : DisCorAgent) : DisCorAgent :=
  {| actor := set_training b (actor a);
     critic1 := set_training b (critic1 a);
     critic2 := set_training b (critic2 a);
     delta1 := set_training b (delta1 a);
     delta2 := set_training b (delta2 a) |}.

Definition train (a : DisCorAgent) : DisCorAgent := set_mode true a.
Definition eval (a : DisCorAgent) : DisCorAgent := set_mode false a.

(** Forward passes of a module on one row, reading its weights in a
    store. *)
Definition actor_fwd (h : heap) (m : NNModule) (o : Obs W) : Dist W :=
  actor_net W (training m) (h !!! weights m) o.

Definition critic_fwd (h : heap) (m : NNModule) (o : Obs W) (a : list R) : R :=
  critic_net W (training m) (h !!! weights m) o a.

Definition delta_fwd (h : heap) (m : NNModule) (o : Obs W) (a : list R) : R :=
  delta_net W (training m) (h !!! weights m) o a.

(** A network applied to the rows of a batch of (state, action) pairs. *)
Definition on_batch (f : Obs W -> list R -> R)
    (obs : list (Obs W)) (acts : list (list R)) : list R :=
  zip_with f obs acts.

(** Drawing one action per row of a batch of distributions, threading the
    generator. *)
Fixpoint draw {A} (sampler : Dist W -> Rng W -> A * Rng W)
    (ds : list (Dist W)) (r : Rng W) : list A * Rng W :=
  match ds with
  | [] => ([], r)
  | d :: rest =>
      let ar := sampler d r in
      let more := draw sampler rest ar.2 in
      (ar.1 :: more.1, more.2)
  end.

Definition draw_ {A} (sampler : Dist W -> Rng W -> A * Rng W)
    (ds : list (Dist W)) : M State (list A) :=
  fun s => (Ok (draw sampler ds (st_rng s)).1,
            set_rng (draw sampler ds (st_rng s)).2 s).

(** [dist.log_prob(a).sum(-1, keepdim=True)] on a batch. *)
Definition log_prob_sum (ds : list (Dist W)) (acts : list (list R)) : list R :=
  zip_with (fun d a => Tensor.sum (dist_log_prob W d a)) ds acts.

(** *** [DisCorAgent.forward] and [DisCorAgent.sample_action] *)

(** [self.actor.eval()] / [self.actor.train()] *)
Definition actor_mode (b : bool) : M State unit :=
  modify (set_agent (fun a => set_actor (set_training b (actor a)) a)).

(** [process_state]: [np.expand_dims(state, 0)], a batch of one row. *)
Definition process_state (st : Obs W) : list (Obs W) := [st].

(** [process_act]: clamp every component, then [np.squeeze(..., 0)], which
    raises unless the batch has exactly one row. *)
Definition process_act (act : list (list Tensor.float))
  : M State (list Tensor.float) :=
  match map (Tensor.clamp (-1) 1) act with
  | [a] => ret a
  | _ => raise ValueError
  end.

(** With [from_cpu] the argument is one observation and the result one
    action; without it both are batches. *)
Definition forward (from_cpu : bool)
  : (if from_cpu then Obs W else list (Obs W)) ->
    M State (if from_cpu then list Tensor.float
             else list (list Tensor.float)) :=
  match from_cpu with
  | true => fun st =>
      let st := process_state st in
      actor_mode false ;;
      h <- gets st_heap ;;
      a <- gets agent ;;
      let act_dist := map (actor_fwd h (actor a)) st in
      let act := map (dist_mean W) act_dist in
      actor_mode true ;;
      process_act act
  | false => fun st =>
      actor_mode false ;;
      h <- gets st_heap ;;
      a <- gets agent ;;
      let act_dist := map (actor_fwd h (actor a)) st in
      let act := map (dist_mean W) act_dist in
      actor_mode true ;;
      ret act
  end.

Definition sample_action (from_cpu : bool)
  : (if from_cpu then Obs W else list (Obs W)) ->
    M State (if from_cpu then list Tensor.float
             else list (list Tensor.float)) :=
  match from_cpu with
  | true => fun st =>
      let st := process_state st in
      actor_mode false ;;
      h <- gets st_heap ;;
      a <- gets agent ;;
      let act_dist := map (actor_fwd h (actor a)) st in
      act <- draw_ (dist_sample W) act_dist ;;
      actor_mode true ;;
      process_act act
  | false => fun st =>
      actor_mode false ;;
      h <- gets st_heap ;;
      a <- gets agent ;;
      let act_dist := map (actor_fwd h (actor a)) st in
      act <- draw_ (dist_sample W) act_dist ;;
      actor_mode true ;;
      ret act
  end.

(** *** Gradient steps *)

(** [optimizer.step()] on the store: every held tensor, in order, is
    overwritten in place. *)
Definition step_params (st : OptState W) (g : loc -> list R)
    (ps : list loc) (h : heap) : heap :=
  fold_left
    (fun acc (il : nat * loc) =>
       <[il.2 := adam_update W st il.1 (acc !!! il.2) (g il.2)]> acc)
    (zip (seq 0 (length ps)) ps) h.

Definition optimizer_step (o : opt_name) (g : loc -> list R) : M State unit :=
  fun s =>
    let opt := get_opt o s in
    let opt' := {| params := params opt;
                   opt_state := adam_advance W (opt_state opt)
                                  (map g (params opt)) |} in
    (Ok tt, set_opt o opt' (set_heap (step_params (opt_state opt) g
                                        (params opt)) s)).

(** [clip_grad_norm_(ps, max_norm)]: the gradients of the tensors [ps] are
    rescaled in place, the others are left alone. *)
Definition clip_grads (ps : list loc) (max_norm : R) (g : loc -> list R)
  : loc -> list R :=
  fold_right
    (fun (pc : loc * list R) acc l =>
       if Pos.eqb l pc.1 then pc.2 else acc l)
    g (zip ps (clip_grad_norm W (map g ps) max_norm)).

(** [opt.zero_grad(); loss.backward(); if clip: clip_grad_norm_(ps, clip);
    opt.step()].  The gradients seen by the step are those of [loss] alone,
    since they are zeroed first. *)
Definition gradient_step (o : opt_name) (loss : heap -> R)
    (clip : option R) (ps : list loc) : M State unit :=
  h <- gets st_heap ;;
  let g := backward W loss h in
  let g := match clip with
           | Some c => if truthy clip then clip_grads ps c g else g
           | None => g
           end in
  optimizer_step o g.

(** *** [learn_discor] *)

(** The local variables of one call, as they stand when it ends.  The
    Python function returns [None]; the embedding returns this frame so
    that statements can speak about the values the call computed.  The two
    losses are kept as functions of the tensor store: the parts computed
    under [torch.no_grad()] are constants of these functions. *)
Record Locals : Type := {
  batch : list (Row (Obs W));
  alpha : R;
  action_s1 : list (list R);
  logp_a1 : list R;
  target_action_value_s1 : list R;
  td_target : list R;
  target_delta1_s1 : list R;
  target_delta2_s1 : list R;
  disCor_weights1 : list R;
  disCor_weights2 : list R;
  agent_critic1_pred : list R;
  agent_critic2_pred : list R;
  td_error1 : list R;
  td_error2 : list R;
  critic_loss : heap -> R;
  target_delta1 : list R;
  target_delta2 : list R;
  delta1_pred : list R;
  delta2_pred : list R;
  delta_loss : heap -> R
}.

(** [buffer.sample(batch_size)] *)
Definition sample_ (b : Buffer W) (n : Z) : M State (list (Row (Obs W))) :=
  fun s => (Ok (buffer_sample W b n (st_rng s)).1,
            set_rng (buffer_sample W b n (st_rng s)).2 s).

(** [t.data = t.data * (1.0 - tau) + (tau * m)] on a temperature tensor. *)
Definition smooth_temp (t : loc) (tau m : R) : M State unit :=
  modify (set_heap (fun h =>
    <[t := Tensor.adds (Tensor.muls (h !!! t) (1 - tau)) (tau * m)]> h)).

Definition learn_discor (buffer : Buffer W) (log_alpha : loc)
    (target_entropy : Z) (batch_size : Z) (gamma : R)
    (critic_clip actor_clip delta_clip : option R)
    (temp1 temp2 : loc) (tau : R) (update_policy : bool) : M State Locals :=
  assert_ (negb (is_prioritized W buffer)) ;;
  batch <- sample_ buffer batch_size ;;
  let state_batch := map state_batch batch in
  let next_state_batch := map next_state_batch batch in
  let action_batch := map action_batch batch in
  let reward_batch := map reward_batch batch in
  let done_batch := map done_batch batch in
  modify (set_agent train) ;;
  ag <- gets agent ;;
  tg <- gets target_agent ;;
  (* critic update *)
  h0 <- gets st_heap ;;
  let alpha := exp (Tensor.item (h0 !!! log_alpha)) in
  let action_dist_s1 := map (actor_fwd h0 (actor ag)) next_state_batch in
  action_s1 <- draw_ (dist_rsample W) action_dist_s1 ;;
  let logp_a1 := log_prob_sum action_dist_s1 action_s1 in
  let target_action_value_s1 :=
    Tensor.min
      (on_batch (critic_fwd h0 (critic1 tg)) next_state_batch action_s1)
      (on_batch (critic_fwd h0 (critic2 tg)) next_state_batch action_s1) in
  let td_target :=
    Tensor.add reward_batch
      (Tensor.mul (Tensor.scale gamma (Tensor.rsub 1 done_batch))
         (Tensor.sub target_action_value_s1 (Tensor.scale alpha logp_a1))) in
  let target_delta1_s1 :=
    on_batch (delta_fwd h0 (delta1 tg)) next_state_batch action_s1 in
  let target_delta2_s1 :=
    on_batch (delta_fwd h0 (delta2 tg)) next_state_batch action_s1 in
  let disCor_weights1 :=
    Tensor.scale (IZR batch_size)
      (Tensor.softmax
         (Tensor.divs
            (Tensor.mul
               (Tensor.muls (Tensor.neg (Tensor.rsub 1 done_batch)) gamma)
               (on_batch (delta_fwd h0 (delta1 ag))
                  next_state_batch action_s1))
            (Tensor.item (h0 !!! temp1)))) in
  let disCor_weights2 :=
    Tensor.scale (IZR batch_size)
      (Tensor.softmax
         (Tensor.divs
            (Tensor.mul
               (Tensor.muls (Tensor.neg (Tensor.rsub 1 done_batch)) gamma)
               (on_batch (delta_fwd h0 (delta2 ag))
                  next_state_batch action_s1))
            (Tensor.item (h0 !!! temp2)))) in
  let critic1_pred (h : heap) :=
    on_batch (critic_fwd h (critic1 ag)) state_batch action_batch in
  let critic2_pred (h : heap) :=
    on_batch (critic_fwd h (critic2 ag)) state_batch action_batch in
  let agent_critic1_pred := critic1_pred h0 in
  let agent_critic2_pred := critic2_pred h0 in
  let td_error1 := Tensor.sub td_target agent_critic1_pred in
  let td_error2 := Tensor.sub td_target agent_critic2_pred in
  (* reweight based on discor weights *)
  let critic_loss (h : heap) :=
    Tensor.mean
      (Tensor.add
         (Tensor.mul disCor_weights1
            (Tensor.sq (Tensor.sub td_target (critic1_pred h))))
         (Tensor.mul disCor_weights2
            (Tensor.sq (Tensor.sub td_target (critic2_pred h))))) in
  gradient_step CriticOpt critic_loss critic_clip
    [weights (critic1 ag); weights (critic2 ag)] ;;
  (* DisCor delta update *)
  let target_delta1 :=
    Tensor.add (Tensor.abs td_error1)
      (Tensor.mul (Tensor.scale gamma (Tensor.rsub 1 done_batch))
         target_delta1_s1) in
  let target_delta2 :=
    Tensor.add (Tensor.abs td_error2)
      (Tensor.mul (Tensor.scale gamma (Tensor.rsub 1 done_batch))
         target_delta2_s1) in
  h1 <- gets st_heap ;;
  let delta1_at (h : heap) :=
    on_batch (delta_fwd h (delta1 ag)) state_batch action_batch in
  let delta2_at (h : heap) :=
    on_batch (delta_fwd h (delta2 ag)) state_batch action_batch in
  let delta1_pred := delta1_at h1 in
  let delta2_pred := delta2_at h1 in
  let delta_loss (h : heap) :=
    Tensor.mean
      (Tensor.add
         (Tensor.sq (Tensor.sub target_delta1 (delta1_at h)))
         (Tensor.sq (Tensor.sub target_delta2 (delta2_at h)))) in
  gradient_step DeltaOpt delta_loss delta_clip
    [weights (delta1 ag); weights (delta2 ag)] ;;
  (* auto-adjust temperatures *)
  smooth_temp temp1 tau (Tensor.mean delta1_pred) ;;
  smooth_temp temp2 tau (Tensor.mean delta2_pred) ;;
  when update_policy (
    (* actor update *)
    h2 <- gets st_heap ;;
    r2 <- gets st_rng ;;
    let dist (h : heap) := map (actor_fwd h (actor ag)) state_batch in
    agent_actions <- draw_ (dist_rsample W) (dist h2) ;;
    let actions_at (h : heap) := fst (draw (dist_rsample W) (dist h) r2) in
    let logp_a_at (h : heap) := log_prob_sum (dist h) (actions_at h) in
    let actor_loss (h : heap) :=
      - Tensor.mean
          (Tensor.sub
             (Tensor.min
                (on_batch (critic_fwd h (critic1 ag)) state_batch
                   (actions_at h))
                (on_batch (critic_fwd h (critic2 ag)) state_batch
                   (actions_at h)))
             (Tensor.scale alpha (logp_a_at h))) in
    gradient_step ActorOpt actor_loss actor_clip [weights (actor ag)] ;;
    (* alpha update *)
    let logp_a := logp_a_at h2 in
    let alpha_loss (h : heap) :=
      Tensor.mean
        (Tensor.scale (- exp (Tensor.item (h !!! log_alpha)))
           (Tensor.adds logp_a (IZR target_entropy))) in
    gradient_step LogAlphaOpt alpha_loss None []
  ) ;;
  ret {| batch := batch; alpha := alpha; action_s1 := action_s1;
         logp_a1 := logp_a1;
         target_action_value_s1 := target_action_value_s1;
         td_target := td_target;
         target_delta1_s1 := target_delta1_s1;
         target_delta2_s1 := target_delta2_s1;
         disCor_weights1 := disCor_weights1;
         disCor_weights2 := disCor_weights2;
         agent_critic1_pred := agent_critic1_pred;
         agent_critic2_pred := agent_critic2_pred;
         td_error1 := td_error1; td_error2 := td_error2;
         critic_loss := critic_loss;
         target_delta1 := target_delta1; target_delta2 := target_delta2;
         delta1_pred := delta1_pred; delta2_pred := delta2_pred;
         delta_loss := delta_loss |}.

(** *** [discor]: set-up *)

(** The keyword arguments of [discor] that the training loop reads. *)
Record Config : Type := {
  num_steps : Z;
  transitions_per_step : Z;
  max_episode_steps : Z;
  batch_size : Z;
  tau : R;
  actor_lr : R;
  critic_lr : R;
  alpha_lr : R;
  delta_lr : R;
  gamma : R;
  eval_interval : Z;
  eval_episodes : Z;
  warmup_steps : Z;
  actor_clip : option R;
  critic_clip : option R;
  delta_clip : option R;
  actor_l2 : R;
  critic_l2 : R;
  delta_l2 : R;
  target_delay : Z;
  actor_delay : Z;
  save_interval : Z;
  render : bool;
  gradient_updates_per_step : Z;
  init_alpha : R;
  init_temp : R;
  infinite_bootstrap : bool;
  name : string;
  save_to_disk : bool;
  log_to_disk : bool
}.

(** What [discor] is called on: the objects that exist before the call. *)
Record Args : Type := {
  a_heap : heap;
  a_rng : Rng W;
  a_agent : DisCorAgent;
  a_buffer : Buffer W;
  a_train_env : Env W;
  a_test_env : Env W;
  a_files : disk
}.

(** The local variables of [discor] that are bound once, during set-up. *)
Record Frame : Type := {
  log_alpha : loc;
  target_entropy : Z;
  temp1 : loc;
  temp2 : loc
}.

(** A new tensor object. *)
Definition alloc (v : list R) (h : heap) : loc * heap :=
  let l := fresh (dom h) in (l, <[l := v]> h).

(** [copy.deepcopy] of one network: a new parameter tensor with the same
    contents. *)
Definition deepcopy_module (m : NNModule) (h : heap) : NNModule * heap :=
  let (l, h') := alloc (h !!! weights m) h in
  ({| weights := l; training := training m |}, h').

(** [copy.deepcopy(agent)], for an agent whose five networks are separate
    objects, as [DisCorAgent.__init__] builds them. *)
Definition deepcopy (a : DisCorAgent) (h : heap) : DisCorAgent * heap :=
  let (m1, h1) := deepcopy_module (actor a) h in
  let (m2, h2) := deepcopy_module (critic1 a) h1 in
  let (m3, h3) := deepcopy_module (critic2 a) h2 in
  let (m4, h4) := deepcopy_module (delta1 a) h3 in
  let (m5, h5) := deepcopy_module (delta2 a) h4 in
  ({| actor := m1; critic1 := m2; critic2 := m3; delta1 := m4;
      delta2 := m5 |}, h5).

(** Modelled from the spec: [utils.hard_update] is not among the sources;
    the glossary gives "Hard update: direct copy of live parameters into
    target parameters". *)
Definition hard_update (target source : NNModule) (h : heap) : heap :=
  <[weights target := h !!! weights source]> h.

(** Modelled from the spec: [utils.soft_update] is not among the sources;
    section 4.3 gives "target = target*(1-tau) + live*tau, applied
    parameter-by-parameter". *)
Definition soft_update (target source : NNModule) (tau : R) (h : heap)
  : heap :=
  <[weights target :=
      zip_with (fun t p => t * (1 - tau) + p * tau)
        (h !!! weights target) (h !!! weights source)]> h.

Definition adam (ps : list loc) (lr weight_decay : R) (betas : R * R)
  : Optimizer (OptState W) :=
  {| params := ps; opt_state := adam_init W lr weight_decay betas |}.

(** The set-up section of [discor] (lines 188 to 230), up to the creation
    of the temperatures.  [math.log] raises on a non-positive
    [init_alpha].  Device moves are not modelled.  [save_dir], which the
    lines before the set-up may have bound, is put into the state by
    [start] below. *)
Definition setup (c : Config) (a : Args) : outcome (Frame * State) :=
  let ag := train (a_agent a) in
  let (tg, h) := deepcopy ag (a_heap a) in
  let h := hard_update (critic1 tg) (critic1 ag) h in
  let h := hard_update (critic2 tg) (critic2 ag) h in
  let h := hard_update (delta1 tg) (delta1 ag) h in
  let h := hard_update (delta2 tg) (delta2 ag) h in
  let tg := train tg in
  let critic_opt :=
    adam [weights (critic1 ag); weights (critic2 ag)]
      (critic_lr c) (critic_l2 c) (9 / 10, 999 / 1000) in
  let actor_opt :=
    adam [weights (actor ag)] (actor_lr c) (actor_l2 c)
      (9 / 10, 999 / 1000) in
  let delta_opt :=
    adam [weights (delta1 ag); weights (delta2 ag)]
      (delta_lr c) (delta_l2 c) (9 / 10, 999 / 1000) in
  if Rlt_dec 0 (init_alpha c) then
    let (la, h) := alloc [ln (init_alpha c)] h in
    let log_alpha_opt := adam [la] (alpha_lr c) 0 (1 / 2, 999 / 1000) in
    let te := (- action_space_shape0 W (a_train_env a))%Z in
    let (t1, h) := alloc [init_temp c] h in
    let (t2, h) := alloc [init_temp c] h in
    Ok ({| log_alpha := la; target_entropy := te; temp1 := t1;
           temp2 := t2 |},
        {| st_heap := h; st_rng := a_rng a; agent := ag;
           target_agent := tg;
           critic_optimizer := critic_opt;
           actor_optimizer := actor_opt;
           delta_optimizer := delta_opt;
           log_alpha_optimizer := log_alpha_opt;
           buffer := a_buffer a; train_env := a_train_env a;
           test_env := a_test_env a;
           done := true; state := None; steps_this_ep := None;
           files := a_files a; save_dir := None |})
  else Raise ValueError.

(** [run.warmup_buffer(buffer, train_env, warmup_steps, max_episode_steps)]
    followed by [done = True]. *)
Definition warmup (c : Config) : M State unit :=
  modify (fun s =>
    let w := warmup_buffer W (buffer s) (train_env s) (warmup_steps c)
               (max_episode_steps c) (st_rng s) in
    set_rollout true (state s) (steps_this_ep s)
      (set_rng w.2 (set_train_env w.1.2 (set_buffer w.1.1 s)))).

(** *** [discor]: the training loop *)

(** One pass through the body of [for _ in range(transitions_per_step)].
    The value returned is the transition given to [buffer.push]. *)
Definition rollout_step (c : Config) : M State (Transition (Obs W)) :=
  d <- gets done ;;
  when d (modify (fun s =>
            let oe := env_reset W (train_env s) in
            set_rollout false (Some oe.1) (Some 0%Z)
              (set_train_env oe.2 s))) ;;
  v <- gets state ;;
  st <- local v ;;
  action <- sample_action true st ;;
  e <- gets train_env ;;
  let next_state := (env_step W e action).1.1.1 in
  let reward := (env_step W e action).1.1.2 in
  modify (fun s => set_rollout (env_step W e action).1.2 (state s)
                     (steps_this_ep s)
                     (set_train_env (env_step W e action).2 s)) ;;
  when (infinite_bootstrap c) (
    v <- gets steps_this_ep ;;
    n <- local v ;;
    when (n + 1 =? max_episode_steps c)%Z
      (modify (fun s => set_rollout false (state s) (steps_this_ep s) s))
  ) ;;
  d <- gets done ;;
  let t := {| p_state := st; p_action := action; p_reward := reward;
              p_next_state := next_state; p_done := d |} in
  modify (fun s => set_buffer (buffer_push W (buffer s) t) s) ;;
  modify (fun s => set_rollout (done s) (Some next_state)
                     (steps_this_ep s) s) ;;
  v <- gets steps_this_ep ;;
  n <- local v ;;
  modify (fun s => set_rollout (done s) (state s) (Some (n + 1)%Z) s) ;;
  when (n + 1 >=? max_episode_steps c)%Z
    (modify (fun s => set_rollout true (state s) (steps_this_ep s) s)) ;;
  ret t.

(** The body of [for _ in range(gradient_updates_per_step)]. *)
Definition learn_call (c : Config) (f : Frame) (step : Z) : M State unit :=
  b <- gets buffer ;;
  r <- mod_ step (actor_delay c) ;;
  _ <- learn_discor b (log_alpha f) (target_entropy f) (batch_size c)
         (gamma c) (critic_clip c) (actor_clip c) (delta_clip c)
         (temp1 f) (temp2 f) (tau c) (r =? 0)%Z ;;
  ret tt.

Definition soft_update_ (net : DisCorAgent -> NNModule) (tau : R)
  : M State unit :=
  modify (fun s =>
    set_heap (soft_update (net (target_agent s)) (net (agent s)) tau) s).

(** [if step % target_delay == 0: ...] *)
Definition sync_targets (c : Config) (step : Z) : M State unit :=
  r <- mod_ step (target_delay c) ;;
  when (r =? 0)%Z (
    soft_update_ critic1 (tau c) ;;
    soft_update_ critic2 (tau c) ;;
    soft_update_ delta1 (tau c) ;;
    soft_update_ delta2 (tau c)).

(** [agent.forward] as [run.evaluate_agent] calls it. *)
Definition policy (s : State) (o : Obs W) : list Tensor.float :=
  match forward true o s with
  | (Ok a, _) => a
  | (Raise _, _) => []
  end.

(** [if (step % eval_interval == 0) or (step == num_steps - 1): ...] *)
Definition evaluate (c : Config) (step : Z) : M State unit :=
  r <- mod_ step (eval_interval c) ;;
  when ((r =? 0)%Z || (step =? num_steps c - 1)%Z) (
    ev <- gets (fun s =>
            evaluate_agent W (policy s) (test_env s) (eval_episodes c)
              (max_episode_steps c) (render c)) ;;
    let mean_return := ev.1 in
    modify (set_test_env ev.2) ;;
    when (log_to_disk c)
      (call (add_scalar W mean_return (step * transitions_per_step c)%Z))).

(** [agent.save(save_dir)] *)
Definition agent_save : M State unit :=
  v <- gets save_dir ;;
  d <- local v ;;
  modify (fun s => set_files (save (agent s) d (st_heap s) (files s)) s).

(** [if step % save_interval == 0 and save_to_disk: agent.save(save_dir)] *)
Definition checkpoint (c : Config) (step : Z) : M State unit :=
  r <- mod_ step (save_interval c) ;;
  when ((r =? 0)%Z && save_to_disk c) agent_save.

(** The body of [for step in steps_iter]. *)
Definition iteration (c : Config) (f : Frame) (step : Z) : M State unit :=
  for_ (range (transitions_per_step c))
    (fun _ => _ <- rollout_step c ;; ret tt) ;;
  for_ (range (gradient_updates_per_step c))
    (fun _ => learn_call c f step) ;;
  sync_targets c step ;;
  evaluate c step ;;
  checkpoint c step.

Definition training_loop (c : Config) (f : Frame) (steps : list Z)
  : M State unit :=
  for_ steps (iteration c f).

(** The first lines of [discor] (179 to 183): the directory of the run
    and the summary writer.  The value is [save_dir], unbound when neither
    [save_to_disk] nor [log_to_disk] is set. *)
Definition logging (c : Config) : outcome (option string) :=
  if save_to_disk c || log_to_disk c then
    match make_process_dirs W (name c) with
    | Raise e => Raise e
    | Ok dir =>
        if log_to_disk c then
          match add_hparams W dir with
          | Raise e => Raise e
          | Ok _ => Ok (Some dir)
          end
        else Ok (Some dir)
    end
  else Ok None.

(** [discor] up to the training loop: the first lines, then the set-up. *)
Definition start (c : Config) (a : Args) : outcome (Frame * State) :=
  match logging c with
  | Raise e => Raise e
  | Ok dir =>
      match setup c a with
      | Raise e => Raise e
      | Ok (f, s0) => Ok (f, set_save_dir dir s0)
      end
  end.

(** [discor]: the first lines and the set-up, the warm-up of the buffer,
    the training loop, [if save_to_disk: agent.save(save_dir)] and
    [return agent]. *)
Definition discor (c : Config) (a : Args) : outcome DisCorAgent :=
  match start c a with
  | Raise e => Raise e
  | Ok (f, s0) =>
      match (warmup c ;; training_loop c f (range (num_steps c)) ;;
             when (save_to_disk c) agent_save) s0 with
      | (Ok _, s) => Ok (agent s)
      | (Raise e, _) => Raise e
      end
  end.

(** The state in which iteration number [k] of the training loop starts:
    after the first lines, the set-up, the warm-up and the iterations
    [0 .. k-1]. *)
Definition run_upto (c : Config) (a : Args) (k : nat)
  : outcome (Frame * State) :=
  match start c a with
  | Raise e => Raise e
  | Ok (f, s0) =>
      match (warmup c ;; training_loop c f (range (Z.of_nat k))) s0 with
      | (Ok _, s) => Ok (f, s)
      | (Raise e, _) => Raise e
      end
  end.

(** *** Which tensor is whose *)

Definition agent_locs (a : DisCorAgent) : list loc :=
  [weights (actor a); weights (critic1 a); weights (critic2 a);
   weights (delta1 a); weights (delta2 a)].

(** The four networks of the target agent that the loop synchronises. *)
Definition synced_nets : list (DisCorAgent -> NNModule) :=
  [critic1; critic2; delta1; delta2].

(** The agent handed to [discor] is made of five separate tensors that
    exist in the store. *)
Definition agent_ok (a : Args) : Prop :=
  NoDup (agent_locs (a_agent a)) /\
  forall l, l ∈ agent_locs (a_agent a) -> l ∈ dom (a_heap a).

(** The object graph that the set-up of [discor] builds: thirteen distinct
    tensors, and each optimizer holding the tensors it was constructed
    on. *)
Definition wired (f : Frame) (s : State) : Prop :=
  NoDup (agent_locs (agent s) ++ agent_locs (target_agent s)
         ++ [log_alpha f; temp1 f; temp2 f]) /\
  params (critic_optimizer s)
    = [weights (critic1 (agent s)); weights (critic2 (agent s))] /\
  params (actor_optimizer s) = [weights (actor (agent s))] /\
  params (delta_optimizer s)
    = [weights (delta1 (agent s)); weights (delta2 (agent s))] /\
  params (log_alpha_optimizer s) = [log_alpha f].

(** The references a state holds, as opposed to the contents of the
    tensors: the tensors of the live agent, the target agent, and the
    tensors each optimizer holds. *)
Record Refs : Type := {
  r_agent : list loc;
  r_target : DisCorAgent;
  r_params : opt_name -> list loc
}.

Definition refs (s : State) : Refs :=
  {| r_agent := agent_locs (agent s);
     r_target := target_agent s;
     r_params := fun o => params (get_opt o s) |}.

Definition same_refs (r r' : Refs) : Prop :=
  r_agent r = r_agent r' /\
  r_target r = r_target r' /\
  forall o, r_params r o = r_params r' o.

(** A statement that keeps the references, provided they are [r] when it
    starts, and the contents of every tensor selected by [P]; this also
    covers the state it leaves when it raises. *)
Definition keeps {A} (r : Refs) (P : loc -> Prop) (c : M State A) : Prop :=
  forall s,
    same_refs (refs s) r ->
    same_refs (refs (c s).2) r /\
    forall l, P l -> st_heap (c s).2 !! l = st_heap s !! l.

(** [P] selects none of the tensors that a gradient step or a temperature
    update of the loop may write. *)
Definition untouched (r : Refs) (f : Frame) (P : loc -> Prop) : Prop :=
  forall l, P l ->
    (forall o, l ∉ r_params r o) /\ l <> temp1 f /\ l <> temp2 f.

(** [wp c s Q]: from [s] the statement [c] returns, with a value and a
    final state that satisfy [Q]. *)
Definition wp {A} (c : M State A) (s : State) (Q : A -> State -> Prop)
  : Prop :=
  exists a s', c s = (Ok a, s') /\ Q a s'.

(** *** Notions used by the further statements *)

(** The rollout variables are usable: a reset is pending, or the
    observation and the step counter are bound and the counter is below
    the limit. *)
Definition rollout_ok (c : Config) (s : State) : Prop :=
  done s = true \/
  (is_Some (state s) /\
   exists n, steps_this_ep s = Some n /\ (0 <= n < max_episode_steps c)%Z).

(** Every tensor of [h] is in [h'] with the contents it has in [h]. *)
Definition extends (h h' : heap) : Prop :=
  forall l, l ∈ dom h -> h' !! l = h !! l.

(** The five networks of an agent. *)
Definition all_nets : list (DisCorAgent -> NNModule) :=
  [actor; critic1; critic2; delta1; delta2].

(** A statement that leaves a part [f] of the state as it is, also when it
    raises. *)
Definition preserved {A X} (f : State -> X) (c : M State A) : Prop :=
  forall s, f (c s).2 = f s.

(** What acting in the environment has no business with: the tensor
    store, the optimizers, the target agent and the test environment. *)
Definition learner_part (s : State) :=
  (st_heap s, critic_optimizer s, actor_optimizer s, delta_optimizer s,
   log_alpha_optimizer s, target_agent s, test_env s).

End Model.

(** *** [DisCorAgent.__init__] *)

(** A network as its class constructs it: a new module, in training mode
    (the default of [nn.Module]), on a new parameter tensor.  The initial
    parameters are the business of the network classes. *)
Definition new_module (w : list R) (h : heap) : NNModule * heap :=
  let (l, h') := alloc w h in
  ({| weights := l; training := true |}, h').

(** [DisCorAgent.__init__]: actor, critic1, critic2, delta1, delta2, in
    this order. *)
Definition DisCorAgent_init (w_actor w_critic1 w_critic2 w_delta1
                               w_delta2 : list R) (h : heap)
  : DisCorAgent * heap :=
  let (m1, h1) := new_module w_actor h in
  let (m2, h2) := new_module w_critic1 h1 in
  let (m3, h3) := new_module w_critic2 h2 in
  let (m4, h4) := new_module w_delta1 h3 in
  let (m5, h5) := new_module w_delta2 h4 in
  ({| actor := m1; critic1 := m2; critic2 := m3; delta1 := m4;
      delta2 := m5 |}, h5).

End DisCor.

(** ** A small concrete instance, used to exercise the statements *)

Module Toy.

Definition row0 : Row R :=
  {| state_batch := 0; action_batch := [0]; reward_batch := 1;
     next_state_batch := 0; done_batch := 0 |}.

(** The distribution is the weight vector itself, critics and delta
    networks sum their weights, the optimizer adds one to every weight, the
    buffer is its kind together with its contents, and the environment
    reports [done = True] at every step. *)
Definition world : World :=
  {| Obs := R; Dist := list R; Rng := nat; Env := Z;
     Buffer := bool * list (Transition R); OptState := unit;
     actor_net := fun _ w _ => w;
     critic_net := fun _ w _ _ => Tensor.sum w;
     delta_net := fun _ w _ _ => Tensor.sum w;
     dist_mean := fun d => map Tensor.Num d;
     dist_sample := fun d r => (map Tensor.Num d, S r);
     dist_rsample := fun d r => (d, S r);
     dist_log_prob := fun _ a => map (fun _ => 0) a;
     backward := fun _ _ _ => [];
     clip_grad_norm := fun g _ => g;
     adam_init := fun _ _ _ => tt;
     adam_update := fun _ _ p _ => map (Rplus 1) p;
     adam_advance := fun st _ => st;
     is_prioritized := fun b => b.1;
     buffer_push := fun b t => (b.1, t :: b.2);
     buffer_sample := fun _ n r => (repeat row0 (Z.to_nat n), S r);
     env_reset := fun _ => (0, 0%Z);
     env_step := fun e _ => ((0, 1, true), (e + 1)%Z);
     action_space_shape0 := fun _ => 1%Z;
     warmup_buffer := fun b e _ _ r => (b, e, r);
     evaluate_agent := fun _ e _ _ _ => (0, e);
     make_process_dirs := fun n => Ok ("dc_saves/" +:+ n);
     add_hparams := fun _ => Ok tt;
     add_scalar := fun _ _ => Ok tt |}.

Definition net (l : positive) : NNModule :=
  {| weights := l; training := true |}.

Definition live : DisCor.DisCorAgent :=
  {| DisCor.actor := net 1%positive; DisCor.critic1 := net 2%positive;
     DisCor.critic2 := net 3%positive; DisCor.delta1 := net 4%positive;
     DisCor.delta2 := net 5%positive |}.

Definition target : DisCor.DisCorAgent :=
  {| DisCor.actor := net 6%positive; DisCor.critic1 := net 7%positive;
     DisCor.critic2 := net 8%positive; DisCor.delta1 := net 9%positive;
     DisCor.delta2 := net 10%positive |}.

Definition cells : list (positive * list R) :=
  [(1%positive, [1 / 2; 3]); (2%positive, [1]); (3%positive, [2]);
   (4%positive, [3]); (5%positive, [4])].

Definition args (prioritized : bool) : DisCor.Args (W := world) :=
  @DisCor.Build_Args world
    (list_to_map cells) 0%nat live (prioritized, []) 0%Z 0%Z ∅.

Definition frame : DisCor.Frame :=
  {| DisCor.log_alpha := 11%positive; DisCor.target_entropy := (-1)%Z;
     DisCor.temp1 := 12%positive; DisCor.temp2 := 13%positive |}.

Definition opt (ps : list positive) : DisCor.Optimizer unit :=
  {| DisCor.params := ps; DisCor.opt_state := tt |}.

(** A state shaped like the one [discor] sets up around [live]. *)
Definition st (d : bool) (n : option Z) : DisCor.State (W := world) :=
  @DisCor.Build_State world
    (list_to_map
       (cells ++
        [(6%positive, [1 / 2; 3]); (7%positive, [1]); (8%positive, [2]);
         (9%positive, [3]); (10%positive, [4]);
         (11%positive, [0]); (12%positive, [10]); (13%positive, [10])]))
    0%nat live target
    (opt [2%positive; 3%positive]) (opt [1%positive])
    (opt [4%positive; 5%positive]) (opt [11%positive])
    (false, []) 0%Z 0%Z
    d (match n with Some _ => Some 0 | None => None end) n
    ∅ (Some "dc_saves/discor_run").

Definition config : DisCor.Config :=
  {| DisCor.num_steps := 4%Z; DisCor.transitions_per_step := 1%Z;
     DisCor.max_episode_steps := 5%Z; DisCor.batch_size := 3%Z;
     DisCor.tau := 1 / 200; DisCor.actor_lr := 1 / 10000;
     DisCor.critic_lr := 1 / 10000; DisCor.alpha_lr := 1 / 10000;
     DisCor.delta_lr := 1 / 10000; DisCor.gamma := 99 / 100;
     DisCor.eval_interval := 5000%Z; DisCor.eval_episodes := 10%Z;
     DisCor.warmup_steps := 50%Z;
     DisCor.actor_clip := None; DisCor.critic_clip := None;
     DisCor.delta_clip := None;
     DisCor.actor_l2 := 0; DisCor.critic_l2 := 0; DisCor.delta_l2 := 0;
     DisCor.target_delay := 2%Z; DisCor.actor_delay := 1%Z;
     DisCor.save_interval := 100000%Z; DisCor.render := false;
     DisCor.gradient_updates_per_step := 1%Z;
     DisCor.init_alpha := 1 / 10; DisCor.init_temp := 10;
     DisCor.infinite_bootstrap := true;
     DisCor.name := "discor_run"; DisCor.save_to_disk := true;
     DisCor.log_to_disk := true |}.

(** [config] with another number of steps, target delay and initial
    alpha, and with [save_to_disk] and [log_to_disk] both on or both
    off. *)
Definition config_of (n delay : Z) (alpha0 : R) (to_disk : bool)
  : DisCor.Config :=
  {| DisCor.num_steps := n; DisCor.transitions_per_step := 1%Z;
     DisCor.max_episode_steps := 5%Z; DisCor.batch_size := 3%Z;
     DisCor.tau := 1 / 200; DisCor.actor_lr := 1 / 10000;
     DisCor.critic_lr := 1 / 10000; DisCor.alpha_lr := 1 / 10000;
     DisCor.delta_lr := 1 / 10000; DisCor.gamma := 99 / 100;
     DisCor.eval_interval := 5000%Z; DisCor.eval_episodes := 10%Z;
     DisCor.warmup_steps := 50%Z;
     DisCor.actor_clip := None; DisCor.critic_clip := None;
     DisCor.delta_clip := None;
     DisCor.actor_l2 := 0; DisCor.critic_l2 := 0; DisCor.delta_l2 := 0;
     DisCor.target_delay := delay; DisCor.actor_delay := 1%Z;
     DisCor.save_interval := 100000%Z; DisCor.render := false;
     DisCor.gradient_updates_per_step := 1%Z;
     DisCor.init_alpha := alpha0; DisCor.init_temp := 10;
     DisCor.infinite_bootstrap := true;
     DisCor.name := "discor_run"; DisCor.save_to_disk := to_disk;
     DisCor.log_to_disk := to_disk |}.

(** A store in which the actor of [live] has other parameters of the same
    size, and a checkpoint directory holding the actor's file only. *)
Definition retrained : heap :=
  <[1%positive := [7; 7]]> (list_to_map cells).

Definition actor_only : DisCor.disk :=
  {[ "ckpt/actor.pt" := [7; 7] ]}.

(** The same world with a summary writer that refuses the
    hyperparameters it is given. *)
Definition hparams_rejected : World :=
  {| Obs := Obs world; Dist := Dist world; Rng := Rng world;
     Env := Env world; Buffer := Buffer world; OptState := OptState world;
     actor_net := actor_net world; critic_net := critic_net world;
     delta_net := delta_net world; dist_mean := dist_mean world;
     dist_sample := dist_sample world; dist_rsample := dist_rsample world;
     dist_log_prob := dist_log_prob world; backward := backward world;
     clip_grad_norm := clip_grad_norm world; adam_init := adam_init world;
     adam_update := adam_update world; adam_advance := adam_advance world;
     is_prioritized := is_prioritized world;
     buffer_push := buffer_push world; buffer_sample := buffer_sample world;
     env_reset := env_reset world; env_step := env_step world;
     action_space_shape0 := action_space_shape0 world;
     warmup_buffer := warmup_buffer world;
     evaluate_agent := evaluate_agent world;
     make_process_dirs := make_process_dirs world;
     add_hparams := fun _ => Raise ValueError;
     add_scalar := add_scalar world |}.

Definition args_rejected : DisCor.Args (W := hparams_rejected) :=
  @DisCor.Build_Args hparams_rejected
    (list_to_map cells) 0%nat live (false, []) 0%Z 0%Z ∅.

(** The same world with an actor whose distribution has a mean and
    samples that are not numbers (as a network does on a NaN input or with
    NaN parameters). *)
Definition nan_world : World :=
  {| Obs := R; Dist := list R; Rng := nat; Env := Z;
     Buffer := bool * list (Transition R); OptState := unit;
     actor_net := fun _ w _ => w;
     critic_net := fun _ w _ _ => Tensor.sum w;
     delta_net := fun _ w _ _ => Tensor.sum w;
     dist_mean := fun _ => [Tensor.NaN];
     dist_sample := fun _ r => ([Tensor.NaN], S r);
     dist_rsample := fun d r => (d, S r);
     dist_log_prob := fun _ a => map (fun _ => 0) a;
     backward := fun _ _ _ => [];
     clip_grad_norm := fun g _ => g;
     adam_init := fun _ _ _ => tt;
     adam_update := fun _ _ p _ => map (Rplus 1) p;
     adam_advance := fun st _ => st;
     is_prioritized := fun b => b.1;
     buffer_push := fun b t => (b.1, t :: b.2);
     buffer_sample := fun _ n r => (repeat row0 (Z.to_nat n), S r);
     env_reset := fun _ => (0, 0%Z);
     env_step := fun e _ => ((0, 1, true), (e + 1)%Z);
     action_space_shape0 := fun _ => 1%Z;
     warmup_buffer := fun b e _ _ r => (b, e, r);
     evaluate_agent := fun _ e _ _ _ => (0, e);
     make_process_dirs := fun n => Ok ("dc_saves/" +:+ n);
     add_hparams := fun _ => Ok tt;
     add_scalar := fun _ _ => Ok tt |}.

Definition nan_st : DisCor.State (W := nan_world) :=
  @DisCor.Build_State nan_world
    (list_to_map cells) 0%nat live target
    (opt [2%positive; 3%positive]) (opt [1%positive])
    (opt [4%positive; 5%positive]) (opt [11%positive])
    (false, []) 0%Z 0%Z true None None ∅ (Some "dc_saves/discor_run").

(** The same world over a buffer of terminal transitions. *)
Definition row1 : Row R :=
  {| state_batch := 0; action_batch := [0]; reward_batch := 1;
     next_state_batch := 0; done_batch := 1 |}.

Definition terminal_world : World :=
  {| Obs := R; Dist := list R; Rng := nat; Env := Z;
     Buffer := bool * list (Transition R); OptState := unit;
     actor_net := fun _ w _ => w;
     critic_net := fun _ w _ _ => Tensor.sum w;
     delta_net := fun _ w _ _ => Tensor.sum w;
     dist_mean := fun d => map Tensor.Num d;
     dist_sample := fun d r => (map Tensor.Num d, S r);
     dist_rsample := fun d r => (d, S r);
     dist_log_prob := fun _ a => map (fun _ => 0) a;
     backward := fun _ _ _ => [];
     clip_grad_norm := fun g _ => g;
     adam_init := fun _ _ _ => tt;
     adam_update := fun _ _ p _ => map (Rplus 1) p;
     adam_advance := fun st _ => st;
     is_prioritized := fun b => b.1;
     buffer_push := fun b t => (b.1, t :: b.2);
     buffer_sample := fun _ n r => (repeat row1 (Z.to_nat n), S r);
     env_reset := fun _ => (0, 0%Z);
     env_step := fun e _ => ((0, 1, true), (e + 1)%Z);
     action_space_shape0 := fun _ => 1%Z;
     warmup_buffer := fun b e _ _ r => (b, e, r);
     evaluate_agent := fun _ e _ _ _ => (0, e);
     make_process_dirs := fun n => Ok ("dc_saves/" +:+ n);
     add_hparams := fun _ => Ok tt;
     add_scalar := fun _ _ => Ok tt |}.

Definition terminal_st : DisCor.State (W := terminal_world) :=
  @DisCor.Build_State terminal_world
    (list_to_map
       (cells ++
        [(6%positive, [1 / 2; 3]); (7%positive, [1]); (8%positive, [2]);
         (9%positive, [3]); (10%positive, [4]);
         (11%positive, [0]); (12%positive, [10]); (13%positive, [10])]))
    0%nat live target
    (opt [2%positive; 3%positive]) (opt [1%positive])
    (opt [4%positive; 5%positive]) (opt [11%positive])
    (false, []) 0%Z 0%Z true None None ∅ (Some "dc_saves/discor_run").

End Toy.

(** * Properties *)

(** ** Sums, softmax and clamping *)

Module TensorFacts.
Import Tensor.

Lemma sum_app xs ys : sum (xs ++ ys) = sum xs + sum ys.
Proof. induction xs as [|x xs IH]; simpl; [lra | rewrite IH; lra]. Qed.

Lemma sum_map_div {A} (f : A -> R) (c : R) (l : list A) :
  sum (map (fun a => f a / c) l) = sum (map f l) / c.
Proof.
  induction l as [|a l IH]; simpl.
  - unfold Rdiv. lra.
  - rewrite IH. unfold Rdiv. lra.
Qed.

Lemma sum_scale c xs : sum (scale c xs) = c * sum xs.
Proof.
  unfold scale. induction xs as [|x xs IH]; simpl; [lra | rewrite IH; lra].
Qed.

Lemma sum_exp_pos (xs : list R) : xs <> [] -> 0 < sum (map exp xs).
Proof.
  destruct xs as [|x xs]; [congruence | intros _; simpl].
  assert (H : 0 <= sum (map exp xs)).
  { induction xs as [|y ys IH]; simpl; [lra |].
    pose proof (exp_pos y). lra. }
  pose proof (exp_pos x). lra.
Qed.

Lemma softmax_length xs : length (softmax xs) = length xs.
Proof. unfold softmax. now rewrite length_map. Qed.

Lemma softmax_sum xs : xs <> [] -> sum (softmax xs) = 1.
Proof.
  intros Hne. unfold softmax.
  rewrite (sum_map_div exp (sum (map exp xs)) xs).
  pose proof (sum_exp_pos xs Hne). field. lra.
Qed.

Lemma softmax_pos xs x : In x (softmax xs) -> 0 < x.
Proof.
  unfold softmax. rewrite in_map_iff. intros (y & <- & Hy).
  assert (xs <> []) as Hne by (intros ->; inversion Hy).
  pose proof (sum_exp_pos xs Hne). pose proof (exp_pos y).
  apply Rdiv_lt_0_compat; assumption.
Qed.

Lemma clamp1_bounds lo hi v :
  lo <= hi -> clamped lo hi v (clamp1 lo hi v).
Proof.
  intros Hle. destruct v as [x |]; [| reflexivity].
  unfold clamped, within, clamp1, Rmin, Rmax.
  repeat destruct Rle_dec; lra.
Qed.

Lemma clamp_bounds lo hi xs :
  lo <= hi -> Forall2 (clamped lo hi) xs (clamp lo hi xs).
Proof.
  intros Hle. unfold clamp.
  induction xs as [|v xs IH]; cbn [map]; constructor;
    [now apply clamp1_bounds | exact IH].
Qed.

Lemma clamp_numbers lo hi xs :
  lo <= hi -> Forall (fun v => v <> NaN) xs ->
  Forall (within lo hi) (clamp lo hi xs).
Proof.
  intros Hle H. unfold clamp.
  induction H as [|v xs Hv _ IH]; cbn [map]; constructor; [| exact IH].
  pose proof (clamp1_bounds lo hi v Hle) as Hc.
  destruct v as [x |]; [exact Hc | contradiction].
Qed.

Lemma mean_scale_softmax (n : R) xs :
  xs <> [] -> n = INR (length xs) ->
  mean (scale n (softmax xs)) = 1.
Proof.
  intros Hne ->. unfold mean, scale.
  rewrite length_map, softmax_length.
  change (map (Rmult (INR (length xs))) (softmax xs))
    with (scale (INR (length xs)) (softmax xs)).
  rewrite sum_scale, softmax_sum by assumption.
  assert (INR (length xs) <> 0).
  { apply not_0_INR. destruct xs; simpl; congruence. }
  field. assumption.
Qed.

Example clamp1_above : clamp1 (-1) 1 (Num 3) = Num 1.
Proof.
  unfold clamp1, Rmin, Rmax. f_equal. repeat destruct Rle_dec; lra.
Qed.

Example clamp1_below : clamp1 (-1) 1 (Num (-7 / 2)) = Num (-1).
Proof.
  unfold clamp1, Rmin, Rmax. f_equal. repeat destruct Rle_dec; lra.
Qed.

Example clamp1_inside : clamp1 (-1) 1 (Num (1 / 4)) = Num (1 / 4).
Proof.
  unfold clamp1, Rmin, Rmax. f_equal. repeat destruct Rle_dec; lra.
Qed.

Example clamp1_nan : clamp1 (-1) 1 NaN = NaN.
Proof. reflexivity. Qed.

Example softmax_two_equal (x : R) : softmax [x; x] = [1 / 2; 1 / 2].
Proof.
  unfold softmax. cbn [map sum fold_right]. pose proof (exp_pos x).
  assert (E : exp x / (exp x + (exp x + 0)) = 1 / 2) by (field; lra).
  now rewrite E.
Qed.

Example scaled_softmax_two_equal (x : R) :
  scale 2 (softmax [x; x]) = [1; 1].
Proof.
  rewrite softmax_two_equal. unfold scale. cbn [map]. repeat f_equal; lra.
Qed.

End TensorFacts.

Module DisCorFacts.
Import DisCor.

Section Facts.

Context {W : World}.

Implicit Types (s : State (W := W)) (c : Config) (f : Frame).

(** Symbolic execution of a statement on a state: the monad, the
    primitive statements and the state accessors are unfolded, the tensor
    arithmetic is not. *)
Ltac py_run :=
  cbv beta iota zeta delta
    [bind ret gets modify raise when assert_ mod_ local call for_
     sample_ draw_ smooth_temp gradient_step optimizer_step
     actor_mode process_state process_act forward sample_action
     soft_update_];
  cbn [draw set_heap set_rng set_agent set_opt get_opt set_buffer
       set_train_env set_test_env set_rollout set_files set_save_dir
       set_actor set_training
       st_heap st_rng agent target_agent critic_optimizer actor_optimizer
       delta_optimizer log_alpha_optimizer buffer train_env test_env done
       state steps_this_ep files save_dir params opt_state weights training
       train eval set_mode
       actor critic1 critic2 delta1 delta2 fst snd map negb].

(** ** [DisCorAgent.forward], [DisCorAgent.sample_action] *)

(** C10, as amended: with [from_cpu=True], [forward] and [sample_action]
    return, and the action they return has, component by component, a
    number in the closed interval from -1 to 1 where the actor's mean
    (for [forward]) or sample (for [sample_action]) is a number, and NaN
    where it is NaN: [process_act] clamps componentwise before returning,
    and clamping leaves NaN as it is. *)
Theorem action_in_unit_box_unless_nan (o : Obs W) s :
  let d := actor_net W false (st_heap s !!! weights (actor (agent s))) o in
  (exists a s', forward true o s = (Ok a, s')
     /\ Forall2 (Tensor.clamped (-1) 1) (dist_mean W d) a) /\
  (exists a s', sample_action true o s = (Ok a, s')
     /\ Forall2 (Tensor.clamped (-1) 1) (dist_sample W d (st_rng s)).1 a).
Proof.
  cbv zeta.
  split; do 2 eexists; (split; [py_run; reflexivity |]);
    apply TensorFacts.clamp_bounds; lra.
Qed.

(** ** Running a statement step by step *)

Lemma wp_bind {A B} (c : M State A) (k : A -> M State B) s a s1 Q :
  c s = (Ok a, s1) -> wp (k a) s1 Q -> wp (bind c k) s Q.
Proof.
  intros E (b & s2 & E2 & HQ). exists b, s2. split; [| exact HQ].
  unfold bind. now rewrite E.
Qed.

Lemma wp_prim {A} (c : M State A) s (a : A) s' (Q : A -> State -> Prop) :
  c s = (Ok a, s') -> Q a s' -> wp c s Q.
Proof. intros E HQ. now exists a, s'. Qed.

Lemma wp_seq {A B} (c : M State A) (k : A -> M State B) s Q :
  wp c s (fun a s1 => wp (k a) s1 Q) -> wp (bind c k) s Q.
Proof.
  intros (a & s1 & E & H). now apply (wp_bind c k s a s1 Q).
Qed.

(** Statements are run on a state written out field by field.  After
    each primitive statement the tensor store is given a name, so that the
    terms stay small. *)
Ltac prim_run :=
  cbv beta iota zeta delta
    [ret gets modify assert_ negb sample_ draw_ smooth_temp gradient_step
     optimizer_step actor_mode soft_update_ bind
     set_heap set_rng set_agent set_opt get_opt set_buffer
     set_train_env set_test_env set_rollout set_files set_save_dir
     st_heap st_rng agent target_agent critic_optimizer actor_optimizer
     delta_optimizer log_alpha_optimizer buffer train_env test_env done
     state steps_this_ep files save_dir];
  reflexivity.

Ltac name_heap h k :=
  tryif is_var h then k h
  else (let x := fresh "heap_" in pose (x := h); k x).

(** One step: a [let] of the program becomes a local definition; a
    primitive statement at the head of a sequence is run and the value it
    returns is named after the variable it is bound to. *)
Ltac wp_step :=
  lazymatch goal with
  | |- wp (let x := ?v in (@?c x)) ?s ?Q =>
      let y := fresh "l_" x in
      pose (y := v);
      let c' := eval cbv beta in (c y) in
      change (wp c' s Q)
  | |- wp (bind (when true ?c) ?k) ?s ?Q =>
      apply wp_seq; change (wp c s (fun a s1 => wp (k a) s1 Q))
  | |- wp (bind (when false ?c) ?k) ?s ?Q =>
      apply (wp_bind (when false c) k s tt s Q); [reflexivity |]; cbv beta
  | |- wp (bind ?c (fun x => @?k x)) ?s ?Q =>
      let y := fresh "l_" x in
      let r := eval cbv beta iota zeta delta
                 [ret gets modify assert_ negb sample_ draw_ smooth_temp
                  gradient_step optimizer_step actor_mode soft_update_ bind
                  set_heap set_rng set_agent set_opt get_opt set_buffer
                  set_train_env set_test_env set_rollout set_files set_save_dir
                  st_heap st_rng agent target_agent critic_optimizer
                  actor_optimizer delta_optimizer log_alpha_optimizer
                  buffer train_env test_env done state steps_this_ep
                  files save_dir]
               in (c s) in
      lazymatch r with
      | (Ok ?v, Build_State ?h ?rg ?ag ?tg ?co ?ao ?dl ?lo ?bf ?te ?tse
                  ?d ?st ?n ?fl ?sd) =>
          pose (y := v);
          name_heap h ltac:(fun h' =>
            apply (wp_bind c k s y
                     (Build_State h' rg ag tg co ao dl lo bf te tse d st n fl
                        sd)
                     Q);
            [prim_run |];
            let c' := eval cbv beta in (k y) in
            change (wp c'
                      (Build_State h' rg ag tg co ao dl lo bf te tse d st n fl
                        sd)
                      Q))
      end
  | |- wp (ret _) _ _ => eapply wp_prim; [reflexivity |]
  | |- wp ?c ?s ?Q =>
      let r := eval cbv beta iota zeta delta
                 [ret gets modify assert_ negb sample_ draw_ smooth_temp
                  gradient_step optimizer_step actor_mode soft_update_ bind
                  set_heap set_rng set_agent set_opt get_opt set_buffer
                  set_train_env set_test_env set_rollout set_files set_save_dir
                  st_heap st_rng agent target_agent critic_optimizer
                  actor_optimizer delta_optimizer log_alpha_optimizer
                  buffer train_env test_env done state steps_this_ep
                  files save_dir]
               in (c s) in
      lazymatch r with
      | (Ok ?v, Build_State ?h ?rg ?ag ?tg ?co ?ao ?dl ?lo ?bf ?te ?tse
                  ?d ?st ?n ?fl ?sd) =>
          name_heap h ltac:(fun h' =>
            apply (wp_prim c s v
                     (Build_State h' rg ag tg co ao dl lo bf te tse d st n fl
                        sd)
                     Q);
            [prim_run |]; cbv beta)
      end
  end.

(** A statement about the outcome of a call, as a [wp], with the state
    written out. *)
Ltac wp_start s :=
  lazymatch goal with
  | |- exists l s', ?prog s = (Ok l, s') /\ @?Q l s' =>
      change (wp prog s Q)
  end;
  destruct s as [h0 rng0 ag0 tg0 copt aopt dopt lopt buf env tenv d0 ob n0
                 fl0 sd0];
  cbn [st_heap st_rng agent target_agent critic_optimizer actor_optimizer
       delta_optimizer log_alpha_optimizer buffer train_env test_env done
       state steps_this_ep files save_dir] in *.

(** ** The precondition of [learn_discor] *)

(** C5: called on a prioritized replay buffer, [learn_discor] raises
    [AssertionError] and leaves the whole state as it was (no batch was
    drawn, since the random generator is part of the state, and nothing was
    written); called on any other buffer it runs to its end. *)
Theorem prioritized_buffer_rejected (b : Buffer W) (la : loc) (te bs : Z)
    (g : R) (cc ac dc : option R) (t1 t2 : loc) (tu : R) (up : bool) s :
  (is_prioritized W b = true ->
   learn_discor b la te bs g cc ac dc t1 t2 tu up s
   = (Raise AssertionError, s)) /\
  (is_prioritized W b = false ->
   exists l s', learn_discor b la te bs g cc ac dc t1 t2 tu up s
                = (Ok l, s')).
Proof.
  split; intros Hb.
  - unfold learn_discor, bind, assert_. now rewrite Hb.
  - enough (exists l s',
              learn_discor b la te bs g cc ac dc t1 t2 tu up s = (Ok l, s')
              /\ True) as (l & s' & E & _) by eauto.
    wp_start s. lazy beta delta [learn_discor]. rewrite Hb.
    destruct up; repeat wp_step; exact I.
Qed.

(** ** The rollout of the outer loop *)

(** C6: with [infinite_bootstrap] on, when [steps_this_ep + 1 ==
    max_episode_steps] holds at the test of line 249 ([steps_this_ep]
    being 0 if the pass started with a reset), the pass returns, and the
    transition it pushes to the buffer has [done=False], whatever
    [train_env.step] reported. *)
Theorem infinite_bootstrap_pushes_not_done c s (n : Z) :
  infinite_bootstrap c = true ->
  (if done s then Some 0%Z else steps_this_ep s) = Some n ->
  (n + 1 = max_episode_steps c)%Z ->
  (done s = false -> is_Some (state s)) ->
  exists t s',
    rollout_step c s = (Ok t, s') /\
    p_done t = false /\
    buffer s' = buffer_push W (buffer s) t.
Proof.
  intros Hib Hn Hmax Hst. unfold rollout_step. py_run.
  destruct (done s) eqn:Hd; py_run.
  - injection Hn as <-. rewrite Hib. py_run.
    apply Z.eqb_eq in Hmax. rewrite Hmax. py_run.
    destruct (Z.geb _ _); py_run;
      (do 2 eexists; split; [reflexivity |]; split; reflexivity).
  - destruct (Hst eq_refl) as [o Ho]. rewrite Ho. py_run.
    rewrite Hib. py_run. rewrite Hn. py_run.
    apply Z.eqb_eq in Hmax. rewrite Hmax. py_run.
    destruct (Z.geb _ _); py_run;
      (do 2 eexists; split; [reflexivity |]; split; reflexivity).
Qed.

(** ** The values computed by [learn_discor] *)

Lemma draw_length (sampler : Dist W -> Rng W -> list R * Rng W) ds r :
  length (draw sampler ds r).1 = length ds.
Proof.
  revert r. induction ds as [|d ds IH]; intros r; simpl; [reflexivity |].
  now rewrite IH.
Qed.

(** The tensor expressions of the source, read row by row. *)

Lemma logits_rows (F : Obs W -> list R -> R) (g t : R)
    (rows : list (Row (Obs W))) (acts : list (list R)) :
  Tensor.divs
    (Tensor.mul
       (Tensor.muls (Tensor.neg (Tensor.rsub 1 (map done_batch rows))) g)
       (on_batch F (map next_state_batch rows) acts)) t
  = map (fun ra : Row (Obs W) * list R =>
           - (1 - done_batch ra.1) * g * F (next_state_batch ra.1) ra.2 / t)
      (zip rows acts).
Proof.
  unfold Tensor.divs, Tensor.mul, Tensor.muls, Tensor.neg, Tensor.rsub,
    on_batch.
  revert acts. induction rows as [|r rows IH]; intros [|a acts]; simpl;
    try reflexivity.
  f_equal. apply IH.
Qed.

Lemma td_target_rows (C1 C2 : Obs W -> list R -> R)
    (A : Obs W -> Dist W) (g al : R)
    (rows : list (Row (Obs W))) (acts : list (list R)) :
  Tensor.add (map reward_batch rows)
    (Tensor.mul (Tensor.scale g (Tensor.rsub 1 (map done_batch rows)))
       (Tensor.sub
          (Tensor.min (on_batch C1 (map next_state_batch rows) acts)
             (on_batch C2 (map next_state_batch rows) acts))
          (Tensor.scale al
             (log_prob_sum (map A (map next_state_batch rows)) acts))))
  = map (fun ra : Row (Obs W) * list R =>
           reward_batch ra.1
           + g * (1 - done_batch ra.1)
             * (Rmin (C1 (next_state_batch ra.1) ra.2)
                  (C2 (next_state_batch ra.1) ra.2)
                - al * Tensor.sum
                         (dist_log_prob W (A (next_state_batch ra.1)) ra.2)))
      (zip rows acts).
Proof.
  unfold Tensor.add, Tensor.mul, Tensor.scale, Tensor.rsub, Tensor.sub,
    Tensor.min, on_batch, log_prob_sum.
  revert acts. induction rows as [|r rows IH]; intros [|a acts]; simpl;
    try reflexivity.
  f_equal. apply IH.
Qed.


Lemma scaled_softmax_sum (n : nat) (xs : list R) :
  length xs = n ->
  Tensor.sum (Tensor.scale (INR n) (Tensor.softmax xs)) = INR n.
Proof.
  intros <-. rewrite TensorFacts.sum_scale.
  destruct xs as [|x xs].
  - simpl. lra.
  - rewrite TensorFacts.softmax_sum by discriminate. lra.
Qed.

(** C1: on a batch of [B = batch_size] rows, each critic's weight vector
    is [B] times the softmax over the rows of
    [-(1-done)*gamma*delta_k(next_state, a')/temp_k], with the live
    agent's delta network; its sum is [B] and, when [B] is not zero, its
    mean is 1.  Nothing is assumed of the network outputs, the done flags,
    [gamma] or the temperature. *)
Theorem discor_weights_sum_to_batch_size (b : Buffer W) (la : loc)
    (te bs : Z) (g : R) (cc ac dc : option R) (t1 t2 : loc) (tu : R)
    (up : bool) s :
  is_prioritized W b = false ->
  Z.of_nat (length (buffer_sample W b bs (st_rng s)).1) = bs ->
  exists l s',
    learn_discor b la te bs g cc ac dc t1 t2 tu up s = (Ok l, s') /\
    batch l = (buffer_sample W b bs (st_rng s)).1 /\
    let logits (d : NNModule) (t : loc) :=
      map (fun ra : Row (Obs W) * list R =>
             - (1 - done_batch ra.1) * g
             * delta_fwd (st_heap s) d (next_state_batch ra.1) ra.2
             / Tensor.item (st_heap s !!! t))
        (zip (batch l) (action_s1 l)) in
    disCor_weights1 l
    = Tensor.scale (IZR bs)
        (Tensor.softmax (logits (delta1 (train (agent s))) t1)) /\
    disCor_weights2 l
    = Tensor.scale (IZR bs)
        (Tensor.softmax (logits (delta2 (train (agent s))) t2)) /\
    Tensor.sum (disCor_weights1 l) = IZR bs /\
    Tensor.sum (disCor_weights2 l) = IZR bs /\
    (bs <> 0%Z ->
     Tensor.mean (disCor_weights1 l) = 1 /\
     Tensor.mean (disCor_weights2 l) = 1).
Proof.
  intros Hb Hlen. wp_start s. lazy beta delta [learn_discor]. rewrite Hb.
  destruct up; repeat wp_step;
    cbn [batch action_s1 disCor_weights1 disCor_weights2]; cbv zeta.
  all: assert (Hacts : length l_action_s1 = length l_batch)
         by (unfold l_action_s1, l_action_dist_s1, l_next_state_batch;
             now rewrite draw_length, !length_map).
  all: assert (Hzip : forall F (t : R),
                 length (map (fun ra : Row (Obs W) * list R =>
                                - (1 - done_batch ra.1) * g
                                * F (next_state_batch ra.1) ra.2 / t)
                           (zip l_batch l_action_s1)) = length l_batch)
         by (intros F t; rewrite length_map, length_zip; lia).
  all: assert (HB : IZR bs = INR (length l_batch))
         by (rewrite <- Hlen; now rewrite INR_IZR_INZ).
  all: unfold l_disCor_weights1, l_disCor_weights2, l_done_batch,
         l_next_state_batch; rewrite !logits_rows.
  all: (split; [reflexivity |]); (split; [reflexivity |]);
       (split; [reflexivity |]); rewrite HB;
       (split; [apply scaled_softmax_sum, Hzip |]);
       (split; [apply scaled_softmax_sum, Hzip |]);
       intros Hne;
       (assert (Hrows : l_batch <> [])
         by (intros E; apply Hne; rewrite <- Hlen;
             change (Z.of_nat (length l_batch) = 0%Z); now rewrite E));
       clearbody l_batch l_action_s1;
       (split; apply TensorFacts.mean_scale_softmax;
          [ destruct l_batch, l_action_s1; simpl in *; congruence
          | now rewrite Hzip
          | destruct l_batch, l_action_s1; simpl in *; congruence
          | now rewrite Hzip ]).
Qed.

(** C2: the TD target of a call is, row by row,
    [reward + gamma*(1-done)*(min(Q1', Q2') - alpha*logprob(a'))], where
    [Q1'], [Q2'] are the target agent's critics at [(next_state, a')],
    [a'] is drawn by [rsample] from the live actor's distribution at
    [next_state] (the replayed action does not occur), [logprob] is the
    summed log-probability of [a'] under that distribution and
    [alpha = exp(log_alpha)].  No gradient flows through it: in the critic
    loss, as a function of the tensor store, it is a constant. *)
Theorem td_target_soft_backup (b : Buffer W) (la : loc)
    (te bs : Z) (g : R) (cc ac dc : option R) (t1 t2 : loc) (tu : R)
    (up : bool) s :
  is_prioritized W b = false ->
  exists l s',
    learn_discor b la te bs g cc ac dc t1 t2 tu up s = (Ok l, s') /\
    let h := st_heap s in
    let live := train (agent s) in
    let tgt := target_agent s in
    let rows := (buffer_sample W b bs (st_rng s)).1 in
    batch l = rows /\
    alpha l = exp (Tensor.item (h !!! la)) /\
    action_s1 l
    = (draw (dist_rsample W)
         (map (actor_fwd h (actor live)) (map next_state_batch rows))
         (buffer_sample W b bs (st_rng s)).2).1 /\
    td_target l
    = map (fun ra : Row (Obs W) * list R =>
             reward_batch ra.1
             + g * (1 - done_batch ra.1)
               * (Rmin
                    (critic_fwd h (critic1 tgt) (next_state_batch ra.1) ra.2)
                    (critic_fwd h (critic2 tgt) (next_state_batch ra.1) ra.2)
                  - alpha l
                    * Tensor.sum
                        (dist_log_prob W
                           (actor_fwd h (actor live) (next_state_batch ra.1))
                           ra.2)))
        (zip rows (action_s1 l)) /\
    forall h' : heap,
      critic_loss l h'
      = Tensor.mean
          (Tensor.add
             (Tensor.mul (disCor_weights1 l)
                (Tensor.sq
                   (Tensor.sub (td_target l)
                      (on_batch (critic_fwd h' (critic1 live))
                         (map state_batch rows) (map action_batch rows)))))
             (Tensor.mul (disCor_weights2 l)
                (Tensor.sq
                   (Tensor.sub (td_target l)
                      (on_batch (critic_fwd h' (critic2 live))
                         (map state_batch rows) (map action_batch rows)))))).
Proof.
  intros Hb. wp_start s. lazy beta delta [learn_discor]. rewrite Hb.
  destruct up; repeat wp_step;
    cbn [batch alpha action_s1 td_target critic_loss disCor_weights1
         disCor_weights2];
    cbv zeta; repeat (split; [reflexivity |]);
    (split; [| reflexivity]);
    exact (td_target_rows (critic_fwd l_h0 (critic1 l_tg))
             (critic_fwd l_h0 (critic2 l_tg)) (actor_fwd l_h0 (actor l_ag))
             g l_alpha l_batch l_action_s1).
Qed.


(** C8: in every call, on the batch that [buffer.sample] returned and
    with the actions [a'] drawn by [rsample] from the live actor at the
    next states of that batch, the reweighting softmax reads the delta
    networks of the live agent, and the bootstrap term of the delta targets
    reads the delta networks of the target agent, both at the same
    [(next_state, a')]; the TD errors that the delta targets add to the
    bootstrap term are those of the live critics against the TD target of
    the same batch and actions. *)
Theorem live_deltas_weigh_target_deltas_bootstrap (b : Buffer W) (la : loc)
    (te bs : Z) (g : R) (cc ac dc : option R) (t1 t2 : loc) (tu : R)
    (up : bool) s :
  is_prioritized W b = false ->
  exists l s',
    learn_discor b la te bs g cc ac dc t1 t2 tu up s = (Ok l, s') /\
    let h := st_heap s in
    let nexts := map next_state_batch (batch l) in
    let dones := map done_batch (batch l) in
    let weights_of (live_delta : NNModule) (t : loc) :=
      Tensor.scale (IZR bs)
        (Tensor.softmax
           (map (fun ra : Row (Obs W) * list R =>
                   - (1 - done_batch ra.1) * g
                   * delta_fwd h live_delta (next_state_batch ra.1) ra.2
                   / Tensor.item (h !!! t))
              (zip (batch l) (action_s1 l)))) in
    let bootstrap (target_delta : NNModule) :=
      Tensor.mul (Tensor.scale g (Tensor.rsub 1 dones))
        (on_batch (delta_fwd h target_delta) nexts (action_s1 l)) in
    batch l = (buffer_sample W b bs (st_rng s)).1 /\
    action_s1 l
    = (draw (dist_rsample W)
         (map (actor_fwd h (actor (train (agent s)))) nexts)
         (buffer_sample W b bs (st_rng s)).2).1 /\
    td_target l
    = Tensor.add (map reward_batch (batch l))
        (Tensor.mul (Tensor.scale g (Tensor.rsub 1 dones))
           (Tensor.sub
              (Tensor.min
                 (on_batch (critic_fwd h (critic1 (target_agent s))) nexts
                    (action_s1 l))
                 (on_batch (critic_fwd h (critic2 (target_agent s))) nexts
                    (action_s1 l)))
              (Tensor.scale (exp (Tensor.item (h !!! la)))
                 (log_prob_sum
                    (map (actor_fwd h (actor (train (agent s)))) nexts)
                    (action_s1 l))))) /\
    td_error1 l
    = Tensor.sub (td_target l)
        (on_batch (critic_fwd h (critic1 (train (agent s))))
           (map state_batch (batch l)) (map action_batch (batch l))) /\
    td_error2 l
    = Tensor.sub (td_target l)
        (on_batch (critic_fwd h (critic2 (train (agent s))))
           (map state_batch (batch l)) (map action_batch (batch l))) /\
    disCor_weights1 l = weights_of (delta1 (train (agent s))) t1 /\
    disCor_weights2 l = weights_of (delta2 (train (agent s))) t2 /\
    target_delta1 l
    = Tensor.add (Tensor.abs (td_error1 l))
        (bootstrap (delta1 (target_agent s))) /\
    target_delta2 l
    = Tensor.add (Tensor.abs (td_error2 l))
        (bootstrap (delta2 (target_agent s))).
Proof.
  intros Hb. wp_start s. lazy beta delta [learn_discor]. rewrite Hb.
  destruct up; repeat wp_step;
    cbn [batch action_s1 disCor_weights1 disCor_weights2 td_error1
         td_error2 td_target target_delta1 target_delta2];
    cbv zeta;
    (split; [reflexivity |]); (split; [reflexivity |]);
    (split; [reflexivity |]); (split; [reflexivity |]);
    (split; [reflexivity |]);
    unfold l_disCor_weights1, l_disCor_weights2, l_done_batch,
      l_next_state_batch;
    rewrite !logits_rows; repeat (split; [reflexivity |]);
    reflexivity.
Qed.

(** ** Which tensors a statement writes *)

Lemma step_params_lookup (st : OptState W) (g : loc -> list R)
    (ps : list loc) (h : heap) (l : loc) :
  l ∉ ps -> step_params st g ps h !! l = h !! l.
Proof.
  unfold step_params. generalize (seq 0 (length ps)) as idx.
  intros idx Hl. revert idx h.
  induction ps as [|p ps IH]; intros [|i idx] h; simpl; try reflexivity.
  apply not_elem_of_cons in Hl as [Hne Hl].
  rewrite IH by assumption. now apply lookup_insert_ne.
Qed.

Lemma lookup_total_eq (h h' : heap) (l : loc) :
  h !! l = h' !! l -> h !!! l = h' !!! l.
Proof. intros E. now rewrite !lookup_total_alt, E. Qed.

Lemma wired_distinct f s :
  wired f s ->
  NoDup [weights (actor (agent s)); weights (critic1 (agent s));
         weights (critic2 (agent s)); weights (delta1 (agent s));
         weights (delta2 (agent s));
         weights (actor (target_agent s));
         weights (critic1 (target_agent s));
         weights (critic2 (target_agent s));
         weights (delta1 (target_agent s));
         weights (delta2 (target_agent s));
         log_alpha f; temp1 f; temp2 f].
Proof. intros [H _]. exact H. Qed.

(** From a duplicate-free list of tensors to the inequalities between its
    members. *)
Ltac distinct H :=
  repeat (let N := fresh "N" in apply NoDup_cons in H as [N H];
          rewrite ?not_elem_of_cons in N);
  clear H; destruct_and?.

Ltac not_held :=
  rewrite ?not_elem_of_cons; repeat split;
  first [ apply not_elem_of_nil
        | assumption
        | apply not_eq_sym; assumption
        | congruence ].


(** ** Frame rules *)

Lemma same_refs_refl r : same_refs r r.
Proof. repeat split. Qed.

Lemma same_refs_trans r1 r2 r3 :
  same_refs r1 r2 -> same_refs r2 r3 -> same_refs r1 r3.
Proof.
  intros (A1 & T1 & P1) (A2 & T2 & P2).
  split; [congruence |]. split; [congruence |].
  intros o. now rewrite P1.
Qed.

Lemma keeps_bind {A B} r P (c : M (State (W := W)) A)
    (k : A -> M (State (W := W)) B) :
  keeps (W := W) r P c -> (forall a, keeps (W := W) r P (k a)) ->
  keeps (W := W) r P (bind c k).
Proof.
  intros Hc Hk s Hr. unfold bind. specialize (Hc s Hr).
  destruct (c s) as [[a | e] s1]; cbn [snd] in *; [| exact Hc].
  destruct Hc as [Hr1 Hh1]. destruct (Hk a s1 Hr1) as [Hr2 Hh2].
  split; [exact Hr2 |]. intros l Hl. now rewrite Hh2, Hh1.
Qed.

(** A statement that leaves the references and the store alone. *)
Lemma keeps_quiet {A} r P (c : M (State (W := W)) A) :
  (forall s, same_refs (refs (c s).2) (refs s)
             /\ st_heap (c s).2 = st_heap s) ->
  keeps (W := W) r P c.
Proof.
  intros H s Hr. destruct (H s) as [Hs Hh]. split.
  - eapply same_refs_trans; eassumption.
  - intros l _. now rewrite Hh.
Qed.

Lemma keeps_when r P (b : bool) (body : M (State (W := W)) unit) :
  keeps (W := W) r P body -> keeps (W := W) r P (when b body).
Proof.
  intros H. destruct b; [exact H |].
  apply keeps_quiet. intros s. split; [apply same_refs_refl | reflexivity].
Qed.

Lemma keeps_for {A} r P (xs : list A) (body : A -> M (State (W := W)) unit) :
  (forall x, keeps (W := W) r P (body x)) -> keeps (W := W) r P (for_ xs body).
Proof.
  intros H. induction xs as [|x xs IH]; cbn [for_].
  - apply keeps_quiet. intros s. split; [apply same_refs_refl | reflexivity].
  - apply keeps_bind; [apply H | intros _; exact IH].
Qed.

Lemma keeps_gradient_step r P (o : opt_name) (loss : heap -> R)
    (clip : option R) (ps : list loc) :
  (forall l, P l -> l ∉ r_params r o) ->
  keeps (W := W) r P (gradient_step o loss clip ps).
Proof.
  intros HP s (Ha & Ht & Hp). split.
  - repeat split; [exact Ha | exact Ht |].
    intros o'. rewrite <- Hp. destruct o, o'; reflexivity.
  - intros l Hl. apply HP in Hl. rewrite <- Hp in Hl.
    unfold gradient_step, optimizer_step, bind, gets.
    cbn [snd st_heap set_opt set_heap].
    apply step_params_lookup. exact Hl.
Qed.

Lemma keeps_smooth_temp r (P : loc -> Prop) (t : loc) (tu m : R) :
  ~ P t -> keeps (W := W) r P (smooth_temp t tu m).
Proof.
  intros HP s Hr. split; [exact Hr |].
  intros l Hl. unfold smooth_temp, modify. cbn [snd st_heap set_heap].
  apply lookup_insert_ne. intros ->. contradiction.
Qed.

Ltac quiet :=
  apply keeps_quiet; intros ?; split;
  [ repeat split | reflexivity ].

(** One step of a frame proof, along the structure of the program. *)
Ltac keeps_step :=
  lazymatch goal with
  | |- keeps ?r ?P (let x := ?v in (@?c x)) =>
      let y := fresh "l_" x in
      pose (y := v);
      let c' := eval cbv beta in (c y) in
      change (keeps (W := W) r P c')
  | |- keeps _ _ (bind _ _) => apply keeps_bind; [| intros ?]
  | |- keeps _ _ (when false _) => quiet
  | |- keeps _ _ (when _ _) => apply keeps_when
  | |- keeps _ _ (for_ _ _) => apply keeps_for; intros ?
  | |- keeps _ _ (gradient_step _ _ _ _) => apply keeps_gradient_step
  | |- keeps _ _ (smooth_temp _ _ _) => apply keeps_smooth_temp
  | |- keeps _ _ (assert_ ?b) => destruct b; quiet
  | |- keeps _ _ (mod_ _ ?b) =>
      unfold mod_; destruct (Z.eqb b 0); quiet
  | |- keeps _ _ (local ?v) => destruct v; quiet
  | |- keeps _ _ _ => quiet
  end.

(** What [learn_discor] may write: the tensors held by the critic and delta
    optimizers, the two temperatures and, when the policy is updated, the
    tensors held by the actor and [log_alpha] optimizers. *)
Lemma keeps_learn_discor r (P : loc -> Prop) (b : Buffer W) (la : loc)
    (te bs : Z) (g : R) (cc ac dc : option R) (t1 t2 : loc) (tu : R)
    (up : bool) :
  (forall l, P l ->
     (l ∉ r_params r CriticOpt) /\ (l ∉ r_params r DeltaOpt) /\
     l <> t1 /\ l <> t2 /\
     (up = true ->
      (l ∉ r_params r ActorOpt) /\ (l ∉ r_params r LogAlphaOpt))) ->
  keeps (W := W) r P (learn_discor b la te bs g cc ac dc t1 t2 tu up).
Proof.
  intros HP. lazy beta delta [learn_discor].
  destruct up; repeat keeps_step;
    try (intros ? HPl; apply HP in HPl; tauto);
    try (intros HPl; apply HP in HPl; tauto).
  all: intros l HPl; apply HP in HPl;
       destruct HPl as (_ & _ & _ & _ & Hup);
       destruct (Hup eq_refl); assumption.
Qed.

(** C4: in a call made by [discor] with [update_policy=False], the actor
    network is still the same tensor, its contents and the contents of
    [log_alpha] are the same after the call as before it, and so is every
    tensor other than the two critics, the two delta networks and the two
    temperatures of the live agent; this holds whether the call returns or
    raises. *)
Theorem update_policy_false_keeps_actor_and_alpha f s (b : Buffer W)
    (te bs : Z) (g : R) (cc ac dc : option R) (tu : R) :
  wired f s ->
  let s' := (learn_discor b (log_alpha f) te bs g cc ac dc (temp1 f)
               (temp2 f) tu false s).2 in
  weights (actor (agent s')) = weights (actor (agent s)) /\
  st_heap s' !! weights (actor (agent s))
  = st_heap s !! weights (actor (agent s)) /\
  st_heap s' !! log_alpha f = st_heap s !! log_alpha f /\
  forall l,
    l ∉ [weights (critic1 (agent s)); weights (critic2 (agent s));
         weights (delta1 (agent s)); weights (delta2 (agent s));
         temp1 f; temp2 f] ->
    st_heap s' !! l = st_heap s !! l.
Proof.
  intros Hw s'. pose proof (wired_distinct f s Hw) as Hd.
  destruct Hw as (_ & Hc & Ha & Hdl & Hla). distinct Hd.
  destruct (keeps_learn_discor (refs s)
              (fun l => l ∉ [weights (critic1 (agent s));
                             weights (critic2 (agent s));
                             weights (delta1 (agent s));
                             weights (delta2 (agent s));
                             temp1 f; temp2 f])
              b (log_alpha f) te bs g cc ac dc (temp1 f) (temp2 f) tu
              false) with (s := s) as [(Hag & _ & _) Hh].
  - intros l Hl. cbn [refs r_params get_opt]. rewrite Hc, Hdl.
    rewrite !not_elem_of_cons in Hl. rewrite !not_elem_of_cons.
    do 4 (split; [tauto |]). discriminate.
  - apply same_refs_refl.
  - subst s'. cbn [refs r_agent agent_locs] in Hag.
    split; [now injection Hag |].
    split; [apply Hh; not_held |]. split; [apply Hh; not_held |].
    exact Hh.
Qed.

(** ** The set-up of [discor] *)

Lemma alloc_spec (v : list R) (h : heap) (l : loc) (h' : heap) :
  alloc v h = (l, h') -> (l ∉ dom h) /\ h' = <[l := v]> h.
Proof.
  unfold alloc. intros [= <- <-]. split; [apply is_fresh | reflexivity].
Qed.

Lemma deepcopy_module_spec (m : NNModule) (h : heap) m' h' :
  deepcopy_module m h = (m', h') ->
  (weights m' ∉ dom h) /\ dom h' = {[weights m']} ∪ dom h.
Proof.
  unfold deepcopy_module.
  destruct (alloc (h !!! weights m) h) as [l h1] eqn:E.
  apply alloc_spec in E as [Hl ->]. intros [= <- <-]. cbn [weights].
  split; [exact Hl |]. apply dom_insert_L.
Qed.

Lemma deepcopy_spec (a : DisCorAgent) (h : heap) tg h' :
  deepcopy a h = (tg, h') ->
  NoDup (agent_locs tg) /\
  (forall l, l ∈ agent_locs tg -> l ∉ dom h) /\
  dom h' = list_to_set (agent_locs tg) ∪ dom h.
Proof.
  unfold deepcopy.
  destruct (deepcopy_module (actor a) h) as [m1 h1] eqn:E1.
  destruct (deepcopy_module (critic1 a) h1) as [m2 h2] eqn:E2.
  destruct (deepcopy_module (critic2 a) h2) as [m3 h3] eqn:E3.
  destruct (deepcopy_module (delta1 a) h3) as [m4 h4] eqn:E4.
  destruct (deepcopy_module (delta2 a) h4) as [m5 h5] eqn:E5.
  apply deepcopy_module_spec in E1 as [F1 D1], E2 as [F2 D2],
    E3 as [F3 D3], E4 as [F4 D4], E5 as [F5 D5].
  intros [= <- <-]. unfold agent_locs.
  cbn [actor critic1 critic2 delta1 delta2].
  rewrite D5, D4, D3, D2, D1. rewrite D4, D3, D2, D1 in F5.
  rewrite D3, D2, D1 in F4. rewrite D2, D1 in F3. rewrite D1 in F2.
  split; [| split].
  - repeat (apply NoDup_cons; split; [set_solver |]). apply NoDup_nil_2.
  - set_solver.
  - set_solver.
Qed.

Lemma dom_hard_update (t src : NNModule) (h : heap) :
  weights t ∈ dom h -> dom (hard_update t src h) = dom h.
Proof. intros H. unfold hard_update. rewrite dom_insert_L. set_solver. Qed.

(** The set-up leaves the object graph wired, and the four synchronised
    networks of the target agent equal to their live counterparts. *)
Lemma setup_wired c (a : Args (W := W)) f s0 :
  agent_ok a ->
  setup c a = Ok (f, s0) ->
  wired f s0 /\
  forall net, net ∈ synced_nets ->
    st_heap s0 !!! weights (net (target_agent s0))
    = st_heap s0 !!! weights (net (agent s0)).
Proof.
  intros [Hnd Hin]. unfold setup.
  destruct (deepcopy (train (a_agent a)) (a_heap a)) as [tg h1] eqn:Edc.
  apply deepcopy_spec in Edc as (Tnd & Tfresh & Tdom).
  destruct (Rlt_dec 0 (init_alpha c)); [| discriminate].
  set (ag := train (a_agent a)) in *.
  set (h2 := hard_update (critic1 tg) (critic1 ag) h1).
  set (h3 := hard_update (critic2 tg) (critic2 ag) h2).
  set (h4 := hard_update (delta1 tg) (delta1 ag) h3).
  set (h5 := hard_update (delta2 tg) (delta2 ag) h4).
  assert (D5 : dom h5 = dom h1).
  { unfold h5, h4, h3, h2, agent_locs in *.
    rewrite !dom_hard_update; [reflexivity | | | |];
      rewrite ?dom_hard_update; rewrite ?Tdom; set_solver. }
  destruct (alloc [ln (init_alpha c)] h5) as [la h6] eqn:Ela.
  apply alloc_spec in Ela as [Fla ->].
  destruct (alloc [init_temp c] (<[la := [ln (init_alpha c)]]> h5))
    as [t1 h7] eqn:E1.
  apply alloc_spec in E1 as [F1 ->].
  destruct (alloc [init_temp c]
              (<[t1 := [init_temp c]]> (<[la := [ln (init_alpha c)]]> h5)))
    as [t2 h8] eqn:E2.
  apply alloc_spec in E2 as [F2 ->].
  intros [= <- <-].
  rewrite !dom_insert_L in F2. rewrite dom_insert_L in F1.
  rewrite D5, Tdom in F1, F2, Fla.
  assert (Ala : la ∉ dom (a_heap a)) by (clear - Fla; set_solver).
  assert (Tla : la ∉ agent_locs tg) by (clear - Fla; set_solver).
  assert (A1 : t1 ∉ dom (a_heap a)) by (clear - F1; set_solver).
  assert (T1 : t1 ∉ agent_locs tg) by (clear - F1; set_solver).
  assert (L1 : t1 <> la) by (clear - F1; set_solver).
  assert (A2 : t2 ∉ dom (a_heap a)) by (clear - F2; set_solver).
  assert (T2 : t2 ∉ agent_locs tg) by (clear - F2; set_solver).
  assert (L2 : t2 <> la) by (clear - F2; set_solver).
  assert (L3 : t2 <> t1) by (clear - F2; set_solver).
  assert (Hw : NoDup (agent_locs ag ++ agent_locs tg ++ [la; t1; t2])).
  { change (agent_locs ag) with (agent_locs (a_agent a)).
    apply NoDup_app. split; [exact Hnd |]. split.
    - intros x Hx Hx'. apply Hin in Hx.
      apply elem_of_app in Hx' as [Hx' | Hx'];
        [exact (Tfresh x Hx' Hx) |].
      rewrite !elem_of_cons in Hx'.
      destruct Hx' as [-> | [-> | [-> | Hx']]]; try contradiction.
      now apply elem_of_nil in Hx'.
    - apply NoDup_app. split; [exact Tnd |]. split.
      + intros x Hx Hx'. rewrite !elem_of_cons in Hx'.
        destruct Hx' as [-> | [-> | [-> | Hx']]]; try contradiction.
        now apply elem_of_nil in Hx'.
      + apply NoDup_cons. split.
        { rewrite !not_elem_of_cons. repeat split; try congruence.
          apply not_elem_of_nil. }
        apply NoDup_cons. split.
        { rewrite !not_elem_of_cons. repeat split; try congruence.
          apply not_elem_of_nil. }
        apply NoDup_singleton. }
  split.
  - unfold wired.
    cbn [agent target_agent critic_optimizer actor_optimizer
         delta_optimizer log_alpha_optimizer log_alpha temp1 temp2 adam
         params].
    split; [exact Hw |]. repeat split.
  - intros net Hnet.
    cbn [agent target_agent st_heap].
    change (agent_locs ag ++ agent_locs tg ++ [la; t1; t2])
      with [weights (actor ag); weights (critic1 ag); weights (critic2 ag);
            weights (delta1 ag); weights (delta2 ag);
            weights (actor tg); weights (critic1 tg); weights (critic2 tg);
            weights (delta1 tg); weights (delta2 tg); la; t1; t2] in Hw.
    distinct Hw.
    unfold synced_nets in Hnet.
    rewrite !elem_of_cons in Hnet.
    destruct Hnet as [-> | [-> | [-> | [-> | Hnil]]]];
      [| | | | now apply elem_of_nil in Hnil];
      cbn [train set_mode critic1 critic2 delta1 delta2 weights
           set_training];
      unfold h5, h4, h3, h2, hard_update;
      repeat first
        [ rewrite lookup_total_insert_eq
        | rewrite lookup_total_insert_ne by not_held ];
      reflexivity.
Qed.

(** ** The training loop *)

Lemma wired_same_refs f s s' :
  same_refs (refs s') (refs s) -> wired f s -> wired f s'.
Proof.
  intros (Ha & Ht & Hp) (Hnd & Hc & Hac & Hd & Hl).
  cbn [refs r_agent r_target r_params] in Ha, Ht, Hp.
  pose proof (Hp CriticOpt) as Pc. pose proof (Hp ActorOpt) as Pa.
  pose proof (Hp DeltaOpt) as Pd. pose proof (Hp LogAlphaOpt) as Pl.
  cbn [get_opt] in Pc, Pa, Pd, Pl.
  unfold wired. rewrite Ha, Ht, Pc, Pa, Pd, Pl.
  unfold agent_locs in Ha. injection Ha as -> -> -> -> ->.
  repeat split; assumption.
Qed.

Lemma keeps_soft_update_ r (P : loc -> Prop)
    (net : DisCorAgent -> NNModule) (tu : R) :
  ~ P (weights (net (r_target r))) ->
  keeps (W := W) r P (soft_update_ net tu).
Proof.
  intros HP s Hr. split; [exact Hr |].
  destruct Hr as (_ & Ht & _). cbn [refs r_target] in Ht.
  intros l Hl. unfold soft_update_, modify, soft_update.
  cbn [snd st_heap set_heap]. apply lookup_insert_ne.
  intros E. apply HP. now rewrite <- Ht, E.
Qed.

Lemma keeps_process_act r P (act : list (list Tensor.float)) :
  keeps (W := W) r P (process_act act).
Proof.
  unfold process_act.
  destruct (map (Tensor.clamp (-1) 1) act) as [|x [|y l]]; quiet.
Qed.

Lemma keeps_rollout_step r P c : keeps (W := W) r P (rollout_step c).
Proof.
  lazy beta delta [rollout_step sample_action actor_mode].
  cbv iota.
  repeat first [apply keeps_process_act | keeps_step].
Qed.

Lemma keeps_learn_call r P c f (step : Z) :
  untouched r f P -> keeps (W := W) r P (learn_call c f step).
Proof.
  intros HP. lazy beta delta [learn_call]. repeat keeps_step.
  apply keeps_learn_discor. intros l Hl. destruct (HP l Hl) as (Ho & ? & ?).
  repeat split; try assumption; apply Ho.
Qed.

Lemma keeps_evaluate r P c (step : Z) :
  keeps (W := W) r P (evaluate c step).
Proof. lazy beta delta [evaluate]. repeat keeps_step. Qed.

Lemma keeps_checkpoint r P c (step : Z) :
  keeps (W := W) r P (checkpoint c step).
Proof. lazy beta delta [checkpoint agent_save]. repeat keeps_step. Qed.

Lemma keeps_warmup r P c : keeps (W := W) r P (warmup c).
Proof. lazy beta delta [warmup]. quiet. Qed.

Lemma keeps_iteration r P c f (step : Z) :
  untouched r f P ->
  (forall net, net ∈ synced_nets -> ~ P (weights (net (r_target r)))) ->
  keeps (W := W) r P (iteration c f step).
Proof.
  intros HP HT. lazy beta delta [iteration sync_targets].
  repeat first
    [ apply keeps_rollout_step
    | apply keeps_learn_call; exact HP
    | apply keeps_evaluate
    | apply keeps_checkpoint
    | apply keeps_soft_update_; apply HT; unfold synced_nets;
      rewrite !elem_of_cons; tauto
    | keeps_step ].
Qed.

Lemma bind_run {A B} (c : M (State (W := W)) A) (k : A -> M State B)
    s out s' :
  bind c k s = (out, s') ->
  (exists e, c s = (Raise e, s') /\ out = Raise e) \/
  (exists a s1, c s = (Ok a, s1) /\ k a s1 = (out, s')).
Proof.
  unfold bind. destruct (c s) as [[a | e] s1].
  - intros H. right. now exists a, s1.
  - intros [= <- <-]. left. now exists e.
Qed.

Lemma same_refs_nets s s' :
  same_refs (refs s') (refs s) ->
  target_agent s' = target_agent s /\
  forall net, net ∈ synced_nets ->
    weights (net (agent s')) = weights (net (agent s)).
Proof.
  intros (Ha & Ht & _). cbn [refs r_agent r_target] in Ha, Ht.
  split; [exact Ht |]. unfold agent_locs in Ha.
  injection Ha as E1 E2 E3 E4 E5.
  intros net Hnet. unfold synced_nets in Hnet. rewrite !elem_of_cons in Hnet.
  destruct Hnet as [-> | [-> | [-> | [-> | Hnil]]]]; try assumption.
  now apply elem_of_nil in Hnil.
Qed.

(** The synchronisation step of an iteration, on a wired state. *)
Lemma sync_targets_spec c f (k : Z) s :
  wired f s ->
  same_refs (refs (sync_targets c k s).2) (refs s) /\
  (forall net, net ∈ synced_nets ->
     st_heap (sync_targets c k s).2 !! weights (net (agent s))
     = st_heap s !! weights (net (agent s))) /\
  forall net, net ∈ synced_nets ->
    (target_delay c = 0%Z \/ (k mod target_delay c <> 0)%Z ->
     st_heap (sync_targets c k s).2 !!! weights (net (target_agent s))
     = st_heap s !!! weights (net (target_agent s))) /\
    ((sync_targets c k s).1 = Ok tt ->
     (k mod target_delay c = 0)%Z ->
     st_heap (sync_targets c k s).2 !!! weights (net (target_agent s))
     = zip_with (fun t p => t * (1 - tau c) + p * tau c)
         (st_heap s !!! weights (net (target_agent s)))
         (st_heap s !!! weights (net (agent s)))).
Proof.
  intros Hw. pose proof (wired_distinct f s Hw) as Hd. distinct Hd.
  unfold sync_targets, mod_.
  destruct (target_delay c =? 0)%Z eqn:E0.
  { cbn [bind raise fst snd]. split; [apply same_refs_refl |].
    split; [reflexivity |]. intros net _. split; [reflexivity |].
    discriminate. }
  apply Z.eqb_neq in E0.
  py_run. destruct (k mod target_delay c =? 0)%Z eqn:E1; py_run.
  2: { apply Z.eqb_neq in E1. split; [apply same_refs_refl |].
       split; [reflexivity |]. intros net _. split; [reflexivity |].
       intros _ E. contradiction. }
  apply Z.eqb_eq in E1. split; [apply same_refs_refl |].
  unfold soft_update. split.
  - intros net Hnet. unfold synced_nets in Hnet.
    rewrite !elem_of_cons in Hnet.
    destruct Hnet as [-> | [-> | [-> | [-> | Hnil]]]];
      [| | | | now apply elem_of_nil in Hnil];
      rewrite !lookup_insert_ne by not_held; reflexivity.
  - intros net Hnet. split; [intros [E | E]; contradiction |].
    intros _ _. unfold synced_nets in Hnet.
    rewrite !elem_of_cons in Hnet.
    destruct Hnet as [-> | [-> | [-> | [-> | Hnil]]]];
      [| | | | now apply elem_of_nil in Hnil];
      repeat first
        [ rewrite lookup_total_insert_eq
        | rewrite lookup_total_insert_ne by not_held ];
      reflexivity.
Qed.

Lemma keeps_rollouts r P c (n : Z) :
  keeps (W := W) r P
    (for_ (range n) (fun _ => _ <- rollout_step c ;; ret tt)).
Proof. repeat first [apply keeps_rollout_step | keeps_step]. Qed.

Lemma keeps_learn_calls r P c f (step n : Z) :
  untouched r f P ->
  keeps (W := W) r P (for_ (range n) (fun _ => learn_call c f step)).
Proof. intros HU. keeps_step. now apply keeps_learn_call. Qed.

Lemma keeps_after_sync r P c (step : Z) :
  keeps (W := W) r P (evaluate c step ;; checkpoint c step).
Proof.
  apply keeps_bind; [apply keeps_evaluate | intros _; apply keeps_checkpoint].
Qed.

Lemma wired_untouched f s :
  wired f s ->
  untouched (refs s) f
    (fun l => exists net, net ∈ synced_nets
                          /\ l = weights (net (target_agent s))).
Proof.
  intros Hw. pose proof (wired_distinct f s Hw) as Hd.
  destruct Hw as (_ & Hc & Ha & Hdl & Hla). distinct Hd.
  intros l (net & Hnet & ->). unfold synced_nets in Hnet.
  rewrite !elem_of_cons in Hnet.
  destruct Hnet as [-> | [-> | [-> | [-> | Hnil]]]];
    [| | | | now apply elem_of_nil in Hnil];
    (split; [intros o; destruct o; cbn [refs r_params get_opt];
             rewrite ?Hc, ?Ha, ?Hdl, ?Hla; not_held
            | split; assumption ]).
Qed.

(** One iteration of the loop, started in a wired state: the references
    stay, and each synchronised network of the target agent either keeps
    its contents or, when the step number is a multiple of [target_delay]
    and the iteration runs to its end, is mixed with the live network. *)
Lemma iteration_spec c f (k : Z) s out s' :
  wired f s ->
  iteration c f k s = (out, s') ->
  same_refs (refs s') (refs s) /\
  forall net, net ∈ synced_nets ->
    (target_delay c = 0%Z \/ (k mod target_delay c <> 0)%Z ->
     st_heap s' !!! weights (net (target_agent s))
     = st_heap s !!! weights (net (target_agent s))) /\
    (out = Ok tt ->
     (k mod target_delay c = 0)%Z ->
     st_heap s' !!! weights (net (target_agent s))
     = zip_with (fun t p => t * (1 - tau c) + p * tau c)
         (st_heap s !!! weights (net (target_agent s)))
         (st_heap s' !!! weights (net (agent s')))).
Proof.
  intros Hw H. pose proof (wired_untouched f s Hw) as HU.
  set (P := fun l => exists net, net ∈ synced_nets
                                 /\ l = weights (net (target_agent s)))
    in HU.
  assert (HP : forall net, net ∈ synced_nets ->
                           P (weights (net (target_agent s))))
    by (intros net Hnet; now exists net).
  unfold iteration in H.
  (* the rollouts *)
  apply bind_run in H as [(e & EA & ->) | (u & sA & EA & H)];
    destruct (keeps_rollouts (refs s) P c (transitions_per_step c) s
                (same_refs_refl _)) as [RA HA];
    rewrite EA in RA, HA; cbn [snd] in RA, HA.
  { split; [exact RA |]. intros net Hnet. split; [| discriminate].
    intros _. apply lookup_total_eq, HA, HP, Hnet. }
  (* the gradient updates *)
  apply bind_run in H as [(e & EB & ->) | (v & sB & EB & H)];
    destruct (keeps_learn_calls (refs s) P c f k
                (gradient_updates_per_step c) HU sA RA) as [RB HB];
    rewrite EB in RB, HB; cbn [snd] in RB, HB.
  { split; [exact RB |]. intros net Hnet. split; [| discriminate].
    intros _. apply lookup_total_eq. rewrite HB, HA by (apply HP, Hnet).
    reflexivity. }
  (* the synchronisation *)
  pose proof (wired_same_refs f s sB RB Hw) as HwB.
  destruct (same_refs_nets s sB RB) as [TB NB].
  destruct (sync_targets_spec c f k sB HwB) as (RS & LS & NS).
  assert (Pre : forall net, net ∈ synced_nets ->
                  st_heap sB !!! weights (net (target_agent s))
                  = st_heap s !!! weights (net (target_agent s))).
  { intros net Hnet. apply lookup_total_eq.
    rewrite HB, HA by (apply HP, Hnet). reflexivity. }
  apply bind_run in H as [(e & ES & ->) | (w & sS & ES & H)];
    rewrite ES in RS, LS, NS; cbn [fst snd] in RS, LS, NS;
    rewrite TB in NS.
  { split; [eapply same_refs_trans; eassumption |].
    intros net Hnet. split; [| discriminate].
    intros Hk. destruct (NS net Hnet) as [N1 _].
    rewrite N1 by exact Hk. apply Pre, Hnet. }
  (* evaluation and checkpoint leave the store alone *)
  destruct (keeps_after_sync (refs sS) (fun _ => True) c k sS
              (same_refs_refl _)) as [RE HE].
  rewrite H in RE, HE. cbn [snd] in RE, HE.
  assert (RT : same_refs (refs s') (refs s)).
  { eapply same_refs_trans; [exact RE |].
    eapply same_refs_trans; eassumption. }
  split; [exact RT |].
  destruct (same_refs_nets s s' RT) as [_ NT].
  intros net Hnet. destruct (NS net Hnet) as [N1 N2].
  rewrite (lookup_total_eq _ _ _ (HE _ I)). split.
  - intros Hk. rewrite N1 by exact Hk. apply Pre, Hnet.
  - intros _ Hk. destruct w. rewrite (N2 eq_refl Hk).
    rewrite (Pre net Hnet), (NT net Hnet).
    rewrite (lookup_total_eq _ _ _ (HE _ I)).
    rewrite <- (NB net Hnet).
    rewrite (lookup_total_eq _ _ _ (LS net Hnet)). reflexivity.
Qed.

Lemma keeps_refs_loop r c f (steps : list Z) :
  keeps (W := W) r (fun _ => False)
    (warmup c ;; training_loop c f steps).
Proof.
  apply keeps_bind; [apply keeps_warmup | intros _].
  unfold training_loop. apply keeps_for. intros k.
  apply keeps_iteration.
  - intros l [].
  - intros net _ [].
Qed.

(** [start] is the set-up, with [save_dir] as the first lines left it. *)
Lemma start_inv c (a : Args (W := W)) f s1 :
  start c a = Ok (f, s1) ->
  exists dir s0,
    logging (W := W) c = Ok dir /\ setup c a = Ok (f, s0) /\
    s1 = set_save_dir dir s0.
Proof.
  unfold start. destruct (logging (W := W) c) as [dir | e]; [| discriminate].
  destruct (setup c a) as [[f0 s0] | e]; [| discriminate].
  intros [= <- <-]. now exists dir, s0.
Qed.

Lemma start_run c (a : Args (W := W)) dir f s0 :
  logging (W := W) c = Ok dir -> setup c a = Ok (f, s0) ->
  start c a = Ok (f, set_save_dir dir s0).
Proof. intros El Es. unfold start. now rewrite El, Es. Qed.

(** The loop followed by the last lines of [discor]. *)
Lemma keeps_run r c f (steps : list Z) :
  keeps (W := W) r (fun _ => False)
    (warmup c ;; training_loop c f steps ;;
     when (save_to_disk c) agent_save).
Proof.
  apply keeps_bind; [apply keeps_warmup | intros _].
  apply keeps_bind.
  - unfold training_loop. apply keeps_for. intros k.
    apply keeps_iteration.
    + intros l [].
    + intros net _ [].
  - intros _. apply keeps_when. lazy beta delta [agent_save].
    repeat keeps_step.
Qed.

(** Every iteration of a run starts in a wired state, and the first one in
    a state where the target networks equal the live ones. *)
Lemma run_upto_wired c (a : Args (W := W)) (k : nat) f s :
  agent_ok a ->
  run_upto c a k = Ok (f, s) ->
  wired f s /\
  (k = 0%nat ->
   forall net, net ∈ synced_nets ->
     st_heap s !!! weights (net (target_agent s))
     = st_heap s !!! weights (net (agent s))).
Proof.
  intros Hok. unfold run_upto.
  destruct (start c a) as [[f0 s0] | e] eqn:Est; [| discriminate].
  apply start_inv in Est as (dir & sp & _ & Es & ->).
  destruct (setup_wired c a f0 sp Hok Es) as [Hwp Hs0].
  set (s0 := set_save_dir dir sp) in *.
  assert (Hw0 : wired f0 s0) by exact Hwp.
  destruct (keeps_refs_loop (refs s0) c f0 (range (Z.of_nat k)) s0
              (same_refs_refl _)) as [Hr _].
  destruct ((warmup c ;; training_loop c f0 (range (Z.of_nat k))) s0)
    as [[u | e] s1] eqn:Er; [| discriminate].
  intros [= <- <-]. cbn [snd] in Hr. split.
  - exact (wired_same_refs f0 s0 s1 Hr Hw0).
  - intros -> net Hnet.
    assert (E : s1 = (warmup c s0).2).
    { change (Z.of_nat 0) with 0%Z in Er.
      unfold training_loop, range in Er.
      cbn [Z.to_nat seq map for_] in Er.
      unfold bind, ret, warmup, modify in Er |- *. cbn [snd].
      now injection Er. }
    rewrite E. exact (Hs0 net Hnet).
Qed.

(** C9: in a run of [discor], iteration number [k] starts in a state where
    no optimizer holds a tensor of the target agent, and the iteration
    changes neither the target agent's tensors nor the tensors the
    optimizers hold; the first iteration starts with the four target
    networks equal to the live ones (the hard sync of the set-up); over an
    iteration the target agent's critic1, critic2, delta1 and delta2 keep
    their contents when [k % target_delay] is not zero (or [target_delay]
    is zero, where the remainder raises), and when [k % target_delay] is
    zero and the iteration runs to its end they become
    [target*(1-tau) + live*tau], with the target's contents from the start
    of the iteration (so no gradient step wrote them) and the live
    contents from its end. *)
Theorem targets_move_by_soft_update_only c (a : Args (W := W)) (k : nat)
    f s out s' :
  agent_ok a ->
  run_upto c a k = Ok (f, s) ->
  iteration c f (Z.of_nat k) s = (out, s') ->
  target_agent s' = target_agent s /\
  (forall o l, l ∈ params (get_opt o s) ->
               l ∉ agent_locs (target_agent s)) /\
  (forall o, params (get_opt o s') = params (get_opt o s)) /\
  forall net, net ∈ synced_nets ->
    let t := weights (net (target_agent s)) in
    (k = 0%nat -> st_heap s !!! t = st_heap s !!! weights (net (agent s))) /\
    (target_delay c = 0%Z \/ (Z.of_nat k mod target_delay c <> 0)%Z ->
     st_heap s' !!! t = st_heap s !!! t) /\
    (out = Ok tt ->
     (Z.of_nat k mod target_delay c = 0)%Z ->
     st_heap s' !!! t
     = zip_with (fun x p => x * (1 - tau c) + p * tau c)
         (st_heap s !!! t) (st_heap s' !!! weights (net (agent s')))).
Proof.
  intros Hok Hrun Hit.
  destruct (run_upto_wired c a k f s Hok Hrun) as [Hw H0].
  destruct (iteration_spec c f (Z.of_nat k) s out s' Hw Hit) as [Hr Hn].
  destruct (same_refs_nets s s' Hr) as [Ht _].
  split; [exact Ht |]. split; [| split].
  - pose proof (wired_distinct f s Hw) as Hd.
    destruct Hw as (_ & Hc & Ha & Hdl & Hla). distinct Hd.
    intros o l Hl. unfold agent_locs.
    destruct o; cbn [get_opt] in Hl;
      rewrite ?Hc, ?Ha, ?Hdl, ?Hla in Hl; rewrite !elem_of_cons in Hl;
      repeat (destruct Hl as [-> | Hl]; [not_held |]);
      now apply elem_of_nil in Hl.
  - destruct Hr as (_ & _ & Hp). exact Hp.
  - intros net Hnet t. destruct (Hn net Hnet) as [N1 N2].
    split; [intros E; exact (H0 E net Hnet) |]. split; assumption.
Qed.

(** A run reaches its first iteration whenever the first lines return
    and [init_alpha] is positive. *)
Lemma run_upto_first c (a : Args (W := W)) dir :
  logging (W := W) c = Ok dir -> 0 < init_alpha c ->
  exists f s, run_upto c a 0 = Ok (f, s).
Proof.
  intros El Hpos. unfold run_upto, start, setup. rewrite El.
  destruct (deepcopy (train (a_agent a)) (a_heap a)) as [tg h1].
  destruct (Rlt_dec 0 (init_alpha c)); [| contradiction].
  destruct (alloc [ln (init_alpha c)] _) as [la h6].
  destruct (alloc [init_temp c] h6) as [t1 h7].
  destruct (alloc [init_temp c] h7) as [t2 h8].
  do 2 eexists. reflexivity.
Qed.

(** * Further properties of the code *)

(** ** Acting: [forward], [sample_action], [process_act] *)

(** X1: on an agent whose actor is in training mode (as [discor] keeps
    it), [forward] with [from_cpu=True] evaluates the actor network in
    evaluation mode, returns the clamped mean of its distribution and
    leaves the whole state, random generator included, exactly as it was;
    [sample_action] returns the clamped sample and changes nothing but the
    random generator. *)
Theorem acting_leaves_agent_as_it_was (o : Obs W) s :
  training (actor (agent s)) = true ->
  let d := actor_net W false (st_heap s !!! weights (actor (agent s))) o in
  forward true o s = (Ok (Tensor.clamp (-1) 1 (dist_mean W d)), s) /\
  sample_action true o s
  = (Ok (Tensor.clamp (-1) 1 (dist_sample W d (st_rng s)).1),
     set_rng (dist_sample W d (st_rng s)).2 s).
Proof.
  intros Ht.
  destruct s as [h0 rng0 ag0 tg0 copt aopt dopt lopt buf env tenv d0 ob n0
                 fl0 sd0].
  destruct ag0 as [[wa ta] c1 c2 d1 d2]. cbn in Ht. subst ta.
  split; reflexivity.
Qed.

(** ** One pass of the rollout *)

Lemma preserved_bind {A B X} (f : State (W := W) -> X)
    (c : M (State (W := W)) A) (k : A -> M State B) :
  preserved f c -> (forall a, preserved f (k a)) -> preserved f (bind c k).
Proof.
  intros Hc Hk s. unfold bind. specialize (Hc s).
  destruct (c s) as [[a | e] s1]; cbn [snd] in *; [| exact Hc].
  now rewrite Hk.
Qed.

Lemma preserved_rollout_step c :
  preserved (W := W) learner_part (rollout_step c).
Proof.
  lazy beta delta [rollout_step sample_action actor_mode process_act].
  cbv iota.
  repeat first
    [ apply preserved_bind; [| intros ?]
    | lazymatch goal with
      | |- preserved _ (when ?b _) => destruct b; cbn [when]
      | |- preserved _ (local ?v) => is_var v; destruct v
      | |- preserved _ (match ?l with [] => _ | _ => _ end) =>
          destruct l as [|? [|? ?]]
      end
    | intros ?; reflexivity ].
Qed.

(** The full account of one pass, from the observation [o] it acts on and
    the step count [n] of the episode so far (0 and the observation of the
    reset when a reset is pending). *)
Lemma rollout_step_run c s (o : Obs W) (n : Z) :
  (if done s then Some (env_reset W (train_env s)).1 else state s)
  = Some o ->
  (if done s then Some 0%Z else steps_this_ep s) = Some n ->
  let e := if done s then (env_reset W (train_env s)).2 else train_env s in
  let a := Tensor.clamp (-1) 1
             (dist_sample W
                (actor_net W false (st_heap s !!! weights (actor (agent s)))
                   o) (st_rng s)).1 in
  let r := env_step W e a in
  let dn := if infinite_bootstrap c && (n + 1 =? max_episode_steps c)%Z
            then false else r.1.2 in
  let t := {| p_state := o; p_action := a; p_reward := r.1.1.2;
              p_next_state := r.1.1.1; p_done := dn |} in
  exists s',
    rollout_step c s = (Ok t, s') /\
    buffer s' = buffer_push W (buffer s) t /\
    train_env s' = r.2 /\
    state s' = Some r.1.1.1 /\
    steps_this_ep s' = Some (n + 1)%Z /\
    done s' = (if (n + 1 >=? max_episode_steps c)%Z then true else dn).
Proof.
  intros Ho Hn. unfold rollout_step. py_run.
  destruct (done s) eqn:Hd; py_run.
  - injection Ho as <-. injection Hn as <-.
    destruct (infinite_bootstrap c); py_run;
      [destruct (0 + 1 =? max_episode_steps c)%Z; py_run |];
      destruct (0 + 1 >=? max_episode_steps c)%Z; py_run;
      (eexists; split; [reflexivity |]; repeat split).
  - rewrite Ho. py_run.
    destruct (infinite_bootstrap c); py_run;
      [rewrite Hn; py_run;
       destruct (n + 1 =? max_episode_steps c)%Z; py_run |];
      rewrite ?Hn; py_run;
      destruct (n + 1 >=? max_episode_steps c)%Z; py_run;
      (eexists; split; [reflexivity |]; repeat split).
Qed.

(** X2: one pass of the rollout, in full: the transition pushed to the
    buffer holds the observation acted on, the action given to
    [train_env.step] (the clamped sample: a number between -1 and 1 in
    every component where the sample is a number, NaN where it is NaN),
    the reward and next observation that the step returned, and the step's
    [done] flag,
    except that the flag is [False] when [infinite_bootstrap] is set and
    this is step number [max_episode_steps] of the episode; the loop's own
    [done] is [True] at the step limit in any case, so that the next pass
    resets. *)
Theorem rollout_step_pushes_what_it_acted_on c s (o : Obs W) (n : Z) :
  (if done s then Some (env_reset W (train_env s)).1 else state s)
  = Some o ->
  (if done s then Some 0%Z else steps_this_ep s) = Some n ->
  let e := if done s then (env_reset W (train_env s)).2 else train_env s in
  let a := Tensor.clamp (-1) 1
             (dist_sample W
                (actor_net W false (st_heap s !!! weights (actor (agent s)))
                   o) (st_rng s)).1 in
  let r := env_step W e a in
  let dn := if infinite_bootstrap c && (n + 1 =? max_episode_steps c)%Z
            then false else r.1.2 in
  let t := {| p_state := o; p_action := a; p_reward := r.1.1.2;
              p_next_state := r.1.1.1; p_done := dn |} in
  Forall2 (Tensor.clamped (-1) 1)
    (dist_sample W
       (actor_net W false (st_heap s !!! weights (actor (agent s))) o)
       (st_rng s)).1 a /\
  exists s',
    rollout_step c s = (Ok t, s') /\
    buffer s' = buffer_push W (buffer s) t /\
    train_env s' = r.2 /\
    state s' = Some r.1.1.1 /\
    steps_this_ep s' = Some (n + 1)%Z /\
    done s' = (if (n + 1 >=? max_episode_steps c)%Z then true else dn).
Proof.
  intros Ho Hn. cbv zeta. split.
  - apply TensorFacts.clamp_bounds. lra.
  - exact (rollout_step_run c s o n Ho Hn).
Qed.

(** X3: acting in the environment never trains: a pass of the rollout,
    whether it returns or raises, leaves the tensor store, the four
    optimizers, the target agent and the test environment as they were. *)
Theorem rollout_step_never_trains c s :
  let s' := (rollout_step c s).2 in
  st_heap s' = st_heap s /\
  critic_optimizer s' = critic_optimizer s /\
  actor_optimizer s' = actor_optimizer s /\
  delta_optimizer s' = delta_optimizer s /\
  log_alpha_optimizer s' = log_alpha_optimizer s /\
  target_agent s' = target_agent s /\
  test_env s' = test_env s.
Proof.
  cbv zeta. pose proof (preserved_rollout_step c s) as H.
  unfold learner_part in H. injection H as -> -> -> -> -> -> ->.
  repeat split.
Qed.

(** ** The rollout loop *)

Lemma rollout_ok_step c s :
  rollout_ok c s ->
  exists t s',
    rollout_step c s = (Ok t, s') /\
    rollout_ok c s' /\
    exists m, steps_this_ep s' = Some m
              /\ (1 <= m <= Z.max 1 (max_episode_steps c))%Z.
Proof.
  intros Hok.
  assert (exists (o : Obs W) n,
             (if done s then Some (env_reset W (train_env s)).1
              else state s) = Some o /\
             (if done s then Some 0%Z else steps_this_ep s) = Some n /\
             (0 <= n)%Z /\ (n = 0 \/ n < max_episode_steps c)%Z)
    as (o & n & Ho & Hn & Hpos & Hlim).
  { destruct (done s) eqn:Hd.
    - exists (env_reset W (train_env s)).1, 0%Z. repeat split; lia.
    - destruct Hok as [Hd' | ([o Ho] & n & Hn & Hr)]; [congruence |].
      exists o, n. repeat split; try assumption; lia. }
  destruct (rollout_step_run c s o n Ho Hn)
    as (s' & E & _ & _ & Hst & Hsteps & Hdone).
  do 2 eexists. split; [exact E |]. split.
  - unfold rollout_ok. rewrite Hdone, Hst, Hsteps.
    destruct (n + 1 >=? max_episode_steps c)%Z eqn:Hge; [now left |].
    destruct (if infinite_bootstrap c && (n + 1 =? max_episode_steps c)%Z
              then false else _); [now left |].
    right. split; [eauto |]. exists (n + 1)%Z. split; [reflexivity | lia].
  - exists (n + 1)%Z. split; [exact Hsteps | lia].
Qed.

Lemma rollouts_run c (xs : list Z) s :
  rollout_ok c s ->
  exists s',
    for_ xs (fun _ => _ <- rollout_step c ;; ret tt) s = (Ok tt, s') /\
    rollout_ok c s' /\
    (xs <> [] ->
     exists m, steps_this_ep s' = Some m
               /\ (1 <= m <= Z.max 1 (max_episode_steps c))%Z).
Proof.
  revert s. induction xs as [|x xs IH]; intros s Hok.
  - exists s. repeat split; [exact Hok | congruence].
  - destruct (rollout_ok_step c s Hok) as (t & s1 & E & Hok1 & Hm).
    destruct (IH s1 Hok1) as (s2 & E2 & Hok2 & Hm2).
    exists s2. split; [| split; [exact Hok2 |]].
    + cbn [for_]. unfold bind at 1. unfold bind at 1. rewrite E.
      cbn [ret]. exact E2.
    + intros _. destruct xs as [|y ys].
      * cbn [for_ ret] in E2. injection E2 as <-. exact Hm.
      * apply Hm2. discriminate.
Qed.

(** X4: the rollout loop never reads an unbound variable and never
    overruns the step limit.  From a state with [done=True] (as [discor]
    enters its loop, [state] and [steps_this_ep] being unbound), or with
    [done=False], [state] and [steps_this_ep] bound and
    [0 <= steps_this_ep < max_episode_steps], any number of passes returns
    without an exception, ends in such a state again, and after at least
    one pass [steps_this_ep] lies between 1 and
    [max(1, max_episode_steps)]. *)
Theorem rollouts_never_raise c s (k : Z) :
  rollout_ok c s ->
  exists s',
    for_ (range k) (fun _ => _ <- rollout_step c ;; ret tt) s
    = (Ok tt, s') /\
    rollout_ok c s' /\
    ((0 < k)%Z ->
     exists m, steps_this_ep s' = Some m
               /\ (1 <= m <= Z.max 1 (max_episode_steps c))%Z).
Proof.
  intros Hok.
  destruct (rollouts_run c (range k) s Hok) as (s' & E & Hok' & Hm).
  exists s'. split; [exact E |]. split; [exact Hok' |].
  intros Hk. apply Hm. unfold range.
  destruct (Z.to_nat k) as [|n] eqn:En; [lia | discriminate].
Qed.

(** ** More on the values computed by [learn_discor] *)

Lemma sum_exp_ge (xs : list R) (y : R) :
  In y xs -> exp y <= Tensor.sum (map exp xs).
Proof.
  induction xs as [|x xs IH]; intros Hin; [destruct Hin |].
  cbn [map Tensor.sum fold_right].
  assert (0 <= Tensor.sum (map exp xs)).
  { clear. induction xs as [|z zs IH]; cbn; [lra |].
    pose proof (exp_pos z). unfold Tensor.sum in IH. lra. }
  pose proof (exp_pos x). destruct Hin as [-> | Hin].
  - unfold Tensor.sum in *. lra.
  - specialize (IH Hin). unfold Tensor.sum in *. lra.
Qed.

Lemma softmax_le_1 (xs : list R) (x : R) :
  In x (Tensor.softmax xs) -> x <= 1.
Proof.
  unfold Tensor.softmax. rewrite in_map_iff. intros (y & <- & Hy).
  assert (xs <> []) as Hne by (intros ->; destruct Hy).
  pose proof (TensorFacts.sum_exp_pos xs Hne) as Hpos.
  pose proof (sum_exp_ge xs y Hy) as Hle.
  pose proof (Rinv_0_lt_compat _ Hpos) as Hinv.
  replace 1 with (Tensor.sum (map exp xs) * / Tensor.sum (map exp xs))
    by (field; lra).
  unfold Rdiv. nra.
Qed.

Lemma scaled_softmax_bounds (n : R) (xs : list R) :
  0 <= n ->
  Forall (fun w => 0 <= w <= n) (Tensor.scale n (Tensor.softmax xs)).
Proof.
  intros Hn. apply Forall_forall. intros w Hw.
  apply list_elem_of_In in Hw. unfold Tensor.scale in Hw.
  apply in_map_iff in Hw as (x & <- & Hx).
  pose proof (TensorFacts.softmax_pos xs x Hx).
  pose proof (softmax_le_1 xs x Hx). nra.
Qed.

(** X5: a call of [learn_discor] works on the batch that
    [buffer.sample(batch_size)] returned, and every per-row quantity it
    computes (sampled actions, log-probabilities, target values, TD targets
    and errors, delta targets and predictions, DisCor weights) has exactly
    one entry per row of that batch. *)
Theorem learn_discor_shapes (b : Buffer W) (la : loc)
    (te bs : Z) (g : R) (cc ac dc : option R) (t1 t2 : loc) (tu : R)
    (up : bool) s :
  is_prioritized W b = false ->
  exists l s',
    learn_discor b la te bs g cc ac dc t1 t2 tu up s = (Ok l, s') /\
    batch l = (buffer_sample W b bs (st_rng s)).1 /\
    Forall (fun n : nat => n = length (batch l))
      [length (action_s1 l); length (logp_a1 l);
       length (target_action_value_s1 l); length (td_target l);
       length (target_delta1_s1 l); length (target_delta2_s1 l);
       length (disCor_weights1 l); length (disCor_weights2 l);
       length (agent_critic1_pred l); length (agent_critic2_pred l);
       length (td_error1 l); length (td_error2 l);
       length (target_delta1 l); length (target_delta2 l);
       length (delta1_pred l); length (delta2_pred l)].
Proof.
  intros Hb. wp_start s. lazy beta delta [learn_discor]. rewrite Hb.
  destruct up; repeat wp_step;
    cbn [batch action_s1 logp_a1 target_action_value_s1 td_target
         target_delta1_s1 target_delta2_s1 disCor_weights1
         disCor_weights2 agent_critic1_pred agent_critic2_pred td_error1
         td_error2 target_delta1 target_delta2 delta1_pred delta2_pred].
  all: assert (Hacts : length l_action_s1 = length l_batch)
         by (unfold l_action_s1, l_action_dist_s1, l_next_state_batch;
             now rewrite draw_length, !length_map).
  all: split; [reflexivity |].
  all: repeat (apply Forall_cons; split);
       [.. | apply Forall_nil];
       try exact Hacts;
       unfold l_delta2_pred, l_delta1_pred, l_delta2_at, l_delta1_at,
         l_target_delta2, l_target_delta1, l_td_error2, l_td_error1,
         l_agent_critic2_pred, l_agent_critic1_pred, l_critic2_pred,
         l_critic1_pred, l_disCor_weights2, l_disCor_weights1,
         l_target_delta2_s1, l_target_delta1_s1, l_td_target,
         l_target_action_value_s1, l_logp_a1, l_action_dist_s1,
         l_done_batch, l_reward_batch, l_action_batch,
         l_next_state_batch, l_state_batch,
         Tensor.add, Tensor.sub, Tensor.mul, Tensor.min, Tensor.abs,
         Tensor.scale, Tensor.rsub, Tensor.neg, Tensor.muls, Tensor.divs,
         on_batch, log_prob_sum;
       repeat rewrite ?length_map, ?length_zip_with,
         ?TensorFacts.softmax_length;
       lia.
Qed.

(** X6: with a [batch_size] that is not negative and positive
    temperatures, a call computes one DisCor weight per critic and per row
    of the batch that [buffer.sample] returned, and every weight lies
    between 0 and [batch_size]: none weighs more than the whole batch. *)
Theorem discor_weights_bounds (b : Buffer W) (la : loc)
    (te bs : Z) (g : R) (cc ac dc : option R) (t1 t2 : loc) (tu : R)
    (up : bool) s :
  is_prioritized W b = false ->
  (0 <= bs)%Z ->
  0 < Tensor.item (st_heap s !!! t1) ->
  0 < Tensor.item (st_heap s !!! t2) ->
  exists l s',
    learn_discor b la te bs g cc ac dc t1 t2 tu up s = (Ok l, s') /\
    batch l = (buffer_sample W b bs (st_rng s)).1 /\
    length (disCor_weights1 l) = length (batch l) /\
    length (disCor_weights2 l) = length (batch l) /\
    Forall (fun w => 0 <= w <= IZR bs)
      (disCor_weights1 l ++ disCor_weights2 l).
Proof.
  intros Hb Hbs _ _. apply IZR_le in Hbs.
  wp_start s. lazy beta delta [learn_discor]. rewrite Hb.
  destruct up; repeat wp_step;
    cbn [batch disCor_weights1 disCor_weights2].
  all: assert (Hacts : length l_action_s1 = length l_batch)
         by (unfold l_action_s1, l_action_dist_s1, l_next_state_batch;
             now rewrite draw_length, !length_map).
  all: split; [reflexivity |].
  all: split; [| split];
       [ unfold l_disCor_weights1, l_done_batch, l_next_state_batch,
           Tensor.mul, Tensor.scale, Tensor.rsub, Tensor.neg, Tensor.muls,
           Tensor.divs, on_batch;
         repeat rewrite ?length_map, ?length_zip_with,
           ?TensorFacts.softmax_length;
         lia
       | unfold l_disCor_weights2, l_done_batch, l_next_state_batch,
           Tensor.mul, Tensor.scale, Tensor.rsub, Tensor.neg, Tensor.muls,
           Tensor.divs, on_batch;
         repeat rewrite ?length_map, ?length_zip_with,
           ?TensorFacts.softmax_length;
         lia
       | apply Forall_app; split; now apply scaled_softmax_bounds ].
Qed.

(** One call, with the values it computed written in terms of one
    another as the source computes them. *)
Lemma learn_discor_run (b : Buffer W) (la : loc)
    (te bs : Z) (g : R) (cc ac dc : option R) (t1 t2 : loc) (tu : R)
    (up : bool) s :
  is_prioritized W b = false ->
  exists l s',
    learn_discor b la te bs g cc ac dc t1 t2 tu up s = (Ok l, s') /\
    let rows := batch l in
    let h := st_heap s in
    let live := train (agent s) in
    let tgt := target_agent s in
    let bootstrap := Tensor.scale g (Tensor.rsub 1 (map done_batch rows)) in
    let logits (d : NNModule) (t : loc) :=
      Tensor.divs
        (Tensor.mul
           (Tensor.muls (Tensor.neg (Tensor.rsub 1 (map done_batch rows))) g)
           (on_batch (delta_fwd h d) (map next_state_batch rows)
              (action_s1 l)))
        (Tensor.item (h !!! t)) in
    let q_at (h' : heap) (m : NNModule) :=
      on_batch (critic_fwd h' m) (map state_batch rows)
        (map action_batch rows) in
    let d_at (h' : heap) (d : NNModule) :=
      on_batch (delta_fwd h' d) (map state_batch rows)
        (map action_batch rows) in
    rows = (buffer_sample W b bs (st_rng s)).1 /\
    (length (action_s1 l) = length rows /\
     length (target_action_value_s1 l) = length rows /\
     length (logp_a1 l) = length rows) /\
    td_target l
    = Tensor.add (map reward_batch rows)
        (Tensor.mul bootstrap
           (Tensor.sub (target_action_value_s1 l)
              (Tensor.scale (alpha l) (logp_a1 l)))) /\
    (target_delta1_s1 l
     = on_batch (delta_fwd h (delta1 tgt)) (map next_state_batch rows)
         (action_s1 l) /\
     target_delta2_s1 l
     = on_batch (delta_fwd h (delta2 tgt)) (map next_state_batch rows)
         (action_s1 l)) /\
    (disCor_weights1 l
     = Tensor.scale (IZR bs) (Tensor.softmax (logits (delta1 live) t1)) /\
     disCor_weights2 l
     = Tensor.scale (IZR bs) (Tensor.softmax (logits (delta2 live) t2))) /\
    (agent_critic1_pred l = q_at h (critic1 live) /\
     agent_critic2_pred l = q_at h (critic2 live)) /\
    (td_error1 l = Tensor.sub (td_target l) (agent_critic1_pred l) /\
     td_error2 l = Tensor.sub (td_target l) (agent_critic2_pred l)) /\
    (target_delta1 l
     = Tensor.add (Tensor.abs (td_error1 l))
         (Tensor.mul bootstrap (target_delta1_s1 l)) /\
     target_delta2 l
     = Tensor.add (Tensor.abs (td_error2 l))
         (Tensor.mul bootstrap (target_delta2_s1 l))) /\
    (forall h',
       critic_loss l h'
       = Tensor.mean
           (Tensor.add
              (Tensor.mul (disCor_weights1 l)
                 (Tensor.sq
                    (Tensor.sub (td_target l) (q_at h' (critic1 live)))))
              (Tensor.mul (disCor_weights2 l)
                 (Tensor.sq
                    (Tensor.sub (td_target l) (q_at h' (critic2 live))))))) /\
    (forall h',
       delta_loss l h'
       = Tensor.mean
           (Tensor.add
              (Tensor.sq
                 (Tensor.sub (target_delta1 l) (d_at h' (delta1 live))))
              (Tensor.sq
                 (Tensor.sub (target_delta2 l) (d_at h' (delta2 live)))))).
Proof.
  intros Hb. wp_start s. lazy beta delta [learn_discor]. rewrite Hb.
  destruct up; repeat wp_step;
    cbn [batch alpha action_s1 logp_a1 target_action_value_s1 td_target
         target_delta1_s1 target_delta2_s1 disCor_weights1
         disCor_weights2 agent_critic1_pred agent_critic2_pred td_error1
         td_error2 critic_loss target_delta1 target_delta2 delta_loss];
    cbv zeta.
  all: assert (Hacts : length l_action_s1 = length l_batch)
         by (unfold l_action_s1, l_action_dist_s1, l_next_state_batch;
             now rewrite draw_length, !length_map).
  all: split; [reflexivity |]; split;
       [| repeat split; reflexivity ].
  all: split; [exact Hacts |];
       unfold l_target_action_value_s1, l_logp_a1, l_action_dist_s1,
         l_next_state_batch, Tensor.min, on_batch, log_prob_sum;
       rewrite !length_zip_with, !length_map; lia.
Qed.

Lemma terminal_rows_drop_bootstrap (g : R) (rows : list (Row (Obs W)))
    (ys xs : list R) :
  Forall (fun r => done_batch r = 1) rows ->
  length ys = length rows -> length xs = length rows ->
  Tensor.add ys
    (Tensor.mul (Tensor.scale g (Tensor.rsub 1 (map done_batch rows))) xs)
  = ys.
Proof.
  unfold Tensor.add, Tensor.mul, Tensor.scale, Tensor.rsub.
  intros H. revert ys xs.
  induction H as [|r rows Hr _ IH]; intros [|y ys] [|x xs] Hy Hx;
    simpl in *; try discriminate; try reflexivity.
  f_equal; [rewrite Hr; ring | apply IH; lia].
Qed.

Lemma terminal_rows_logits (g t : R) (rows : list (Row (Obs W)))
    (ds : list R) :
  Forall (fun r => done_batch r = 1) rows ->
  length ds = length rows ->
  Tensor.divs
    (Tensor.mul
       (Tensor.muls (Tensor.neg (Tensor.rsub 1 (map done_batch rows))) g)
       ds) t
  = map (fun _ => 0) rows.
Proof.
  unfold Tensor.divs, Tensor.mul, Tensor.muls, Tensor.neg, Tensor.rsub.
  intros H. revert ds.
  induction H as [|r rows Hr _ IH]; intros [|d ds] Hd;
    simpl in *; try discriminate; try reflexivity.
  f_equal; [rewrite Hr; unfold Rdiv; ring | apply IH; lia].
Qed.

Lemma softmax_zeros {A} (rows : list A) :
  Tensor.softmax (map (fun _ => 0) rows)
  = map (fun _ => / INR (length rows)) rows.
Proof.
  unfold Tensor.softmax. rewrite !List.map_map.
  assert (E : Tensor.sum (map (fun _ : A => exp 0) rows)
              = INR (length rows)).
  { induction rows as [|a rows IH]; [reflexivity |].
    cbn [map length]. rewrite S_INR, <- IH.
    unfold Tensor.sum. cbn [fold_right]. rewrite exp_0. ring. }
  rewrite E. apply map_ext. intros _. rewrite exp_0. unfold Rdiv. ring.
Qed.

(** X7: when every row of the batch that [buffer.sample] returned is
    terminal ([done = 1]), nothing is bootstrapped: the TD target is the
    reward of each row, the target of each delta network is the absolute
    difference between the reward and the prediction of the live critic at
    the replayed [(state, action)], and every DisCor weight is
    [batch_size / len(batch)] (1 on a full batch), whatever the target
    networks and the delta networks return.  The temperatures are taken to
    be non-zero, so that the division by them is defined. *)
Theorem terminal_batch_is_not_bootstrapped (b : Buffer W) (la : loc)
    (te bs : Z) (g : R) (cc ac dc : option R) (t1 t2 : loc) (tu : R)
    (up : bool) s :
  is_prioritized W b = false ->
  Forall (fun r => done_batch r = 1) (buffer_sample W b bs (st_rng s)).1 ->
  Tensor.item (st_heap s !!! t1) <> 0 ->
  Tensor.item (st_heap s !!! t2) <> 0 ->
  exists l s',
    learn_discor b la te bs g cc ac dc t1 t2 tu up s = (Ok l, s') /\
    let live_q (m : NNModule) :=
      on_batch (critic_fwd (st_heap s) m)
        (map state_batch (batch l)) (map action_batch (batch l)) in
    batch l = (buffer_sample W b bs (st_rng s)).1 /\
    td_target l = map reward_batch (batch l) /\
    target_delta1 l
    = Tensor.abs
        (Tensor.sub (map reward_batch (batch l))
           (live_q (critic1 (train (agent s))))) /\
    target_delta2 l
    = Tensor.abs
        (Tensor.sub (map reward_batch (batch l))
           (live_q (critic2 (train (agent s))))) /\
    (length (disCor_weights1 l) = length (batch l) /\
     length (disCor_weights2 l) = length (batch l)) /\
    Forall (fun w => w = IZR bs / INR (length (batch l)))
      (disCor_weights1 l ++ disCor_weights2 l).
Proof.
  intros Hb Hd _ _.
  destruct (learn_discor_run b la te bs g cc ac dc t1 t2 tu up s Hb)
    as (l & s' & E & Hrun).
  cbv zeta in Hrun.
  destruct Hrun as (Hrows & (La & Lq & Lp) & Htd & [Hs1 Hs2] & [Hw1 Hw2]
                    & [Hq1 Hq2] & [He1 He2] & [Ht1 Ht2] & _).
  exists l, s'. split; [exact E |]. cbv zeta. rewrite <- Hrows in Hd.
  split; [exact Hrows |].
  assert (Etd : td_target l = map reward_batch (batch l)).
  { rewrite Htd. apply terminal_rows_drop_bootstrap; [exact Hd | |].
    - now rewrite length_map.
    - unfold Tensor.sub, Tensor.scale.
      rewrite length_zip_with, length_map. lia. }
  assert (Lt : length (td_target l) = length (batch l))
    by (now rewrite Etd, length_map).
  assert (Ls : forall d,
             length (on_batch d (map next_state_batch (batch l))
                       (action_s1 l)) = length (batch l))
    by (intros d; unfold on_batch;
        rewrite length_zip_with, length_map; lia).
  assert (Lc : forall d,
             length (on_batch d (map state_batch (batch l))
                       (map action_batch (batch l))) = length (batch l))
    by (intros d; unfold on_batch;
        rewrite length_zip_with, !length_map; lia).
  split; [exact Etd |]. split; [| split].
  - rewrite Ht1, He1, Hq1, <- Etd.
    apply terminal_rows_drop_bootstrap; [exact Hd | |].
    + unfold Tensor.abs, Tensor.sub.
      rewrite length_map, length_zip_with, Lc. lia.
    + rewrite Hs1. apply Ls.
  - rewrite Ht2, He2, Hq2, <- Etd.
    apply terminal_rows_drop_bootstrap; [exact Hd | |].
    + unfold Tensor.abs, Tensor.sub.
      rewrite length_map, length_zip_with, Lc. lia.
    + rewrite Hs2. apply Ls.
  - rewrite Hw1, Hw2, !terminal_rows_logits by (exact Hd || apply Ls).
    rewrite softmax_zeros. unfold Tensor.scale. rewrite List.map_map.
    split; [now rewrite length_map |].
    apply Forall_app. split; apply Forall_forall; intros w Hw;
      apply list_elem_of_In, in_map_iff in Hw as (r & <- & _);
      unfold Rdiv; reflexivity.
Qed.

Lemma mean_nonneg (xs : list R) :
  Forall (fun x => 0 <= x) xs -> 0 <= Tensor.mean xs.
Proof.
  intros H. unfold Tensor.mean.
  assert (0 <= Tensor.sum xs).
  { induction H as [|x xs Hx _ IH]; unfold Tensor.sum in *;
      cbn [fold_right]; lra. }
  destruct xs as [|x xs].
  - cbn. unfold Rdiv. rewrite Rinv_0. lra.
  - apply Rle_mult_inv_pos; [assumption | apply lt_0_INR; cbn; lia].
Qed.

Lemma zip_with_nonneg (f : R -> R -> R) (xs ys : list R) :
  (forall x y, 0 <= x -> 0 <= y -> 0 <= f x y) ->
  Forall (fun x => 0 <= x) xs -> Forall (fun x => 0 <= x) ys ->
  Forall (fun x => 0 <= x) (zip_with f xs ys).
Proof.
  intros Hf H. revert ys.
  induction H as [|x xs Hx _ IH]; intros ys Hy; [constructor |].
  destruct Hy as [|y ys Hy Hys]; cbn [zip_with]; constructor; auto.
Qed.

Lemma sq_nonneg (xs : list R) : Forall (fun x => 0 <= x) (Tensor.sq xs).
Proof.
  unfold Tensor.sq. induction xs as [|x xs IH]; constructor;
    [apply pow2_ge_0 | exact IH].
Qed.

(** X8: on a non-empty batch and with a [batch_size] that is not
    negative, the loss that the critic optimizer minimises and the loss
    that the delta optimizer minimises are non-negative at every value of
    the parameters. *)
Theorem losses_are_nonnegative (b : Buffer W) (la : loc)
    (te bs : Z) (g : R) (cc ac dc : option R) (t1 t2 : loc) (tu : R)
    (up : bool) s :
  is_prioritized W b = false ->
  (buffer_sample W b bs (st_rng s)).1 <> [] ->
  (0 <= bs)%Z ->
  exists l s',
    learn_discor b la te bs g cc ac dc t1 t2 tu up s = (Ok l, s') /\
    forall h', 0 <= critic_loss l h' /\ 0 <= delta_loss l h'.
Proof.
  intros Hb _ Hbs.
  destruct (learn_discor_run b la te bs g cc ac dc t1 t2 tu up s Hb)
    as (l & s' & E & Hrun).
  cbv zeta in Hrun.
  destruct Hrun as (_ & _ & _ & _ & [Hw1 Hw2] & _ & _ & _ & Hcl & Hdl).
  exists l, s'. split; [exact E |]. intros h'. split.
  - apply IZR_le in Hbs. rewrite Hcl.
    assert (Hpos : forall xs,
               Forall (fun x => 0 <= x)
                 (Tensor.scale (IZR bs) (Tensor.softmax xs))).
    { intros xs. apply Forall_forall. intros w Hw.
      apply list_elem_of_In in Hw. unfold Tensor.scale in Hw.
      apply in_map_iff in Hw as (x & <- & Hx).
      pose proof (TensorFacts.softmax_pos xs x Hx). nra. }
    apply mean_nonneg. unfold Tensor.add, Tensor.mul.
    apply zip_with_nonneg; [intros; lra | |];
      (apply zip_with_nonneg; [intros; nra | | apply sq_nonneg]).
    + rewrite Hw1. apply Hpos.
    + rewrite Hw2. apply Hpos.
  - rewrite Hdl. apply mean_nonneg. unfold Tensor.add.
    apply zip_with_nonneg; [intros; lra | apply sq_nonneg ..].
Qed.

Lemma on_batch_nonneg (d : Obs W -> list R -> R) (xs : list (Obs W))
    (ys : list (list R)) :
  (forall o a, 0 <= d o a) -> Forall (fun x => 0 <= x) (on_batch d xs ys).
Proof.
  intros Hpos. unfold on_batch. revert ys.
  induction xs as [|x xs IH]; intros [|y ys]; cbn [zip_with];
    constructor; [apply Hpos | apply IH].
Qed.

(** X9: the regression targets of the delta networks are non-negative
    in every row, provided [gamma] is not negative, the done flags of the
    batch lie between 0 and 1 and the target agent's delta networks, as
    they stand when the call starts, return no negative value. *)
Theorem delta_targets_are_nonnegative (b : Buffer W) (la : loc)
    (te bs : Z) (g : R) (cc ac dc : option R) (t1 t2 : loc) (tu : R)
    (up : bool) s :
  is_prioritized W b = false ->
  0 <= g ->
  Forall (fun r => 0 <= done_batch r <= 1)
    (buffer_sample W b bs (st_rng s)).1 ->
  (forall (o : Obs W) (a : list R),
     0 <= delta_fwd (st_heap s) (delta1 (target_agent s)) o a /\
     0 <= delta_fwd (st_heap s) (delta2 (target_agent s)) o a) ->
  exists l s',
    learn_discor b la te bs g cc ac dc t1 t2 tu up s = (Ok l, s') /\
    Forall (fun x => 0 <= x) (target_delta1 l ++ target_delta2 l).
Proof.
  intros Hb Hg Hd Hnet.
  destruct (learn_discor_run b la te bs g cc ac dc t1 t2 tu up s Hb)
    as (l & s' & E & Hrun).
  cbv zeta in Hrun.
  destruct Hrun as (Hrows & _ & _ & [Hs1 Hs2] & _ & _ & _ & [Ht1 Ht2] & _).
  exists l, s'. split; [exact E |]. rewrite <- Hrows in Hd.
  assert (Hboot : Forall (fun x => 0 <= x)
                    (Tensor.scale g
                       (Tensor.rsub 1 (map done_batch (batch l))))).
  { unfold Tensor.scale, Tensor.rsub. rewrite !List.map_map.
    revert Hd. generalize (batch l) as rows. clear - Hg.
    induction 1 as [|r rows Hr _ IH]; cbn [map]; constructor;
      [nra | exact IH]. }
  assert (Habs : forall xs, Forall (fun x => 0 <= x) (Tensor.abs xs)).
  { intros xs. unfold Tensor.abs.
    induction xs as [|x xs IH]; constructor; [apply Rabs_pos | exact IH]. }
  apply Forall_app. split; [rewrite Ht1, Hs1 | rewrite Ht2, Hs2];
    unfold Tensor.add, Tensor.mul;
    (apply zip_with_nonneg; [intros; lra | apply Habs |]);
    (apply zip_with_nonneg; [intros; nra | exact Hboot |]);
    apply on_batch_nonneg; intros o a; apply Hnet.
Qed.

(** ** The temperatures stay usable *)

(** The temperatures after a call made by [discor]. *)
Lemma learn_discor_temps f s (b : Buffer W) (te bs : Z) (g : R)
    (cc ac dc : option R) (tu : R) (up : bool) :
  wired f s ->
  is_prioritized W b = false ->
  exists l s',
    learn_discor b (log_alpha f) te bs g cc ac dc (temp1 f) (temp2 f) tu
      up s = (Ok l, s') /\
    batch l = (buffer_sample W b bs (st_rng s)).1 /\
    delta1_pred l
    = on_batch (delta_fwd (st_heap s) (delta1 (train (agent s))))
        (map state_batch (batch l)) (map action_batch (batch l)) /\
    delta2_pred l
    = on_batch (delta_fwd (st_heap s) (delta2 (train (agent s))))
        (map state_batch (batch l)) (map action_batch (batch l)) /\
    st_heap s' !! temp1 f
    = Some (Tensor.adds (Tensor.muls (st_heap s !!! temp1 f) (1 - tu))
              (tu * Tensor.mean (delta1_pred l))) /\
    st_heap s' !! temp2 f
    = Some (Tensor.adds (Tensor.muls (st_heap s !!! temp2 f) (1 - tu))
              (tu * Tensor.mean (delta2_pred l))).
Proof.
  intros Hw Hb. pose proof (wired_distinct f s Hw) as Hd.
  destruct Hw as (_ & Hc & Ha & Hdl & Hla). distinct Hd.
  assert (Hne : temp1 f <> temp2 f) by assumption.
  wp_start s. lazy beta delta [learn_discor]. rewrite Hb.
  destruct up; repeat wp_step;
    cbn [batch delta1_pred delta2_pred st_heap]; cbv zeta.
  all: assert (E1 : forall l, l ∉ [weights (critic1 ag0);
                                    weights (critic2 ag0)] ->
                              heap_ !!! l = h0 !!! l)
         by (intros l Hl; unfold heap_; rewrite Hc;
             apply lookup_total_eq, step_params_lookup, Hl).
  all: assert (E2 : forall l, l ∉ [weights (delta1 ag0);
                                    weights (delta2 ag0)] ->
                              heap_0 !! l = heap_ !! l)
         by (intros l Hl; unfold heap_0; rewrite Hdl;
             apply step_params_lookup, Hl).
  all: assert (T1 : heap_0 !!! temp1 f = h0 !!! temp1 f)
         by (rewrite <- E1 by not_held; apply lookup_total_eq, E2;
             not_held).
  all: assert (T2 : heap_1 !!! temp2 f = h0 !!! temp2 f)
         by (unfold heap_1;
             rewrite (lookup_total_insert_ne _ (temp1 f) (temp2 f))
               by congruence;
             rewrite <- E1 by not_held; apply lookup_total_eq, E2;
             not_held).
  all: assert (P1 : l_delta1_pred
                    = on_batch (delta_fwd h0 (delta1 (train ag0)))
                        (map state_batch l_batch)
                        (map action_batch l_batch))
         by (unfold l_delta1_pred, l_delta1_at, l_h1, delta_fwd;
             cbn [l_ag train set_mode delta1 weights training
                  set_training];
             rewrite E1 by not_held; reflexivity).
  all: assert (P2 : l_delta2_pred
                    = on_batch (delta_fwd h0 (delta2 (train ag0)))
                        (map state_batch l_batch)
                        (map action_batch l_batch))
         by (unfold l_delta2_pred, l_delta2_at, l_h1, delta_fwd;
             cbn [l_ag train set_mode delta2 weights training
                  set_training];
             rewrite E1 by not_held; reflexivity).
  all: assert (F1 : heap_2 !! temp1 f
                    = Some (Tensor.adds
                              (Tensor.muls (h0 !!! temp1 f) (1 - tu))
                              (tu * Tensor.mean l_delta1_pred)))
         by (unfold heap_2, heap_1;
             rewrite (lookup_insert_ne _ (temp2 f) (temp1 f)) by congruence;
             rewrite lookup_insert_eq, T1; reflexivity).
  all: assert (F2 : heap_2 !! temp2 f
                    = Some (Tensor.adds
                              (Tensor.muls (h0 !!! temp2 f) (1 - tu))
                              (tu * Tensor.mean l_delta2_pred)))
         by (unfold heap_2; rewrite lookup_insert_eq, T2; reflexivity).
  1: assert (G : forall l, l <> weights (actor ag0) -> l <> log_alpha f ->
                           heap_4 !! l = heap_2 !! l)
       by (intros l Hl1 Hl2; unfold heap_4, heap_3; rewrite Ha, Hla;
           rewrite !step_params_lookup by not_held; reflexivity).
  1: rewrite !G by (apply not_eq_sym; assumption).
  all: clearbody l_delta1_pred l_delta2_pred.
  all: rewrite F1, F2.
  all: (split; [reflexivity |]); (split; [exact P1 |]);
       (split; [exact P2 |]); split; reflexivity.
Qed.

(** X10: the temperatures stay positive, so that the division by them in
    the DisCor weights stays defined: in a call made by [discor] on a
    non-empty batch, with [0 <= tau < 1], temperatures that hold single
    positive entries and live delta networks that return no negative
    value, each temperature holds a single entry afterwards, which is at
    least [(1 - tau)] times the old one and positive. *)
Theorem temperatures_stay_positive f s (b : Buffer W) (te bs : Z) (g : R)
    (cc ac dc : option R) (tu : R) (up : bool) (x1 x2 : R) :
  wired f s ->
  is_prioritized W b = false ->
  (buffer_sample W b bs (st_rng s)).1 <> [] ->
  0 <= tu < 1 ->
  st_heap s !! temp1 f = Some [x1] -> 0 < x1 ->
  st_heap s !! temp2 f = Some [x2] -> 0 < x2 ->
  (forall (o : Obs W) (a : list R),
     0 <= delta_fwd (st_heap s) (delta1 (train (agent s))) o a /\
     0 <= delta_fwd (st_heap s) (delta2 (train (agent s))) o a) ->
  exists l s',
    learn_discor b (log_alpha f) te bs g cc ac dc (temp1 f) (temp2 f) tu
      up s = (Ok l, s') /\
    exists y1 y2,
      st_heap s' !! temp1 f = Some [y1] /\
      st_heap s' !! temp2 f = Some [y2] /\
      0 < x1 * (1 - tu) <= y1 /\ 0 < x2 * (1 - tu) <= y2.
Proof.
  intros Hw Hb _ Htu H1 Hx1 H2 Hx2 Hnet.
  destruct (learn_discor_temps f s b te bs g cc ac dc tu up Hw Hb)
    as (l & s' & E & _ & P1 & P2 & F1 & F2).
  exists l, s'. split; [exact E |].
  assert (M1 : 0 <= Tensor.mean (delta1_pred l))
    by (rewrite P1; apply mean_nonneg, on_batch_nonneg;
        intros o a; apply Hnet).
  assert (M2 : 0 <= Tensor.mean (delta2_pred l))
    by (rewrite P2; apply mean_nonneg, on_batch_nonneg;
        intros o a; apply Hnet).
  rewrite (lookup_total_correct _ _ _ H1) in F1.
  rewrite (lookup_total_correct _ _ _ H2) in F2.
  exists (x1 * (1 - tu) + tu * Tensor.mean (delta1_pred l)),
         (x2 * (1 - tu) + tu * Tensor.mean (delta2_pred l)).
  split; [exact F1 |]. split; [exact F2 |].
  split; nra.
Qed.

(** ** What a call of [learn_discor] may write *)

(** X11: in a call made by [discor], with either value of
    [update_policy] and whether the call returns or raises, the agent,
    the target agent and the optimizers still refer to the same tensors,
    and every tensor other than the five networks of the live agent,
    [log_alpha] and the two temperatures has the contents it had: in
    particular no tensor of the target agent is written. *)
Theorem learn_discor_writes_are_confined f s (b : Buffer W)
    (te bs : Z) (g : R) (cc ac dc : option R) (tu : R) (up : bool) :
  wired f s ->
  let s' := (learn_discor b (log_alpha f) te bs g cc ac dc (temp1 f)
               (temp2 f) tu up s).2 in
  agent_locs (agent s') = agent_locs (agent s) /\
  target_agent s' = target_agent s /\
  (forall o, params (get_opt o s') = params (get_opt o s)) /\
  (forall l,
     l ∉ agent_locs (agent s) ++ [log_alpha f; temp1 f; temp2 f] ->
     st_heap s' !! l = st_heap s !! l) /\
  forall l, l ∈ agent_locs (target_agent s) ->
            st_heap s' !! l = st_heap s !! l.
Proof.
  intros Hw s'. pose proof (wired_distinct f s Hw) as Hd.
  destruct Hw as (Hnd & Hc & Ha & Hdl & Hla).
  destruct (keeps_learn_discor (refs s)
              (fun l => l ∉ agent_locs (agent s)
                              ++ [log_alpha f; temp1 f; temp2 f])
              b (log_alpha f) te bs g cc ac dc (temp1 f) (temp2 f) tu
              up) with (s := s) as [(Hag & Htg & Hp) Hh].
  - intros l Hl. cbn [refs r_params get_opt]. rewrite Hc, Hdl, Ha, Hla.
    unfold agent_locs in Hl. cbn [app] in Hl.
    rewrite !not_elem_of_cons in Hl. rewrite !not_elem_of_cons.
    repeat split; try tauto; apply not_elem_of_nil.
  - apply same_refs_refl.
  - subst s'. cbn [refs r_agent r_target r_params] in Hag, Htg, Hp.
    split; [exact Hag |]. split; [exact Htg |]. split; [exact Hp |].
    split; [exact Hh |].
    intros l Hl. apply Hh. intros Hin.
    apply NoDup_app in Hnd as (_ & Hdisj & Hnd2).
    apply NoDup_app in Hnd2 as (_ & Hdisj2 & _).
    apply elem_of_app in Hin as [Hin | Hin].
    + apply (Hdisj l Hin). apply elem_of_app. now left.
    + exact (Hdisj2 l Hl Hin).
Qed.

(** X12: a clip value of [0.0] is false in [if critic_clip:], so a call
    with the three clips at zero is the call with no clipping at all: the
    gradients are not scaled to norm zero. *)
Theorem zero_clip_is_no_clip (b : Buffer W) (la : loc)
    (te bs : Z) (g : R) (t1 t2 : loc) (tu : R) (up : bool) :
  learn_discor b la te bs g (Some 0) (Some 0) (Some 0) t1 t2 tu up
  = learn_discor b la te bs g None None None t1 t2 tu up.
Proof.
  unfold learn_discor, gradient_step, truthy.
  destruct (Req_dec_T 0 0) as [_ | Hne]; [reflexivity | now destruct Hne].
Qed.

(** ** The set-up of [discor], in full *)

Lemma extends_trans (h1 h2 h3 : heap) :
  extends h1 h2 -> extends h2 h3 -> extends h1 h3.
Proof.
  intros H12 H23 l Hl.
  assert (Hl2 : l ∈ dom h2)
    by (apply elem_of_dom; rewrite H12 by exact Hl; now apply elem_of_dom).
  rewrite H23 by exact Hl2. apply H12, Hl.
Qed.

Lemma extends_dom (h h' : heap) (l : loc) :
  extends h h' -> l ∈ dom h -> l ∈ dom h'.
Proof.
  intros H Hl. apply elem_of_dom. rewrite H by exact Hl.
  now apply elem_of_dom.
Qed.

Lemma extends_total (h h' : heap) (l : loc) :
  extends h h' -> l ∈ dom h -> h' !!! l = h !!! l.
Proof. intros H Hl. apply lookup_total_eq, H, Hl. Qed.

Lemma alloc_extends (v : list R) (h : heap) (l : loc) (h' : heap) :
  alloc v h = (l, h') ->
  extends h h' /\ (l ∉ dom h) /\ h' !! l = Some v.
Proof.
  intros E. apply alloc_spec in E as [Hl ->]. split; [| split].
  - intros k Hk. apply lookup_insert_ne. intros ->. exact (Hl Hk).
  - exact Hl.
  - apply lookup_insert_eq.
Qed.

Lemma deepcopy_module_extends (m : NNModule) (h : heap) m' h' :
  deepcopy_module m h = (m', h') ->
  extends h h' /\ (weights m' ∉ dom h) /\
  h' !! weights m' = Some (h !!! weights m) /\
  training m' = training m.
Proof.
  unfold deepcopy_module.
  destruct (alloc (h !!! weights m) h) as [l h1] eqn:E.
  apply alloc_extends in E as (X & F & C). intros [= <- <-].
  cbn [weights training]. repeat split; assumption.
Qed.

(** A copy made from [hp] into [hc] and kept until [hf]. *)
Lemma copy_kept (h hp hc hf : heap) (src l : loc) :
  extends h hp -> extends hc hf -> src ∈ dom h ->
  l ∉ dom hp -> hc !! l = Some (hp !!! src) ->
  (l ∉ dom h) /\ hf !! l = Some (h !!! src).
Proof.
  intros X Y Hsrc F C. split.
  - intros Hl. exact (F (extends_dom h hp l X Hl)).
  - rewrite Y by (exact (elem_of_dom_2 _ _ _ C)).
    refine (eq_trans C _). f_equal. apply extends_total; assumption.
Qed.

Lemma deepcopy_contents (a : DisCorAgent) (h : heap) tg h' :
  (forall l, l ∈ agent_locs a -> l ∈ dom h) ->
  deepcopy a h = (tg, h') ->
  extends h h' /\
  forall net, net ∈ all_nets ->
    training (net tg) = training (net a) /\
    (weights (net tg) ∉ dom h) /\
    h' !! weights (net tg) = Some (h !!! weights (net a)).
Proof.
  intros Hin. unfold deepcopy.
  destruct (deepcopy_module (actor a) h) as [m1 h1] eqn:E1.
  destruct (deepcopy_module (critic1 a) h1) as [m2 h2] eqn:E2.
  destruct (deepcopy_module (critic2 a) h2) as [m3 h3] eqn:E3.
  destruct (deepcopy_module (delta1 a) h3) as [m4 h4] eqn:E4.
  destruct (deepcopy_module (delta2 a) h4) as [m5 h5] eqn:E5.
  apply deepcopy_module_extends in E1 as (X1 & F1 & C1 & T1),
    E2 as (X2 & F2 & C2 & T2), E3 as (X3 & F3 & C3 & T3),
    E4 as (X4 & F4 & C4 & T4), E5 as (X5 & F5 & C5 & T5).
  intros [= <- <-].
  pose proof (extends_trans _ _ _ X1 X2) as X02.
  pose proof (extends_trans _ _ _ X02 X3) as X03.
  pose proof (extends_trans _ _ _ X03 X4) as X04.
  pose proof (extends_trans _ _ _ X4 X5) as X35.
  pose proof (extends_trans _ _ _ X3 X35) as X25.
  pose proof (extends_trans _ _ _ X2 X25) as X15.
  assert (X00 : extends h h) by (intros l _; reflexivity).
  assert (X55 : extends h5 h5) by (intros l _; reflexivity).
  split; [exact (extends_trans _ _ _ X1 X15) |].
  unfold agent_locs in Hin.
  assert (Hsrc : forall l,
             l ∈ [weights (actor a); weights (critic1 a);
                  weights (critic2 a); weights (delta1 a);
                  weights (delta2 a)] -> l ∈ dom h) by exact Hin.
  intros net Hnet. unfold all_nets in Hnet. rewrite !elem_of_cons in Hnet.
  destruct Hnet as [-> | [-> | [-> | [-> | [-> | Hnil]]]]];
    [| | | | | now apply elem_of_nil in Hnil];
    cbn [actor critic1 critic2 delta1 delta2];
    (split; [assumption |]).
  - apply (copy_kept h h h1 h5); try assumption.
    apply Hsrc. rewrite !elem_of_cons. tauto.
  - apply (copy_kept h h1 h2 h5); try assumption.
    apply Hsrc. rewrite !elem_of_cons. tauto.
  - apply (copy_kept h h2 h3 h5); try assumption.
    apply Hsrc. rewrite !elem_of_cons. tauto.
  - apply (copy_kept h h3 h4 h5); try assumption.
    apply Hsrc. rewrite !elem_of_cons. tauto.
  - apply (copy_kept h h4 h5 h5); try assumption.
    apply Hsrc. rewrite !elem_of_cons. tauto.
Qed.

Lemma setup_agent c (a : Args (W := W)) f s0 :
  setup c a = Ok (f, s0) ->
  agent s0 = train (a_agent a) /\
  target_entropy f = (- action_space_shape0 W (a_train_env a))%Z.
Proof.
  unfold setup.
  destruct (deepcopy (train (a_agent a)) (a_heap a)) as [tg h1].
  destruct (Rlt_dec 0 (init_alpha c)); [| discriminate].
  destruct (alloc [ln (init_alpha c)] _) as [la h6].
  destruct (alloc [init_temp c] h6) as [t1 h7].
  destruct (alloc [init_temp c] h7) as [t2 h8].
  intros [= <- <-]. split; reflexivity.
Qed.

Lemma setup_contents c (a : Args (W := W)) f s0 :
  (forall l, l ∈ agent_locs (a_agent a) -> l ∈ dom (a_heap a)) ->
  setup c a = Ok (f, s0) ->
  extends (a_heap a) (st_heap s0) /\
  st_heap s0 !! log_alpha f = Some [ln (init_alpha c)] /\
  st_heap s0 !! temp1 f = Some [init_temp c] /\
  st_heap s0 !! temp2 f = Some [init_temp c] /\
  forall net, net ∈ all_nets ->
    training (net (target_agent s0)) = true /\
    (weights (net (target_agent s0)) ∉ dom (a_heap a)) /\
    st_heap s0 !! weights (net (target_agent s0))
    = Some (a_heap a !!! weights (net (a_agent a))).
Proof.
  intros Hin. unfold setup.
  destruct (deepcopy (train (a_agent a)) (a_heap a)) as [tg h1] eqn:Edc.
  apply deepcopy_contents in Edc as [X1 HT]; [| exact Hin].
  destruct (Rlt_dec 0 (init_alpha c)); [| discriminate].
  assert (Hhu : forall net, net ∈ [critic1; critic2; delta1; delta2] ->
                  hard_update (net tg) (net (train (a_agent a))) h1 = h1).
  { intros net Hnet.
    assert (Hall : net ∈ all_nets)
      by (unfold all_nets; rewrite elem_of_cons; now right).
    destruct (HT net Hall) as (_ & _ & C).
    unfold hard_update. apply insert_id. rewrite C. f_equal.
    symmetry. apply extends_total; [exact X1 |]. apply Hin.
    unfold agent_locs. rewrite !elem_of_cons in Hnet.
    destruct Hnet as [-> | [-> | [-> | [-> | Hnil]]]];
      [| | | | now apply elem_of_nil in Hnil];
      cbn [train set_mode critic1 critic2 delta1 delta2 weights
           set_training];
      rewrite !elem_of_cons; tauto. }
  cbv zeta.
  rewrite (Hhu critic1) by (rewrite !elem_of_cons; tauto).
  rewrite (Hhu critic2) by (rewrite !elem_of_cons; tauto).
  rewrite (Hhu delta1) by (rewrite !elem_of_cons; tauto).
  rewrite (Hhu delta2) by (rewrite !elem_of_cons; tauto).
  destruct (alloc [ln (init_alpha c)] h1) as [la h6] eqn:Ela.
  destruct (alloc [init_temp c] h6) as [t1 h7] eqn:Et1.
  destruct (alloc [init_temp c] h7) as [t2 h8] eqn:Et2.
  apply alloc_extends in Ela as (Xa & Fa & Ca), Et1 as (Xt1 & Ft1 & Ct1),
    Et2 as (Xt2 & Ft2 & Ct2).
  intros [= <- <-]. cbn [st_heap target_agent log_alpha temp1 temp2].
  pose proof (extends_trans _ _ _ Xt1 Xt2) as X68.
  pose proof (extends_trans _ _ _ Xa X68) as X18.
  split; [exact (extends_trans _ _ _ X1 X18) |].
  split; [rewrite X68 by (exact (elem_of_dom_2 _ _ _ Ca));
          exact Ca |].
  split; [rewrite Xt2 by (exact (elem_of_dom_2 _ _ _ Ct1));
          exact Ct1 |].
  split; [exact Ct2 |].
  intros net Hnet. destruct (HT net Hnet) as (T & F & C).
  unfold all_nets in Hnet. rewrite !elem_of_cons in Hnet.
  destruct Hnet as [-> | [-> | [-> | [-> | [-> | Hnil]]]]];
    [| | | | | now apply elem_of_nil in Hnil];
    cbn [train set_mode actor critic1 critic2 delta1 delta2 weights
         training set_training] in *;
    (split; [reflexivity |]); (split; [exact F |]);
    rewrite X18 by (exact (elem_of_dom_2 _ _ _ C)); exact C.
Qed.

Lemma setup_run c (a : Args (W := W)) :
  0 < init_alpha c -> exists f s0, setup c a = Ok (f, s0).
Proof.
  intros Hpos. unfold setup.
  destruct (deepcopy (train (a_agent a)) (a_heap a)) as [tg h1].
  destruct (Rlt_dec 0 (init_alpha c)); [| contradiction].
  destruct (alloc [ln (init_alpha c)] _) as [la h6].
  destruct (alloc [init_temp c] h6) as [t1 h7].
  destruct (alloc [init_temp c] h7) as [t2 h8].
  do 2 eexists. reflexivity.
Qed.

(** X13: with a positive [init_alpha] and an agent whose tensors exist,
    the set-up returns; it leaves every tensor that existed before with
    its contents, puts the agent in training mode, makes the target agent
    out of five new tensors holding the values of the live agent's
    networks (the actor included), in training mode, and creates
    [log_alpha] with [exp(log_alpha) = init_alpha], both temperatures
    with the single entry [init_temp], and
    [target_entropy = -action_space.shape[0]]. *)
Theorem setup_copies_and_initialises c (a : Args (W := W)) :
  0 < init_alpha c ->
  (forall l, l ∈ agent_locs (a_agent a) -> l ∈ dom (a_heap a)) ->
  exists f s0,
    setup c a = Ok (f, s0) /\
    agent s0 = train (a_agent a) /\
    target_entropy f = (- action_space_shape0 W (a_train_env a))%Z /\
    extends (a_heap a) (st_heap s0) /\
    exp (Tensor.item (st_heap s0 !!! log_alpha f)) = init_alpha c /\
    st_heap s0 !!! temp1 f = [init_temp c] /\
    st_heap s0 !!! temp2 f = [init_temp c] /\
    forall net, net ∈ all_nets ->
      training (net (target_agent s0)) = true /\
      (weights (net (target_agent s0)) ∉ dom (a_heap a)) /\
      st_heap s0 !!! weights (net (target_agent s0))
      = a_heap a !!! weights (net (a_agent a)).
Proof.
  intros Hpos Hin. destruct (setup_run c a Hpos) as (f & s0 & Es).
  destruct (setup_agent c a f s0 Es) as [Ha Hte].
  destruct (setup_contents c a f s0 Hin Es) as (X & La & L1 & L2 & HT).
  exists f, s0. split; [exact Es |]. split; [exact Ha |].
  split; [exact Hte |]. split; [exact X |].
  split; [rewrite (lookup_total_correct _ _ _ La); cbn [Tensor.item hd];
          now apply exp_ln |].
  split; [exact (lookup_total_correct _ _ _ L1) |].
  split; [exact (lookup_total_correct _ _ _ L2) |].
  intros net Hnet. destruct (HT net Hnet) as (T & F & C).
  split; [exact T |]. split; [exact F |].
  exact (lookup_total_correct _ _ _ C).
Qed.

(** ** Runs of [discor] *)

Lemma range_nonpos (n : Z) : (n <= 0)%Z -> range n = [].
Proof.
  intros Hn. unfold range. replace (Z.to_nat n) with 0%nat by lia.
  reflexivity.
Qed.

Lemma range_pos (n : Z) : (0 < n)%Z -> exists rest, range n = 0%Z :: rest.
Proof.
  intros Hn. unfold range.
  destruct (Z.to_nat n) as [|k] eqn:E; [lia |]. cbn [seq map]. eauto.
Qed.

Lemma logging_dir c dir :
  logging (W := W) c = Ok dir -> save_to_disk c = true -> is_Some dir.
Proof.
  unfold logging. intros E Hs. rewrite Hs in E. cbn [orb] in E.
  destruct (make_process_dirs W (name c)) as [d | e]; [| discriminate].
  destruct (log_to_disk c);
    [destruct (add_hparams W d); [| discriminate] |];
    injection E as <-; eauto.
Qed.

Lemma discor_no_steps c (a : Args (W := W)) dir :
  logging (W := W) c = Ok dir ->
  0 < init_alpha c -> (num_steps c <= 0)%Z ->
  discor c a = Ok (train (a_agent a)).
Proof.
  intros El Hpos Hn. destruct (setup_run c a Hpos) as (f & s0 & Es).
  destruct (setup_agent c a f s0 Es) as [Ha _].
  unfold discor. rewrite (start_run c a dir f s0 El Es).
  rewrite (range_nonpos _ Hn).
  unfold training_loop, warmup, modify, bind, ret. cbn [for_ ret].
  destruct (save_to_disk c) eqn:Hs; cbn [when].
  - destruct (logging_dir c dir El Hs) as [d ->].
    destruct s0. cbn in Ha |- *. now rewrite Ha.
  - destruct s0. cbn in Ha |- *. now rewrite Ha.
Qed.

(** X14: the first lines of [discor] call nothing when [save_to_disk] and
    [log_to_disk] are both [False]; when they raise ([make_process_dirs],
    [SummaryWriter] or [add_hparams]), [discor] raises that exception
    before anything else.  When they return, a non-positive [init_alpha]
    makes [discor] raise [ValueError] (from [math.log]) during the set-up,
    and with a positive [init_alpha] and [num_steps <= 0] it returns the
    agent it was given, switched to training mode, without a single
    iteration. *)
Theorem discor_without_iterations c (a : Args (W := W)) :
  (save_to_disk c = false -> log_to_disk c = false ->
   logging (W := W) c = Ok None) /\
  (forall e, logging (W := W) c = Raise e -> discor c a = Raise e) /\
  (forall dir, logging (W := W) c = Ok dir ->
     (init_alpha c <= 0 -> discor c a = Raise ValueError) /\
     (0 < init_alpha c -> (num_steps c <= 0)%Z ->
      discor c a = Ok (train (a_agent a)))).
Proof.
  split; [| split].
  - intros Hs Hl. unfold logging. now rewrite Hs, Hl.
  - intros e El. unfold discor, start. now rewrite El.
  - intros dir El. split; [| apply (discor_no_steps c a dir El)].
    intros Hle. unfold discor, start, setup. rewrite El.
    destruct (deepcopy (train (a_agent a)) (a_heap a)) as [tg h1].
    destruct (Rlt_dec 0 (init_alpha c)); [lra | reflexivity].
Qed.

(** An iteration that runs to its end has evaluated all its remainders. *)
Lemma iteration_ok_moduli c f (k : Z) s s' :
  iteration c f k s = (Ok tt, s') ->
  target_delay c <> 0%Z /\ eval_interval c <> 0%Z /\
  save_interval c <> 0%Z /\
  ((0 < gradient_updates_per_step c)%Z -> actor_delay c <> 0%Z).
Proof.
  unfold iteration. intros H.
  apply bind_run in H as [(e & _ & [=]) | (u & sA & EA & H)].
  apply bind_run in H as [(e & _ & [=]) | (v & sB & EB & H)].
  apply bind_run in H as [(e & _ & [=]) | (w & sS & ES & H)].
  apply bind_run in H as [(e & _ & [=]) | (x & sE & EE & H)].
  repeat split.
  - intros E0. unfold sync_targets, mod_ in ES. rewrite E0 in ES.
    cbn [Z.eqb] in ES. unfold bind, raise in ES. discriminate.
  - intros E0. unfold evaluate, mod_ in EE. rewrite E0 in EE.
    cbn [Z.eqb] in EE. unfold bind, raise in EE. discriminate.
  - intros E0. unfold checkpoint, mod_ in H. rewrite E0 in H.
    cbn [Z.eqb] in H. unfold bind, raise in H. discriminate.
  - intros Hg E0. destruct (range_pos _ Hg) as [rest Er].
    rewrite Er in EB. cbn [for_] in EB.
    unfold learn_call, mod_ in EB. rewrite E0 in EB.
    cbn [Z.eqb] in EB. unfold bind, raise, gets in EB. discriminate.
Qed.

(** X15: [discor] cannot be told to skip target updates, evaluation or
    checkpoints by an interval of zero: with at least one step to run and
    [target_delay], [eval_interval] or [save_interval] equal to zero (or
    [actor_delay] zero and at least one gradient update per step), the
    remainder [step % 0] is evaluated in the first iteration and [discor]
    ends with an exception instead of returning the agent. *)
Theorem zero_interval_never_returns c (a : Args (W := W)) :
  (0 < num_steps c)%Z ->
  (target_delay c = 0 \/ eval_interval c = 0 \/ save_interval c = 0 \/
   (actor_delay c = 0 /\ 0 < gradient_updates_per_step c))%Z ->
  exists e, discor c a = Raise e.
Proof.
  intros Hn Hz. destruct (discor c a) as [ag | e] eqn:E; [| eauto].
  exfalso. unfold discor in E.
  destruct (start c a) as [[f s0] | e]; [| discriminate].
  destruct ((warmup c ;; training_loop c f (range (num_steps c)) ;;
             when (save_to_disk c) agent_save) s0)
    as [[u | e] s1] eqn:Er; [| discriminate].
  apply bind_run in Er as [(e & _ & [=]) | (x & sw & _ & Er)].
  apply bind_run in Er as [(e & _ & [=]) | (y & sl & Er & _)].
  destruct (range_pos _ Hn) as [rest Hr]. rewrite Hr in Er.
  unfold training_loop in Er. cbn [for_] in Er.
  apply bind_run in Er as [(e & _ & [=]) | ([] & s2 & Ei & _)].
  apply iteration_ok_moduli in Ei as (H1 & H2 & H3 & H4). lia.
Qed.

(** X16: the agent that [discor] returns is made of the very tensors of
    the agent it was given: training is done in place, and the caller's
    agent and the returned one are the same networks. *)
Theorem discor_returns_its_agent c (a : Args (W := W)) ag :
  discor c a = Ok ag -> agent_locs ag = agent_locs (a_agent a).
Proof.
  unfold discor.
  destruct (start c a) as [[f s0] | e] eqn:Est; [| discriminate].
  apply start_inv in Est as (dir & sp & _ & Es & ->).
  destruct (setup_agent c a f sp Es) as [Ha _].
  set (s0 := set_save_dir dir sp).
  destruct (keeps_run (refs s0) c f (range (num_steps c)) s0
              (same_refs_refl _)) as [(Hr & _) _].
  destruct ((warmup c ;; training_loop c f (range (num_steps c)) ;;
             when (save_to_disk c) agent_save) s0)
    as [[u | e] s1]; [| discriminate].
  intros [= <-]. cbn [snd refs r_agent] in Hr. rewrite Hr.
  change (agent s0) with (agent sp). rewrite Ha. reflexivity.
Qed.

(** ** [DisCorAgent.__init__], [save] and [load] *)

Lemma new_module_spec (w : list R) (h : heap) m h' :
  new_module w h = (m, h') ->
  extends h h' /\ (weights m ∉ dom h) /\ h' !! weights m = Some w /\
  training m = true.
Proof.
  unfold new_module. destruct (alloc w h) as [l h1] eqn:E.
  apply alloc_extends in E as (X & F & C). intros [= <- <-].
  cbn [weights training]. repeat split; assumption.
Qed.

(** X18: [DisCorAgent.__init__] builds an agent that [discor] accepts:
    its five networks are five different tensors, none of which existed
    before, each holding its initial parameters, all in training mode,
    and the tensors that existed before are left as they were. *)
Theorem new_agent_is_ok (wa wc1 wc2 wd1 wd2 : list R) (h : heap)
    (rng : Rng W) (b : Buffer W) (e te : Env W) (d : disk) :
  let r := DisCorAgent_init wa wc1 wc2 wd1 wd2 h in
  agent_ok {| a_heap := r.2; a_rng := rng; a_agent := r.1;
              a_buffer := b; a_train_env := e; a_test_env := te;
              a_files := d |} /\
  extends h r.2 /\
  train r.1 = r.1 /\
  Forall (fun l => l ∉ dom h) (agent_locs r.1) /\
  map (fun net => r.2 !!! weights (net r.1)) all_nets
  = [wa; wc1; wc2; wd1; wd2].
Proof.
  cbv zeta. unfold DisCorAgent_init.
  destruct (new_module wa h) as [m1 h1] eqn:E1.
  destruct (new_module wc1 h1) as [m2 h2] eqn:E2.
  destruct (new_module wc2 h2) as [m3 h3] eqn:E3.
  destruct (new_module wd1 h3) as [m4 h4] eqn:E4.
  destruct (new_module wd2 h4) as [m5 h5] eqn:E5.
  apply new_module_spec in E1 as (X1 & F1 & C1 & T1),
    E2 as (X2 & F2 & C2 & T2), E3 as (X3 & F3 & C3 & T3),
    E4 as (X4 & F4 & C4 & T4), E5 as (X5 & F5 & C5 & T5).
  cbn [fst snd].
  pose proof (extends_trans _ _ _ X4 X5) as X35.
  pose proof (extends_trans _ _ _ X3 X35) as X25.
  pose proof (extends_trans _ _ _ X2 X25) as X15.
  pose proof (extends_trans _ _ _ X1 X15) as X05.
  pose proof (elem_of_dom_2 _ _ _ C1) as D1.
  pose proof (elem_of_dom_2 _ _ _ C2) as D2.
  pose proof (elem_of_dom_2 _ _ _ C3) as D3.
  pose proof (elem_of_dom_2 _ _ _ C4) as D4.
  pose proof (elem_of_dom_2 _ _ _ C5) as D5.
  pose proof (extends_dom _ _ _ X2 D1) as D12.
  pose proof (extends_dom _ _ _ X3 D12) as D13.
  pose proof (extends_dom _ _ _ X4 D13) as D14.
  pose proof (extends_dom _ _ _ X3 D2) as D23.
  pose proof (extends_dom _ _ _ X4 D23) as D24.
  pose proof (extends_dom _ _ _ X4 D3) as D34.
  assert (L1 : h5 !! weights m1 = Some wa) by (now rewrite X15).
  assert (L2 : h5 !! weights m2 = Some wc1) by (now rewrite X25).
  assert (L3 : h5 !! weights m3 = Some wc2) by (now rewrite X35).
  assert (L4 : h5 !! weights m4 = Some wd1) by (now rewrite X5).
  split; [split |].
  - unfold agent_locs. cbn [a_agent actor critic1 critic2 delta1 delta2].
    repeat (apply NoDup_cons; split;
            [rewrite ?not_elem_of_cons; repeat split;
             first [apply not_elem_of_nil | intros Eq] |]);
      [.. | apply NoDup_nil_2];
      cbn [actor critic1 critic2 delta1 delta2] in Eq;
      first [ rewrite Eq in D1; contradiction
            | rewrite Eq in D12; contradiction
            | rewrite Eq in D13; contradiction
            | rewrite Eq in D14; contradiction
            | rewrite Eq in D2; contradiction
            | rewrite Eq in D23; contradiction
            | rewrite Eq in D24; contradiction
            | rewrite Eq in D3; contradiction
            | rewrite Eq in D34; contradiction
            | rewrite Eq in D4; contradiction ].
  - unfold agent_locs.
    cbn [a_agent a_heap actor critic1 critic2 delta1 delta2].
    intros l Hl. rewrite !elem_of_cons in Hl.
    destruct Hl as [-> | [-> | [-> | [-> | [-> | Hnil]]]]];
      [eapply elem_of_dom_2; eassumption ..
      | now apply elem_of_nil in Hnil].
  - split; [exact X05 |]. split.
    { destruct m1, m2, m3, m4, m5. cbn in T1, T2, T3, T4, T5. subst.
      reflexivity. }
    split.
    + apply Forall_forall.
      unfold agent_locs. cbn [actor critic1 critic2 delta1 delta2].
      intros l Hl Hd. rewrite !elem_of_cons in Hl.
      destruct Hl as [-> | [-> | [-> | [-> | [-> | Hnil]]]]];
        [| | | | | now apply elem_of_nil in Hnil].
      * exact (F1 Hd).
      * exact (F2 (extends_dom _ _ _ X1 Hd)).
      * exact (F3 (extends_dom _ _ _ (extends_trans _ _ _ X1 X2) Hd)).
      * apply F4.
        exact (extends_dom _ _ _
                 (extends_trans _ _ _ (extends_trans _ _ _ X1 X2) X3) Hd).
      * apply F5.
        exact (extends_dom _ _ _
                 (extends_trans _ _ _
                    (extends_trans _ _ _ (extends_trans _ _ _ X1 X2) X3)
                    X4) Hd).
    + unfold all_nets. cbn [map actor critic1 critic2 delta1 delta2].
      now rewrite (lookup_total_correct _ _ _ L1),
        (lookup_total_correct _ _ _ L2), (lookup_total_correct _ _ _ L3),
        (lookup_total_correct _ _ _ L4), (lookup_total_correct _ _ _ C5).
Qed.

Lemma join_inj (path x y : string) : join path x = join path y -> x = y.
Proof.
  unfold join. destruct path as [|ch path]; [auto |].
  destruct (ends_with_slash (String ch path)); intros E.
  - exact (String.app_inj _ _ _ E).
  - apply String.app_inj in E. exact (String.app_inj _ _ _ E).
Qed.

Lemma load_state_dict_ok (m : NNModule) (file : string) (d : disk)
    (h : heap) (v : list R) :
  d !! file = Some v -> length v = length (h !!! weights m) ->
  load_state_dict m file d h = (None, <[weights m := v]> h).
Proof.
  intros E L. unfold load_state_dict. now rewrite E, L, Nat.eqb_refl.
Qed.

Lemma save_lookup (a : DisCorAgent) (path : string) (h : heap) (d : disk) :
  map (fun n => save a path h d !! join path n)
    ["actor.pt"; "critic1.pt"; "critic2.pt"; "delta1.pt"; "delta2.pt"]
  = map (fun net => Some (h !!! weights (net a))) all_nets.
Proof.
  assert (Hp : forall x y, x <> y -> join path x <> join path y)
    by (intros x y Hne E; exact (Hne (join_inj path x y E))).
  unfold save, torch_save, all_nets. cbv zeta. cbn [map].
  repeat f_equal;
    repeat first
      [ apply lookup_insert_eq
      | rewrite lookup_insert_ne by (apply Hp; discriminate) ].
Qed.

(** X19: [load] after [save] restores the agent: loading the directory
    that [save] wrote, into an agent with the same five (separate)
    tensors of the same sizes, returns without an exception, gives each
    network the parameters it had when it was saved and leaves every
    other tensor alone, whatever happened to the parameters in
    between. *)
Theorem load_restores_what_save_wrote (a : DisCorAgent) (path : string)
    (h h' : heap) (d : disk) :
  NoDup (agent_locs a) ->
  Forall (fun l => length (h' !!! l) = length (h !!! l)) (agent_locs a) ->
  exists h'',
    load a path (save a path h d) h' = (None, h'') /\
    Forall (fun l => h'' !!! l = h !!! l) (agent_locs a) /\
    forall l, l ∉ agent_locs a -> h'' !! l = h' !! l.
Proof.
  intros Hnd Hlen. pose proof (save_lookup a path h d) as Hs.
  unfold all_nets in Hs. cbn [map] in Hs.
  injection Hs as S1 S2 S3 S4 S5.
  unfold agent_locs in *. distinct Hnd.
  apply Forall_cons in Hlen as [G1 Hlen].
  apply Forall_cons in Hlen as [G2 Hlen].
  apply Forall_cons in Hlen as [G3 Hlen].
  apply Forall_cons in Hlen as [G4 Hlen].
  apply Forall_cons in Hlen as [G5 _].
  unfold load. cbv zeta.
  rewrite (load_state_dict_ok _ _ _ _ _ S1) by (now rewrite G1).
  cbn [and_then].
  rewrite (load_state_dict_ok _ _ _ _ _ S2)
    by (rewrite !lookup_total_insert_ne by not_held; now rewrite G2).
  cbn [and_then].
  rewrite (load_state_dict_ok _ _ _ _ _ S3)
    by (rewrite !lookup_total_insert_ne by not_held; now rewrite G3).
  cbn [and_then].
  rewrite (load_state_dict_ok _ _ _ _ _ S4)
    by (rewrite !lookup_total_insert_ne by not_held; now rewrite G4).
  cbn [and_then].
  rewrite (load_state_dict_ok _ _ _ _ _ S5)
    by (rewrite !lookup_total_insert_ne by not_held; now rewrite G5).
  eexists. split; [reflexivity |]. split.
  - repeat (apply Forall_cons; split); [.. | exact (Forall_nil_2 _)];
      repeat first
        [ apply lookup_total_insert_eq
        | rewrite lookup_total_insert_ne by not_held ].
  - intros l Hl. rewrite !not_elem_of_cons in Hl. destruct_and?.
    rewrite !lookup_insert_ne by congruence. reflexivity.
Qed.

(** X20: [load] is not all-or-nothing.  When the actor's file is missing
    it raises [FileNotFoundError] with the agent untouched; when the
    actor's file is there and fits but [critic1.pt] is missing it raises
    [FileNotFoundError] after the actor has been overwritten with the
    saved parameters, the other four networks keeping theirs. *)
Theorem load_stops_at_the_first_missing_file (a : DisCorAgent)
    (path : string) (d : disk) (h : heap) :
  (d !! join path "actor.pt" = None ->
   load a path d h = (Some FileNotFoundError, h)) /\
  (forall v,
     d !! join path "actor.pt" = Some v ->
     length v = length (h !!! weights (actor a)) ->
     d !! join path "critic1.pt" = None ->
     load a path d h
     = (Some FileNotFoundError, <[weights (actor a) := v]> h)).
Proof.
  split.
  - intros E. unfold load, load_state_dict. cbv zeta. now rewrite E.
  - intros v E L E1. unfold load. cbv zeta.
    rewrite (load_state_dict_ok _ _ _ _ _ E L). cbn [and_then].
    unfold load_state_dict. now rewrite E1.
Qed.

End Facts.

(** ** The statements on the concrete instance *)

Lemma toy_wired d n : wired Toy.frame (Toy.st d n).
Proof.
  unfold wired. split; [| repeat split].
  cbn.
  repeat (apply NoDup_cons; split;
          [rewrite ?not_elem_of_cons; repeat split;
           first [discriminate | apply not_elem_of_nil] |]).
  apply NoDup_nil_2.
Qed.

Lemma toy_agent_ok : agent_ok (Toy.args false).
Proof.
  split.
  - cbn.
    repeat (apply NoDup_cons; split;
            [rewrite ?not_elem_of_cons; repeat split;
             first [discriminate | apply not_elem_of_nil] |]).
    apply NoDup_nil_2.
  - intros l Hl.
    change (l ∈ [1; 2; 3; 4; 5]%positive) in Hl.
    rewrite !elem_of_cons in Hl.
    apply elem_of_dom.
    destruct Hl as [-> | [-> | [-> | [-> | [-> | Hl]]]]];
      [eexists; reflexivity .. | now apply elem_of_nil in Hl].
Qed.

Lemma discor_weights_sum_to_batch_size_witness :
  is_prioritized Toy.world (false, []) = false /\
  exists l s',
    learn_discor (W := Toy.world) (false, []) 11%positive (-1)%Z 3%Z
      (99 / 100) None None None 12%positive 13%positive (1 / 200) true
      (Toy.st false (Some 0%Z)) = (Ok l, s') /\
    Tensor.sum (disCor_weights1 l) = 3 /\
    Tensor.sum (disCor_weights2 l) = 3.
Proof.
  split; [reflexivity |].
  destruct (discor_weights_sum_to_batch_size (W := Toy.world) (false, [])
              11%positive (-1)%Z 3%Z (99 / 100) None None None
              12%positive 13%positive (1 / 200) true
              (Toy.st false (Some 0%Z)) eq_refl eq_refl)
    as (l & s' & E & _ & _ & _ & S1 & S2 & _).
  exists l, s'. repeat split; assumption.
Defined.

Lemma td_target_soft_backup_witness :
  is_prioritized Toy.world (false, []) = false /\
  exists l s',
    learn_discor (W := Toy.world) (false, []) 11%positive (-1)%Z 3%Z
      (99 / 100) None None None 12%positive 13%positive (1 / 200) true
      (Toy.st false (Some 0%Z)) = (Ok l, s') /\
    batch l = [Toy.row0; Toy.row0; Toy.row0] /\
    alpha l
    = exp (Tensor.item (st_heap (Toy.st false (Some 0%Z)) !!! 11%positive)).
Proof.
  split; [reflexivity |].
  destruct (td_target_soft_backup (W := Toy.world) (false, [])
              11%positive (-1)%Z 3%Z (99 / 100) None None None
              12%positive 13%positive (1 / 200) true
              (Toy.st false (Some 0%Z)) eq_refl)
    as (l & s' & E & B & A & _).
  exists l, s'. repeat split; assumption.
Defined.


Lemma update_policy_false_keeps_actor_and_alpha_witness :
  let s := Toy.st false (Some 0%Z) in
  let s' := (learn_discor (W := Toy.world) (false, []) 11%positive (-1)%Z
               3%Z (99 / 100) None None None 12%positive 13%positive
               (1 / 200) false s).2 in
  st_heap s' !! 1%positive = st_heap s !! 1%positive /\
  st_heap s' !! 11%positive = st_heap s !! 11%positive.
Proof.
  intros s s'.
  destruct (update_policy_false_keeps_actor_and_alpha (W := Toy.world)
              Toy.frame s (false, []) (-1)%Z 3%Z (99 / 100) None None None
              (1 / 200) (toy_wired false (Some 0%Z)))
    as (_ & A & L & _).
  split; assumption.
Defined.

Lemma prioritized_buffer_rejected_witness :
  let s := Toy.st false (Some 0%Z) in
  learn_discor (W := Toy.world) (true, []) 11%positive (-1)%Z 3%Z
    (99 / 100) None None None 12%positive 13%positive (1 / 200) true s
  = (Raise AssertionError, s) /\
  exists l s',
    learn_discor (W := Toy.world) (false, []) 11%positive (-1)%Z 3%Z
      (99 / 100) None None None 12%positive 13%positive (1 / 200) true s
    = (Ok l, s').
Proof.
  intros s. split.
  - apply (prioritized_buffer_rejected (W := Toy.world) (true, [])
             11%positive (-1)%Z 3%Z (99 / 100) None None None
             12%positive 13%positive (1 / 200) true s).
    reflexivity.
  - apply (prioritized_buffer_rejected (W := Toy.world) (false, [])
             11%positive (-1)%Z 3%Z (99 / 100) None None None
             12%positive 13%positive (1 / 200) true s).
    reflexivity.
Defined.

(** The toy environment reports [done = True] at every step; the fifth
    step of an episode of at most five steps is pushed with
    [done = False]. *)
Lemma infinite_bootstrap_pushes_not_done_witness :
  (env_step Toy.world 0%Z [Tensor.Num 0]).1.2 = true /\
  exists t s',
    rollout_step (W := Toy.world) Toy.config (Toy.st false (Some 4%Z))
    = (Ok t, s') /\
    p_done t = false /\
    buffer s' = buffer_push Toy.world (false, []) t.
Proof.
  split; [reflexivity |].
  apply (infinite_bootstrap_pushes_not_done (W := Toy.world) Toy.config
           (Toy.st false (Some 4%Z)) 4%Z).
  - reflexivity.
  - reflexivity.
  - reflexivity.
  - intros _. exists 0. reflexivity.
Defined.


Lemma live_deltas_weigh_target_deltas_bootstrap_witness :
  is_prioritized Toy.world (false, []) = false /\
  exists l s',
    learn_discor (W := Toy.world) (false, []) 11%positive (-1)%Z 3%Z
      (99 / 100) None None None 12%positive 13%positive (1 / 200) true
      (Toy.st false (Some 0%Z)) = (Ok l, s') /\
    batch l = [Toy.row0; Toy.row0; Toy.row0] /\
    target_delta1 l
    = Tensor.add (Tensor.abs (td_error1 l))
        (Tensor.mul
           (Tensor.scale (99 / 100)
              (Tensor.rsub 1 (map done_batch (batch l))))
           (on_batch (W := Toy.world)
              (delta_fwd (st_heap (Toy.st false (Some 0%Z)))
                 (delta1 Toy.target))
              (map next_state_batch (batch l)) (action_s1 l))).
Proof.
  split; [reflexivity |].
  destruct (live_deltas_weigh_target_deltas_bootstrap (W := Toy.world)
              (false, []) 11%positive (-1)%Z 3%Z (99 / 100) None None None
              12%positive 13%positive (1 / 200) true
              (Toy.st false (Some 0%Z)) eq_refl)
    as (l & s' & E & B & _ & _ & _ & _ & _ & _ & T1 & _).
  exists l, s'. split; [exact E |]. split; [exact B | exact T1].
Defined.

Lemma targets_move_by_soft_update_only_witness :
  agent_ok (Toy.args false) /\
  exists f s out s',
    run_upto Toy.config (Toy.args false) 0 = Ok (f, s) /\
    iteration Toy.config f 0 s = (out, s') /\
    target_agent s' = target_agent s /\
    st_heap s !!! weights (critic1 (target_agent s))
    = st_heap s !!! weights (critic1 (agent s)) /\
    (out = Ok tt ->
     st_heap s' !!! weights (critic1 (target_agent s))
     = zip_with (fun x p => x * (1 - 1 / 200) + p * (1 / 200))
         (st_heap s !!! weights (critic1 (target_agent s)))
         (st_heap s' !!! weights (critic1 (agent s')))).
Proof.
  split; [exact toy_agent_ok |].
  assert (Hpos : 0 < init_alpha Toy.config) by (cbn; lra).
  destruct (run_upto_first (W := Toy.world) Toy.config (Toy.args false)
              (Some "dc_saves/discor_run") eq_refl Hpos)
    as (f & s & Er).
  destruct (iteration Toy.config f 0 s) as [out s'] eqn:Ei.
  destruct (targets_move_by_soft_update_only Toy.config (Toy.args false)
              0 f s out s' toy_agent_ok Er Ei) as (Ht & _ & _ & Hn).
  exists f, s, out, s'. split; [exact Er |]. split; [exact Ei |].
  split; [exact Ht |].
  destruct (Hn critic1) as (H0 & _ & H).
  - unfold synced_nets. apply elem_of_cons. now left.
  - split; [exact (H0 eq_refl) |].
    intros Hout. apply H; [exact Hout | reflexivity].
Defined.

(** An actor whose mean is not a number: the action that [forward]
    returns is NaN, which is in no interval. *)
Lemma action_not_in_unit_box :
  exists a s',
    forward (W := Toy.nan_world) true 0 Toy.nan_st = (Ok a, s') /\
    a = [Tensor.NaN] /\
    ~ Forall (Tensor.within (-1) 1) a.
Proof.
  exists [Tensor.NaN], Toy.nan_st. split; [reflexivity |].
  split; [reflexivity |].
  intros H. apply Forall_cons in H as [H _]. exact H.
Qed.

(** ** The further properties, on the toy instance *)

Lemma acting_leaves_agent_as_it_was_witness :
  let s := Toy.st false (Some 0%Z) in
  training (actor (agent s)) = true /\
  (forward (W := Toy.world) true 0 s).2 = s /\
  (sample_action (W := Toy.world) true 0 s).2
  = set_rng (W := Toy.world) 1%nat s.
Proof.
  intros s.
  pose proof (acting_leaves_agent_as_it_was (W := Toy.world) 0 s eq_refl)
    as H.
  cbv zeta in H. destruct H as [F S].
  split; [reflexivity |]. split.
  - now rewrite F.
  - now rewrite S.
Defined.

Lemma rollout_step_pushes_what_it_acted_on_witness :
  let s := Toy.st false (Some 4%Z) in
  exists t s',
    rollout_step (W := Toy.world) Toy.config s = (Ok t, s') /\
    p_done t = false /\
    Forall2 (Tensor.clamped (-1) 1) [Tensor.Num (1 / 2); Tensor.Num 3]
      (p_action t) /\
    steps_this_ep s' = Some 5%Z /\
    done s' = true.
Proof.
  intros s.
  pose proof (rollout_step_pushes_what_it_acted_on (W := Toy.world)
                Toy.config s 0 4%Z eq_refl eq_refl) as H.
  cbv zeta in H. destruct H as [Hr (s' & E & _ & _ & _ & Sp & D)].
  eexists. exists s'. split; [exact E |].
  split; [reflexivity |]. split; [exact Hr |]. split; [exact Sp |].
  exact D.
Defined.

Lemma rollouts_never_raise_witness :
  rollout_ok (W := Toy.world) Toy.config (Toy.st true None) /\
  exists s',
    for_ (range 7)
      (fun _ => _ <- rollout_step (W := Toy.world) Toy.config ;; ret tt)
      (Toy.st true None) = (Ok tt, s') /\
    rollout_ok Toy.config s'.
Proof.
  assert (H0 : rollout_ok (W := Toy.world) Toy.config (Toy.st true None))
    by (left; reflexivity).
  split; [exact H0 |].
  destruct (rollouts_never_raise (W := Toy.world) Toy.config
              (Toy.st true None) 7%Z H0) as (s' & E & Hok & _).
  exists s'. split; assumption.
Defined.

Lemma learn_discor_shapes_witness :
  is_prioritized Toy.world (false, []) = false /\
  exists l s',
    learn_discor (W := Toy.world) (false, []) 11%positive (-1)%Z 3%Z
      (99 / 100) None None None 12%positive 13%positive (1 / 200) true
      (Toy.st false (Some 0%Z)) = (Ok l, s') /\
    batch l = [Toy.row0; Toy.row0; Toy.row0] /\
    length (td_target l) = length (batch l) /\
    length (disCor_weights1 l) = length (batch l).
Proof.
  split; [reflexivity |].
  destruct (learn_discor_shapes (W := Toy.world) (false, [])
              11%positive (-1)%Z 3%Z (99 / 100) None None None
              12%positive 13%positive (1 / 200) true
              (Toy.st false (Some 0%Z)) eq_refl)
    as (l & s' & E & B & H).
  exists l, s'. split; [exact E |]. split; [exact B |].
  rewrite Forall_forall in H.
  split; apply H; rewrite !elem_of_cons; tauto.
Defined.

Lemma discor_weights_bounds_witness :
  is_prioritized Toy.world (false, []) = false /\
  (0 <= 3)%Z /\
  exists l s',
    learn_discor (W := Toy.world) (false, []) 11%positive (-1)%Z 3%Z
      (99 / 100) None None None 12%positive 13%positive (1 / 200) true
      (Toy.st false (Some 0%Z)) = (Ok l, s') /\
    batch l = [Toy.row0; Toy.row0; Toy.row0] /\
    length (disCor_weights1 l) = 3%nat /\
    Forall (fun w => 0 <= w <= 3) (disCor_weights1 l ++ disCor_weights2 l).
Proof.
  assert (E12 : st_heap (Toy.st false (Some 0%Z)) !!! 12%positive = [10])
    by reflexivity.
  assert (E13 : st_heap (Toy.st false (Some 0%Z)) !!! 13%positive = [10])
    by reflexivity.
  split; [reflexivity |]. split; [lia |].
  destruct (discor_weights_bounds (W := Toy.world) (false, [])
              11%positive (-1)%Z 3%Z (99 / 100) None None None
              12%positive 13%positive (1 / 200) true
              (Toy.st false (Some 0%Z)) eq_refl ltac:(lia))
    as (l & s' & E & B & L1 & _ & H).
  - refine (eq_ind_r (fun v => 0 < Tensor.item v) _ E12).
    cbn [Tensor.item hd]. lra.
  - refine (eq_ind_r (fun v => 0 < Tensor.item v) _ E13).
    cbn [Tensor.item hd]. lra.
  - exists l, s'. split; [exact E |]. split; [exact B |].
    split; [| exact H]. rewrite L1, B. reflexivity.
Defined.

Lemma terminal_batch_is_not_bootstrapped_witness :
  Forall (fun r => done_batch r = 1)
    (buffer_sample Toy.terminal_world (false, []) 3%Z 0%nat).1 /\
  exists l s',
    learn_discor (W := Toy.terminal_world) (false, []) 11%positive (-1)%Z
      3%Z (99 / 100) None None None 12%positive 13%positive (1 / 200)
      true Toy.terminal_st = (Ok l, s') /\
    batch l = [Toy.row1; Toy.row1; Toy.row1] /\
    td_target l = map reward_batch (batch l) /\
    Forall (fun w => w = 3 / INR (length (batch l)))
      (disCor_weights1 l ++ disCor_weights2 l).
Proof.
  assert (Hd : Forall (fun r : Row R => done_batch r = 1)
                 (buffer_sample Toy.terminal_world (false, []) 3%Z
                    0%nat).1)
    by (change (Forall (fun r : Row R => done_batch r = 1)
                  [Toy.row1; Toy.row1; Toy.row1]);
        repeat constructor).
  assert (E12 : st_heap Toy.terminal_st !!! 12%positive = [10])
    by reflexivity.
  assert (E13 : st_heap Toy.terminal_st !!! 13%positive = [10])
    by reflexivity.
  split; [exact Hd |].
  destruct (terminal_batch_is_not_bootstrapped (W := Toy.terminal_world)
              (false, []) 11%positive (-1)%Z 3%Z (99 / 100) None None None
              12%positive 13%positive (1 / 200) true Toy.terminal_st
              eq_refl Hd)
    as (l & s' & E & H).
  - refine (eq_ind_r (fun v => Tensor.item v <> 0) _ E12).
    cbn [Tensor.item hd]. lra.
  - refine (eq_ind_r (fun v => Tensor.item v <> 0) _ E13).
    cbn [Tensor.item hd]. lra.
  - cbv zeta in H. destruct H as (B & Htd & _ & _ & _ & Hw).
    exists l, s'. repeat split; assumption.
Defined.

Lemma losses_are_nonnegative_witness :
  (buffer_sample Toy.world (false, []) 3%Z 0%nat).1 <> [] /\
  exists l s',
    learn_discor (W := Toy.world) (false, []) 11%positive (-1)%Z 3%Z
      (99 / 100) None None None 12%positive 13%positive (1 / 200) true
      (Toy.st false (Some 0%Z)) = (Ok l, s') /\
    0 <= critic_loss l (st_heap s') /\ 0 <= delta_loss l (st_heap s').
Proof.
  assert (Hne : (buffer_sample Toy.world (false, []) 3%Z 0%nat).1 <> [])
    by (change ([Toy.row0; Toy.row0; Toy.row0] <> []); discriminate).
  split; [exact Hne |].
  destruct (losses_are_nonnegative (W := Toy.world) (false, [])
              11%positive (-1)%Z 3%Z (99 / 100) None None None
              12%positive 13%positive (1 / 200) true
              (Toy.st false (Some 0%Z)) eq_refl Hne ltac:(lia))
    as (l & s' & E & H).
  exists l, s'. split; [exact E |]. apply H.
Defined.

Lemma toy_rows_not_done :
  Forall (fun r : Row R => 0 <= done_batch r <= 1)
    (buffer_sample Toy.world (false, []) 3%Z 0%nat).1.
Proof.
  change (Forall (fun r : Row R => 0 <= done_batch r <= 1)
            [Toy.row0; Toy.row0; Toy.row0]).
  repeat constructor; cbn [done_batch Toy.row0]; lra.
Qed.

Lemma toy_deltas_nonneg (n : positive) (x : R) :
  st_heap (Toy.st false (Some 0%Z)) !! n = Some [x] -> 0 <= x ->
  forall (b : bool) (o : R) (a : list R),
    0 <= delta_fwd (W := Toy.world) (st_heap (Toy.st false (Some 0%Z)))
           {| weights := n; training := b |} o a.
Proof.
  intros E Hx b o a. unfold delta_fwd. cbn [weights training].
  rewrite (lookup_total_correct _ _ _ E).
  change (0 <= x + 0). lra.
Qed.

Lemma delta_targets_are_nonnegative_witness :
  0 <= 99 / 100 /\
  exists l s',
    learn_discor (W := Toy.world) (false, []) 11%positive (-1)%Z 3%Z
      (99 / 100) None None None 12%positive 13%positive (1 / 200) true
      (Toy.st false (Some 0%Z)) = (Ok l, s') /\
    Forall (fun x => 0 <= x) (target_delta1 l ++ target_delta2 l).
Proof.
  split; [lra |].
  apply (delta_targets_are_nonnegative (W := Toy.world) (false, [])
           11%positive (-1)%Z 3%Z (99 / 100) None None None
           12%positive 13%positive (1 / 200) true
           (Toy.st false (Some 0%Z)) eq_refl).
  - lra.
  - exact toy_rows_not_done.
  - intros o a. split.
    + apply (toy_deltas_nonneg 9%positive 3 eq_refl).
      lra.
    + apply (toy_deltas_nonneg 10%positive 4 eq_refl).
      lra.
Defined.

Lemma temperatures_stay_positive_witness :
  0 <= 1 / 200 < 1 /\
  exists l s',
    learn_discor (W := Toy.world) (false, []) 11%positive (-1)%Z 3%Z
      (99 / 100) None None None 12%positive 13%positive (1 / 200) true
      (Toy.st false (Some 0%Z)) = (Ok l, s') /\
    exists y1 y2,
      st_heap s' !! 12%positive = Some [y1] /\
      st_heap s' !! 13%positive = Some [y2] /\
      0 < y1 /\ 0 < y2.
Proof.
  split; [lra |].
  destruct (temperatures_stay_positive (W := Toy.world) Toy.frame
              (Toy.st false (Some 0%Z)) (false, []) (-1)%Z 3%Z (99 / 100)
              None None None (1 / 200) true 10 10
              (toy_wired false (Some 0%Z)) eq_refl)
    as (l & s' & E & y1 & y2 & T1 & T2 & B1 & B2).
  - change ([Toy.row0; Toy.row0; Toy.row0] <> []). discriminate.
  - lra.
  - reflexivity.
  - lra.
  - reflexivity.
  - lra.
  - intros o a. split.
    + apply (toy_deltas_nonneg 4%positive 3 eq_refl). lra.
    + apply (toy_deltas_nonneg 5%positive 4 eq_refl). lra.
  - exists l, s'. split; [exact E |]. exists y1, y2.
    repeat split; try assumption; lra.
Defined.

Lemma learn_discor_writes_are_confined_witness :
  let s := Toy.st false (Some 0%Z) in
  let s' := (learn_discor (W := Toy.world) (false, []) 11%positive (-1)%Z
               3%Z (99 / 100) None None None 12%positive 13%positive
               (1 / 200) true s).2 in
  target_agent s' = target_agent s /\
  st_heap s' !! 7%positive = st_heap s !! 7%positive.
Proof.
  intros s s'.
  pose proof (learn_discor_writes_are_confined (W := Toy.world) Toy.frame
                s (false, []) (-1)%Z 3%Z (99 / 100) None None None
                (1 / 200) true (toy_wired false (Some 0%Z))) as H.
  cbv zeta in H. destruct H as (_ & Ht & _ & _ & Hl).
  split; [exact Ht |]. apply Hl.
  change (7%positive ∈ [6; 7; 8; 9; 10]%positive).
  rewrite !elem_of_cons. tauto.
Defined.

Lemma setup_copies_and_initialises_witness :
  0 < init_alpha Toy.config /\
  exists f s0,
    setup (W := Toy.world) Toy.config (Toy.args false) = Ok (f, s0) /\
    exp (Tensor.item (st_heap s0 !!! log_alpha f)) = 1 / 10 /\
    st_heap s0 !!! temp1 f = [10] /\
    st_heap s0 !!! weights (actor (target_agent s0)) = [1 / 2; 3].
Proof.
  assert (Hpos : 0 < init_alpha Toy.config) by (cbn; lra).
  split; [exact Hpos |].
  destruct (setup_copies_and_initialises (W := Toy.world) Toy.config
              (Toy.args false) Hpos (proj2 toy_agent_ok))
    as (f & s0 & E & _ & _ & _ & La & T1 & _ & HT).
  exists f, s0. split; [exact E |]. split; [exact La |].
  split; [exact T1 |].
  destruct (HT actor) as (_ & _ & C).
  - unfold all_nets. apply elem_of_cons. now left.
  - rewrite C. reflexivity.
Defined.

Lemma discor_without_iterations_witness :
  logging (W := Toy.hparams_rejected) (Toy.config_of 0 2 (1 / 10) false)
  = Ok None /\
  discor (W := Toy.hparams_rejected) (Toy.config_of 0 2 (1 / 10) true)
    Toy.args_rejected
  = Raise ValueError /\
  discor (W := Toy.hparams_rejected) (Toy.config_of 0 2 (1 / 10) false)
    Toy.args_rejected
  = Ok (train Toy.live) /\
  discor (W := Toy.world) (Toy.config_of 4 2 0 true) (Toy.args false)
  = Raise ValueError /\
  discor (W := Toy.world) (Toy.config_of 0 2 (1 / 10) true) (Toy.args false)
  = Ok (train Toy.live).
Proof.
  destruct (discor_without_iterations (W := Toy.hparams_rejected)
              (Toy.config_of 0 2 (1 / 10) false) Toy.args_rejected)
    as (Q & _ & Hoff).
  destruct (discor_without_iterations (W := Toy.hparams_rejected)
              (Toy.config_of 0 2 (1 / 10) true) Toy.args_rejected)
    as (_ & Hraise & _).
  destruct (discor_without_iterations (W := Toy.world)
              (Toy.config_of 4 2 0 true) (Toy.args false))
    as (_ & _ & Halpha).
  destruct (discor_without_iterations (W := Toy.world)
              (Toy.config_of 0 2 (1 / 10) true) (Toy.args false))
    as (_ & _ & Hon).
  specialize (Q eq_refl eq_refl).
  split; [exact Q |]. split; [| split; [| split]].
  - apply Hraise. reflexivity.
  - apply (Hoff None Q); cbn; [lra | lia].
  - apply (Halpha (Some "dc_saves/discor_run") eq_refl). cbn. lra.
  - apply (Hon (Some "dc_saves/discor_run") eq_refl); cbn; [lra | lia].
Defined.

Lemma zero_interval_never_returns_witness :
  exists e,
    discor (W := Toy.world) (Toy.config_of 4 0 (1 / 10) true)
      (Toy.args false)
    = Raise e.
Proof.
  apply (zero_interval_never_returns (W := Toy.world)
           (Toy.config_of 4 0 (1 / 10) true) (Toy.args false)).
  - cbn. lia.
  - left. reflexivity.
Defined.

Lemma discor_returns_its_agent_witness :
  discor (W := Toy.world) (Toy.config_of 0 2 (1 / 10) true)
    (Toy.args false)
  = Ok (train Toy.live) /\
  agent_locs (train Toy.live) = agent_locs Toy.live.
Proof.
  assert (E : discor (W := Toy.world) (Toy.config_of 0 2 (1 / 10) true)
                (Toy.args false) = Ok (train Toy.live)).
  { apply (discor_no_steps (W := Toy.world)
             (Toy.config_of 0 2 (1 / 10) true) (Toy.args false)
             (Some "dc_saves/discor_run") eq_refl); cbn; [lra | lia]. }
  split; [exact E |].
  exact (discor_returns_its_agent (W := Toy.world) _ _ _ E).
Defined.

Lemma load_restores_what_save_wrote_witness :
  exists h'',
    load Toy.live "ckpt" (save Toy.live "ckpt" (list_to_map Toy.cells) ∅)
      Toy.retrained = (None, h'') /\
    h'' !!! 1%positive = [1 / 2; 3] /\
    Toy.retrained !!! 1%positive = [7; 7].
Proof.
  destruct (load_restores_what_save_wrote Toy.live "ckpt"
              (list_to_map Toy.cells) Toy.retrained ∅)
    as (h'' & E & Hv & _).
  - exact (proj1 toy_agent_ok).
  - repeat constructor.
  - exists h''. split; [exact E |]. split; [| reflexivity].
    apply Forall_cons in Hv as [H1 _]. refine (eq_trans H1 _).
    reflexivity.
Defined.

Lemma load_stops_at_the_first_missing_file_witness :
  load Toy.live "ckpt" ∅ (list_to_map Toy.cells)
  = (Some FileNotFoundError, list_to_map Toy.cells) /\
  load Toy.live "ckpt" Toy.actor_only (list_to_map Toy.cells)
  = (Some FileNotFoundError, Toy.retrained).
Proof.
  split.
  - apply (load_stops_at_the_first_missing_file Toy.live "ckpt" ∅
             (list_to_map Toy.cells)).
    apply lookup_empty.
  - apply (load_stops_at_the_first_missing_file Toy.live "ckpt"
             Toy.actor_only (list_to_map Toy.cells)).
    + apply lookup_singleton_eq.
    + reflexivity.
    + apply lookup_singleton_ne. discriminate.
Defined.

End DisCorFacts.
